(** * lms2012 compatibility driver: probe, remove and the global accessor

    A shallow embedding of [lms2012/lms2012_compat.c].  The driver's three
    entry points are

    - [lms2012_compat_get]    (the exported accessor of the global instance),
    - [lms2012_compat_probe]  (resource acquisition and publication),
    - [lms2012_compat_remove] (un-publication).

    The driver talks to the kernel only: device-tree queries, resource
    providers (pinctrl, gpiod, i2c, ioremap, irq, clk, pwm), the devres
    lists of the driver core and the platform bus.  Those are modelled as
    an environment record [kernel] whose fields answer each call, and by a
    small state [kstate] holding what the driver can change.  Every call
    that claims, releases, queries or registers something is recorded as an
    [event], in program order, so that statements about ordering and about
    claim/release balance can be made on the emitted trace. *)

From Stdlib Require Import ZArith Lia String Ascii DecimalString.
From stdpp Require Import base decidable list strings functions.

Local Open Scope string_scope.
Local Open Scope Z_scope.
Local Open Scope list_scope.

(** ** Error numbers (include/uapi/asm-generic/errno*.h, linux/errno.h) *)

Definition errno := positive.

Module Errno.
Definition ENOENT : errno := 2%positive.
Definition ENOMEM : errno := 12%positive.
Definition EBUSY : errno := 16%positive.
Definition ENODEV : errno := 19%positive.
Definition EINVAL : errno := 22%positive.
Definition ENODATA : errno := 61%positive.
Definition EOVERFLOW : errno := 75%positive.
Definition EPROBE_DEFER : errno := 517%positive.
End Errno.
Import Errno.

(** [-E] as the C code writes it. *)
Notation "'-E' e" := (Z.neg e) (at level 30, e at level 9, format "'-E'  e").

(** ** Kernel objects *)

Definition device := nat.      (* a [struct device *], by identity *)
Definition node := nat.        (* a [struct device_node *], by identity *)

(** A pointer returned by a kernel API: NULL, a valid object, or an
    [ERR_PTR(-e)]. *)
Inductive kptr (H : Type) : Type :=
| Null
| Ptr (h : H)
| ErrPtr (e : errno).
Arguments Null {H}.
Arguments Ptr {H} h.
Arguments ErrPtr {H} e.

Definition IS_ERR {H} (p : kptr H) : bool :=
  match p with ErrPtr _ => true | _ => false end.

(** An [int]-returning kernel API: 0 (with its output argument) or [-e]. *)
Inductive kres (A : Type) : Type :=
| KOk (a : A)
| KErr (e : errno).
Arguments KOk {A} a.
Arguments KErr {A} e.

(** [struct gpio_descs]: only [ndescs] is read by the driver. *)
Record gpio_descs := { ndescs : nat }.

(** The two devres payloads the driver defines itself (lines 42-44, 53-55). *)
Record lms2012_compat_i2c_adpater := { adapter : option Z }.
Record lms2012_compat_clk := { clk : kptr node }.

(** ** The hardware description *)

(** A device-tree property holding u32 cells. *)
Inductive of_property :=
| PropMissing
| PropNoValue
| PropCells (cells : list Z).

(** of_property_count_u32_elems (drivers/of/property.c): the number of
    cells, [-EINVAL] if the property does not exist, [-ENODATA] if it has
    no value. *)
Definition of_property_count_u32_elems (p : of_property) : Z :=
  match p with
  | PropMissing => -E EINVAL
  | PropNoValue => -E ENODATA
  | PropCells cells => Z.of_nat (length cells)
  end.

(** of_property_read_u32_array(np, name, out, sz): fills [out] with the
    first [sz] cells; [-EINVAL] if the property does not exist, [-ENODATA]
    if it has no value, [-EOVERFLOW] if it holds fewer than [sz] cells.  A
    longer property is not an error. *)
Definition of_property_read_u32_array (p : of_property) (sz : nat)
  : kres (list Z) :=
  match p with
  | PropMissing => KErr EINVAL
  | PropNoValue => KErr ENODATA
  | PropCells cells =>
      if (length cells <? sz)%nat then KErr EOVERFLOW
      else KOk (take sz cells)
  end.

(** A phandle list property ("in-in-ports", "in-uarts").  Either the list
    cannot be walked at all, or it has entries, each of which resolves to a
    node or fails on its own. *)
Inductive phandle_list :=
| PhError (e : errno)
| PhEntries (entries : list (kres node)).

(** of_count_phandle_with_args *)
Definition of_count_phandle_with_args (p : phandle_list) : Z :=
  match p with
  | PhError e => -E e
  | PhEntries entries => Z.of_nat (length entries)
  end.

(** of_parse_phandle_with_args(..., index, &args) *)
Definition of_parse_phandle_with_args (p : phandle_list) (index : nat)
  : kres node :=
  match p with
  | PhError e => KErr e
  | PhEntries entries =>
      match entries !! index with
      | Some r => r
      | None => KErr ENOENT
      end
  end.

(** What the kernel answers to each call the driver makes.  Answers are
    fixed for the duration of one probe attempt. *)
Record kernel := {
  k_kzalloc_lms : bool;                         (* devm_kzalloc of the bundle *)
  k_in_in_ports : phandle_list;                 (* "in-in-ports" *)
  k_find_device_by_node : node -> option device;
  k_pinctrl_get_select_default : device -> kptr nat;
  k_pinctrl_lookup_state : kptr nat -> string -> kptr nat;
  k_adc_channels : of_property;                 (* "adc-channels" *)
  k_gpiod_get_array : string -> kres gpio_descs;
  k_gpiod_get_optional : string -> kptr nat;
  k_in_i2cs : of_property;                      (* "in-i2cs" *)
  k_i2c_get_adapter : Z -> bool;                (* is adapter [nr] registered *)
  k_devres_alloc_i2c : nat -> bool;             (* devres_alloc, iteration i *)
  k_in_uarts : phandle_list;                    (* "in-uarts" *)
  k_address_to_resource : node -> kres nat;
  k_ioremap_resource : nat -> kptr nat;
  k_irq_get : node -> Z;
  k_clock_frequency : node -> of_property;      (* "clock-frequency" *)
  k_devres_alloc_clk : nat -> bool;             (* devres_alloc, iteration i *)
  k_clk_get_by_name : node -> string -> kres unit;
  k_clk_prepare_enable : node -> kres unit;
  k_pwm_get : string -> kptr nat;
}.

(** ** Resources and events *)

Inductive mem_obj := MBundle | MI2cRes | MClkRes.

Inductive resource :=
| RMem (m : mem_obj)          (* kzalloc / devres_alloc memory *)
| RNode (np : node)           (* of_node reference held in args.np *)
| RPortDev (d : device)       (* reference from of_find_device_by_node *)
| RPinctrl (d : device)       (* pinctrl handle of device d *)
| RGpiod (con_id : string)    (* gpiod line or line group *)
| RI2c (nr : Z)               (* i2c adapter reference *)
| RIomem (res : nat)          (* ioremap'ed register window *)
| RClk (np : node)            (* clk handle *)
| RClkEnable (np : node)      (* prepare/enable count on the clk *)
| RPwm (con_id : string).     (* pwm channel *)

Inductive event :=
| EvQuery (prop : string)             (* read-only device-tree query *)
| EvAcquire (r : resource)
| EvRelease (r : resource)
| EvSetGlobal (d : option device)     (* store to global_dev *)
| EvRegister (name : string)          (* platform_device_register_simple *)
| EvUnregister (p : kptr string).     (* platform_device_unregister *)

#[global] Instance mem_obj_eq_dec : EqDecision mem_obj.
Proof. solve_decision. Defined.
#[global] Instance resource_eq_dec : EqDecision resource.
Proof. solve_decision. Defined.
#[global] Instance kptr_eq_dec {H} `{EqDecision H} : EqDecision (kptr H).
Proof. solve_decision. Defined.
#[global] Instance event_eq_dec : EqDecision event.
Proof. solve_decision. Defined.

(** ** Managed resources (drivers/base/devres.c) *)

Inductive devres_node :=
| DrKzalloc                                   (* devm_kzalloc *)
| DrPinctrl (d : device)                      (* devm_pinctrl_get *)
| DrGpiod (con_id : string)                   (* devm_gpiod_get_array, _optional *)
| DrIoremap (res : nat)                       (* devm_ioremap_resource *)
| DrPwm (con_id : string)                     (* devm_pwm_get *)
| DrI2cAdapter (res : lms2012_compat_i2c_adpater)
| DrClk (res : lms2012_compat_clk).

(** i2c_put_adapter: a NULL adapter is ignored. *)
Definition i2c_put_adapter (a : option Z) : list event :=
  match a with
  | None => []
  | Some nr => [EvRelease (RI2c nr)]
  end.

(** Lines 46-51. *)
Definition lms2012_compat_release_i2c_adapter
  (res : lms2012_compat_i2c_adpater) : list event :=
  i2c_put_adapter (adapter res).

(** clk_disable_unprepare and clk_put: a NULL or error clk is ignored. *)
Definition clk_disable_unprepare (c : kptr node) : list event :=
  match c with
  | Ptr np => [EvRelease (RClkEnable np)]
  | _ => []
  end.

Definition clk_put (c : kptr node) : list event :=
  match c with
  | Ptr np => [EvRelease (RClk np)]
  | _ => []
  end.

(** Lines 57-63. *)
Definition lms2012_compat_release_clk (res : lms2012_compat_clk)
  : list event :=
  clk_disable_unprepare (clk res) ++ clk_put (clk res).

(** What releasing one devres node does: its release callback, then the
    node's own memory is freed. *)
Definition devres_release (n : devres_node) : list event :=
  match n with
  | DrKzalloc => [EvRelease (RMem MBundle)]
  | DrPinctrl d => [EvRelease (RPinctrl d)]
  | DrGpiod con_id => [EvRelease (RGpiod con_id)]
  | DrIoremap res => [EvRelease (RIomem res)]
  | DrPwm con_id => [EvRelease (RPwm con_id)]
  | DrI2cAdapter res =>
      lms2012_compat_release_i2c_adapter res ++ [EvRelease (RMem MI2cRes)]
  | DrClk res =>
      lms2012_compat_release_clk res ++ [EvRelease (RMem MClkRes)]
  end.

(** ** The bundle

    [struct lms2012_compat] is declared in lms2012.h; its fields are the
    ones the driver assigns.  Arrays are lists indexed by port. *)
Record lms2012_compat := {
  pinctrl : list (kptr nat);
  pinctrl_default : list (kptr nat);
  pinctrl_i2c : list (kptr nat);
  adc_map : list Z;
  spi_pins : kptr gpio_descs;
  in_pin2 : list (kptr nat);
  in_pins : list (kptr gpio_descs);
  i2c_adapter : list (option Z);
  uart_mem : list (kptr nat);
  uart_irq : list Z;
  uart_clock_freq : list Z;
  out_pins : list (kptr gpio_descs);
  out_pwms : list (kptr nat);
  d_analog : kptr string;
  d_iic : kptr string;
  d_uart : kptr string;
  d_pwm : kptr string;
}.

(** Field assignment, one setter per field. *)
Definition set_pinctrl (v : list (kptr nat)) (l : lms2012_compat)
  : lms2012_compat :=
  {| pinctrl := v; pinctrl_default := pinctrl_default l;
     pinctrl_i2c := pinctrl_i2c l; adc_map := adc_map l;
     spi_pins := spi_pins l; in_pin2 := in_pin2 l; in_pins := in_pins l;
     i2c_adapter := i2c_adapter l; uart_mem := uart_mem l;
     uart_irq := uart_irq l; uart_clock_freq := uart_clock_freq l;
     out_pins := out_pins l; out_pwms := out_pwms l; d_analog := d_analog l;
     d_iic := d_iic l; d_uart := d_uart l; d_pwm := d_pwm l |}.
Definition set_pinctrl_default (v : list (kptr nat)) (l : lms2012_compat)
  : lms2012_compat :=
  {| pinctrl := pinctrl l; pinctrl_default := v;
     pinctrl_i2c := pinctrl_i2c l; adc_map := adc_map l;
     spi_pins := spi_pins l; in_pin2 := in_pin2 l; in_pins := in_pins l;
     i2c_adapter := i2c_adapter l; uart_mem := uart_mem l;
     uart_irq := uart_irq l; uart_clock_freq := uart_clock_freq l;
     out_pins := out_pins l; out_pwms := out_pwms l; d_analog := d_analog l;
     d_iic := d_iic l; d_uart := d_uart l; d_pwm := d_pwm l |}.
Definition set_pinctrl_i2c (v : list (kptr nat)) (l : lms2012_compat)
  : lms2012_compat :=
  {| pinctrl := pinctrl l; pinctrl_default := pinctrl_default l;
     pinctrl_i2c := v; adc_map := adc_map l; spi_pins := spi_pins l;
     in_pin2 := in_pin2 l; in_pins := in_pins l;
     i2c_adapter := i2c_adapter l; uart_mem := uart_mem l;
     uart_irq := uart_irq l; uart_clock_freq := uart_clock_freq l;
     out_pins := out_pins l; out_pwms := out_pwms l; d_analog := d_analog l;
     d_iic := d_iic l; d_uart := d_uart l; d_pwm := d_pwm l |}.
Definition set_adc_map (v : list Z) (l : lms2012_compat)
  : lms2012_compat :=
  {| pinctrl := pinctrl l; pinctrl_default := pinctrl_default l;
     pinctrl_i2c := pinctrl_i2c l; adc_map := v; spi_pins := spi_pins l;
     in_pin2 := in_pin2 l; in_pins := in_pins l;
     i2c_adapter := i2c_adapter l; uart_mem := uart_mem l;
     uart_irq := uart_irq l; uart_clock_freq := uart_clock_freq l;
     out_pins := out_pins l; out_pwms := out_pwms l; d_analog := d_analog l;
     d_iic := d_iic l; d_uart := d_uart l; d_pwm := d_pwm l |}.
Definition set_spi_pins (v : kptr gpio_descs) (l : lms2012_compat)
  : lms2012_compat :=
  {| pinctrl := pinctrl l; pinctrl_default := pinctrl_default l;
     pinctrl_i2c := pinctrl_i2c l; adc_map := adc_map l; spi_pins := v;
     in_pin2 := in_pin2 l; in_pins := in_pins l;
     i2c_adapter := i2c_adapter l; uart_mem := uart_mem l;
     uart_irq := uart_irq l; uart_clock_freq := uart_clock_freq l;
     out_pins := out_pins l; out_pwms := out_pwms l; d_analog := d_analog l;
     d_iic := d_iic l; d_uart := d_uart l; d_pwm := d_pwm l |}.
Definition set_in_pin2 (v : list (kptr nat)) (l : lms2012_compat)
  : lms2012_compat :=
  {| pinctrl := pinctrl l; pinctrl_default := pinctrl_default l;
     pinctrl_i2c := pinctrl_i2c l; adc_map := adc_map l;
     spi_pins := spi_pins l; in_pin2 := v; in_pins := in_pins l;
     i2c_adapter := i2c_adapter l; uart_mem := uart_mem l;
     uart_irq := uart_irq l; uart_clock_freq := uart_clock_freq l;
     out_pins := out_pins l; out_pwms := out_pwms l; d_analog := d_analog l;
     d_iic := d_iic l; d_uart := d_uart l; d_pwm := d_pwm l |}.
Definition set_in_pins (v : list (kptr gpio_descs)) (l : lms2012_compat)
  : lms2012_compat :=
  {| pinctrl := pinctrl l; pinctrl_default := pinctrl_default l;
     pinctrl_i2c := pinctrl_i2c l; adc_map := adc_map l;
     spi_pins := spi_pins l; in_pin2 := in_pin2 l; in_pins := v;
     i2c_adapter := i2c_adapter l; uart_mem := uart_mem l;
     uart_irq := uart_irq l; uart_clock_freq := uart_clock_freq l;
     out_pins := out_pins l; out_pwms := out_pwms l; d_analog := d_analog l;
     d_iic := d_iic l; d_uart := d_uart l; d_pwm := d_pwm l |}.
Definition set_i2c_adapter (v : list (option Z)) (l : lms2012_compat)
  : lms2012_compat :=
  {| pinctrl := pinctrl l; pinctrl_default := pinctrl_default l;
     pinctrl_i2c := pinctrl_i2c l; adc_map := adc_map l;
     spi_pins := spi_pins l; in_pin2 := in_pin2 l; in_pins := in_pins l;
     i2c_adapter := v; uart_mem := uart_mem l; uart_irq := uart_irq l;
     uart_clock_freq := uart_clock_freq l; out_pins := out_pins l;
     out_pwms := out_pwms l; d_analog := d_analog l; d_iic := d_iic l;
     d_uart := d_uart l; d_pwm := d_pwm l |}.
Definition set_uart_mem (v : list (kptr nat)) (l : lms2012_compat)
  : lms2012_compat :=
  {| pinctrl := pinctrl l; pinctrl_default := pinctrl_default l;
     pinctrl_i2c := pinctrl_i2c l; adc_map := adc_map l;
     spi_pins := spi_pins l; in_pin2 := in_pin2 l; in_pins := in_pins l;
     i2c_adapter := i2c_adapter l; uart_mem := v; uart_irq := uart_irq l;
     uart_clock_freq := uart_clock_freq l; out_pins := out_pins l;
     out_pwms := out_pwms l; d_analog := d_analog l; d_iic := d_iic l;
     d_uart := d_uart l; d_pwm := d_pwm l |}.
Definition set_uart_irq (v : list Z) (l : lms2012_compat)
  : lms2012_compat :=
  {| pinctrl := pinctrl l; pinctrl_default := pinctrl_default l;
     pinctrl_i2c := pinctrl_i2c l; adc_map := adc_map l;
     spi_pins := spi_pins l; in_pin2 := in_pin2 l; in_pins := in_pins l;
     i2c_adapter := i2c_adapter l; uart_mem := uart_mem l; uart_irq := v;
     uart_clock_freq := uart_clock_freq l; out_pins := out_pins l;
     out_pwms := out_pwms l; d_analog := d_analog l; d_iic := d_iic l;
     d_uart := d_uart l; d_pwm := d_pwm l |}.
Definition set_uart_clock_freq (v : list Z) (l : lms2012_compat)
  : lms2012_compat :=
  {| pinctrl := pinctrl l; pinctrl_default := pinctrl_default l;
     pinctrl_i2c := pinctrl_i2c l; adc_map := adc_map l;
     spi_pins := spi_pins l; in_pin2 := in_pin2 l; in_pins := in_pins l;
     i2c_adapter := i2c_adapter l; uart_mem := uart_mem l;
     uart_irq := uart_irq l; uart_clock_freq := v; out_pins := out_pins l;
     out_pwms := out_pwms l; d_analog := d_analog l; d_iic := d_iic l;
     d_uart := d_uart l; d_pwm := d_pwm l |}.
Definition set_out_pins (v : list (kptr gpio_descs)) (l : lms2012_compat)
  : lms2012_compat :=
  {| pinctrl := pinctrl l; pinctrl_default := pinctrl_default l;
     pinctrl_i2c := pinctrl_i2c l; adc_map := adc_map l;
     spi_pins := spi_pins l; in_pin2 := in_pin2 l; in_pins := in_pins l;
     i2c_adapter := i2c_adapter l; uart_mem := uart_mem l;
     uart_irq := uart_irq l; uart_clock_freq := uart_clock_freq l;
     out_pins := v; out_pwms := out_pwms l; d_analog := d_analog l;
     d_iic := d_iic l; d_uart := d_uart l; d_pwm := d_pwm l |}.
Definition set_out_pwms (v : list (kptr nat)) (l : lms2012_compat)
  : lms2012_compat :=
  {| pinctrl := pinctrl l; pinctrl_default := pinctrl_default l;
     pinctrl_i2c := pinctrl_i2c l; adc_map := adc_map l;
     spi_pins := spi_pins l; in_pin2 := in_pin2 l; in_pins := in_pins l;
     i2c_adapter := i2c_adapter l; uart_mem := uart_mem l;
     uart_irq := uart_irq l; uart_clock_freq := uart_clock_freq l;
     out_pins := out_pins l; out_pwms := v; d_analog := d_analog l;
     d_iic := d_iic l; d_uart := d_uart l; d_pwm := d_pwm l |}.
Definition set_d_analog (v : kptr string) (l : lms2012_compat)
  : lms2012_compat :=
  {| pinctrl := pinctrl l; pinctrl_default := pinctrl_default l;
     pinctrl_i2c := pinctrl_i2c l; adc_map := adc_map l;
     spi_pins := spi_pins l; in_pin2 := in_pin2 l; in_pins := in_pins l;
     i2c_adapter := i2c_adapter l; uart_mem := uart_mem l;
     uart_irq := uart_irq l; uart_clock_freq := uart_clock_freq l;
     out_pins := out_pins l; out_pwms := out_pwms l; d_analog := v;
     d_iic := d_iic l; d_uart := d_uart l; d_pwm := d_pwm l |}.
Definition set_d_iic (v : kptr string) (l : lms2012_compat)
  : lms2012_compat :=
  {| pinctrl := pinctrl l; pinctrl_default := pinctrl_default l;
     pinctrl_i2c := pinctrl_i2c l; adc_map := adc_map l;
     spi_pins := spi_pins l; in_pin2 := in_pin2 l; in_pins := in_pins l;
     i2c_adapter := i2c_adapter l; uart_mem := uart_mem l;
     uart_irq := uart_irq l; uart_clock_freq := uart_clock_freq l;
     out_pins := out_pins l; out_pwms := out_pwms l; d_analog := d_analog l;
     d_iic := v; d_uart := d_uart l; d_pwm := d_pwm l |}.
Definition set_d_uart (v : kptr string) (l : lms2012_compat)
  : lms2012_compat :=
  {| pinctrl := pinctrl l; pinctrl_default := pinctrl_default l;
     pinctrl_i2c := pinctrl_i2c l; adc_map := adc_map l;
     spi_pins := spi_pins l; in_pin2 := in_pin2 l; in_pins := in_pins l;
     i2c_adapter := i2c_adapter l; uart_mem := uart_mem l;
     uart_irq := uart_irq l; uart_clock_freq := uart_clock_freq l;
     out_pins := out_pins l; out_pwms := out_pwms l; d_analog := d_analog l;
     d_iic := d_iic l; d_uart := v; d_pwm := d_pwm l |}.
Definition set_d_pwm (v : kptr string) (l : lms2012_compat)
  : lms2012_compat :=
  {| pinctrl := pinctrl l; pinctrl_default := pinctrl_default l;
     pinctrl_i2c := pinctrl_i2c l; adc_map := adc_map l;
     spi_pins := spi_pins l; in_pin2 := in_pin2 l; in_pins := in_pins l;
     i2c_adapter := i2c_adapter l; uart_mem := uart_mem l;
     uart_irq := uart_irq l; uart_clock_freq := uart_clock_freq l;
     out_pins := out_pins l; out_pwms := out_pwms l; d_analog := d_analog l;
     d_iic := d_iic l; d_uart := d_uart l; d_pwm := v |}.

(** ** Compile-time constants of lms2012.h

    The header is not part of the sources at hand; the driver is verified
    for every value of its constants. *)
Class lms2012_h := {
  INPUTS : nat;
  OUTPUTS : nat;
  INPUTADC : nat;
  ADC_SPI_PINS : nat;
  INPUT_PORT_PINS : nat;
  OUTPUT_PORT_PINS : nat;
}.

(** ** Driver-visible kernel state *)

Record kstate := {
  global_dev : option device;                   (* line 27 *)
  kref : device -> nat;                         (* use-count of each device *)
  drvdata : device -> option lms2012_compat;    (* dev->driver_data *)
  devres : device -> list devres_node;          (* newest first *)
}.

Definition set_global_dev (v : option device) (s : kstate) : kstate :=
  {| global_dev := v; kref := kref s; drvdata := drvdata s;
     devres := devres s |}.
Definition set_kref (v : device -> nat) (s : kstate) : kstate :=
  {| global_dev := global_dev s; kref := v; drvdata := drvdata s;
     devres := devres s |}.
Definition set_drvdata (v : device -> option lms2012_compat) (s : kstate)
  : kstate :=
  {| global_dev := global_dev s; kref := kref s; drvdata := v;
     devres := devres s |}.
Definition set_devres (v : device -> list devres_node) (s : kstate) : kstate :=
  {| global_dev := global_dev s; kref := kref s; drvdata := drvdata s;
     devres := v |}.

(** ** The monad of driver code

    A C function body either runs to its end, leaves through a [return],
    or performs an access that C leaves undefined.  It changes the state
    and emits events on the way. *)

Inductive fault := NullDeref | UseAfterFree.

Inductive exit :=
| Return (code : Z)
| Fault (f : fault).

Definition outcome (A : Type) : Type := (A + exit) * kstate * list event.
Definition M (A : Type) : Type := kstate -> outcome A.

Definition ret {A} (a : A) : M A := fun s => (inl a, s, []).

Definition bind {A B} (m : M A) (f : A -> M B) : M B := fun s =>
  match m s with
  | (inl a, s1, t1) =>
      match f a s1 with
      | (r, s2, t2) => (r, s2, t1 ++ t2)
      end
  | (inr x, s1, t1) => (inr x, s1, t1)
  end.

Notation "x <- m ;; k" := (bind m (fun x => k))
  (at level 100, m at next level, right associativity).
Notation "m ;; k" := (bind m (fun _ => k))
  (at level 100, right associativity).

Definition return_ {A} (code : Z) : M A :=
  fun s => (inr (Return code), s, []).
Definition fault_ {A} (f : fault) : M A :=
  fun s => (inr (Fault f), s, []).
Definition emit (e : event) : M unit := fun s => (inl tt, s, [e]).
Definition gets {A} (f : kstate -> A) : M A := fun s => (inl (f s), s, []).
Definition modify (f : kstate -> kstate) : M unit :=
  fun s => (inl tt, f s, []).

(** [for (i = 0; i < n; i++) body], threading the bundle. *)
Fixpoint for_each {A} (idx : list nat) (body : nat -> A -> M A) (a : A)
  : M A :=
  match idx with
  | [] => ret a
  | i :: idx' => a' <- body i a ;; for_each idx' body a'
  end.

Definition for_upto {A} (n : nat) (body : nat -> A -> M A) (a : A) : M A :=
  for_each (seq 0 n) body a.

(** A function called from outside: what it returned, or how it died. *)
Definition call (m : M Z) (s : kstate) : exit * kstate * list event :=
  match m s with
  | (inl code, s', t) => (Return code, s', t)
  | (inr x, s', t) => (x, s', t)
  end.

(** ** String formatting *)

(** snprintf(name, 10, ...): at most nine characters are kept. *)
Definition snprintf10 (s : string) : string := substring 0 9 s.

(** "%d" of a non-negative int. *)
Definition fmt_d (n : nat) : string := NilEmpty.string_of_uint (Nat.to_uint n).

(** "%c" of an int: its low eight bits. *)
Definition fmt_c (n : nat) : string := String (ascii_of_nat n) EmptyString.

Definition char_A : nat := 65.

(** u32 read from the device tree, passed where an [int] is expected. *)
Definition u32_to_int (v : Z) : Z :=
  let u := v mod 2 ^ 32 in
  if u <? 2 ^ 31 then u else u - 2 ^ 32.

Definition emits (t : list event) : M unit := fun s => (inl tt, s, t).

(** of_property_read_u32: an array read of one cell. *)
Definition of_property_read_u32 (p : of_property) : kres Z :=
  match of_property_read_u32_array p 1 with
  | KOk (v :: _) => KOk v
  | KOk [] => KErr EOVERFLOW
  | KErr e => KErr e
  end.

Section Driver.

Context `{lms2012_h}.
Variable K : kernel.

(** *** Kernel services as driver-side operations *)

Definition devres_add (dev : device) (n : devres_node) : M unit :=
  modify (fun s => set_devres (<[dev := n :: devres s dev]> (devres s)) s).

(** devres_alloc zeroes the payload it returns. *)
Definition devres_alloc {A} (m : mem_obj) (ok : bool) (zero : A)
  : M (option A) :=
  if ok then emit (EvAcquire (RMem m)) ;; ret (Some zero) else ret None.

Definition devres_free (m : mem_obj) : M unit := emit (EvRelease (RMem m)).

(** kzalloc'ed memory is all zeroes. *)
Definition zeroed_lms : lms2012_compat :=
  {| pinctrl := replicate INPUTS Null;
     pinctrl_default := replicate INPUTS Null;
     pinctrl_i2c := replicate INPUTS Null;
     adc_map := replicate INPUTADC 0;
     spi_pins := Null;
     in_pin2 := replicate INPUTS Null;
     in_pins := replicate INPUTS Null;
     i2c_adapter := replicate INPUTS None;
     uart_mem := replicate INPUTS Null;
     uart_irq := replicate INPUTS 0;
     uart_clock_freq := replicate INPUTS 0;
     out_pins := replicate OUTPUTS Null;
     out_pwms := replicate OUTPUTS Null;
     d_analog := Null; d_iic := Null; d_uart := Null; d_pwm := Null |}.

Definition devm_kzalloc (dev : device) : M (option lms2012_compat) :=
  if k_kzalloc_lms K then
    emit (EvAcquire (RMem MBundle)) ;;
    devres_add dev DrKzalloc ;;
    ret (Some zeroed_lms)
  else ret None.

(** The devm_ getters: a valid result is claimed and its release is
    queued on the devres list of the device it was asked for. *)
Definition devm_pinctrl_get_select_default (dev : device) : M (kptr nat) :=
  let p := k_pinctrl_get_select_default K dev in
  match p with
  | Ptr _ =>
      emit (EvAcquire (RPinctrl dev)) ;;
      devres_add dev (DrPinctrl dev) ;;
      ret p
  | _ => ret p
  end.

Definition devm_gpiod_get_array (dev : device) (con_id : string)
  : M (kres gpio_descs) :=
  let r := k_gpiod_get_array K con_id in
  match r with
  | KOk _ =>
      emit (EvAcquire (RGpiod con_id)) ;;
      devres_add dev (DrGpiod con_id) ;;
      ret r
  | KErr _ => ret r
  end.

Definition devm_gpiod_get_optional (dev : device) (con_id : string)
  : M (kptr nat) :=
  let p := k_gpiod_get_optional K con_id in
  match p with
  | Ptr _ =>
      emit (EvAcquire (RGpiod con_id)) ;;
      devres_add dev (DrGpiod con_id) ;;
      ret p
  | _ => ret p
  end.

Definition devm_ioremap_resource (dev : device) (res : nat) : M (kptr nat) :=
  let p := k_ioremap_resource K res in
  match p with
  | Ptr _ =>
      emit (EvAcquire (RIomem res)) ;;
      devres_add dev (DrIoremap res) ;;
      ret p
  | _ => ret p
  end.

Definition devm_pwm_get (dev : device) (con_id : string) : M (kptr nat) :=
  let p := k_pwm_get K con_id in
  match p with
  | Ptr _ =>
      emit (EvAcquire (RPwm con_id)) ;;
      devres_add dev (DrPwm con_id) ;;
      ret p
  | _ => ret p
  end.

Definition i2c_get_adapter (nr : Z) : M (option Z) :=
  if k_i2c_get_adapter K nr then
    emit (EvAcquire (RI2c nr)) ;; ret (Some nr)
  else ret None.

Definition of_clk_get_by_name (np : node) (name : string)
  : M (kptr node) :=
  match k_clk_get_by_name K np name with
  | KOk _ => emit (EvAcquire (RClk np)) ;; ret (Ptr np)
  | KErr e => ret (ErrPtr e)
  end.

Definition clk_prepare_enable (np : node) : M (kres unit) :=
  let r := k_clk_prepare_enable K np in
  match r with
  | KOk _ => emit (EvAcquire (RClkEnable np)) ;; ret r
  | KErr _ => ret r
  end.

Definition of_node_put (np : node) : M unit := emit (EvRelease (RNode np)).

Definition platform_device_put (d : device) : M unit :=
  emit (EvRelease (RPortDev d)).

(** *** lms2012_compat_probe, lines 65-323 *)

Variable pdev : device.

(** Lines 81-90. *)
Definition probe_count_in_ports : M unit :=
  emit (EvQuery "in-in-ports") ;;
  let ret_ := of_count_phandle_with_args (k_in_in_ports K) in
  if ret_ <? 0 then return_ ret_
  else if negb (ret_ =? Z.of_nat INPUTS) then return_ (-E EINVAL)
  else ret tt.

(** Lines 92-121, one iteration.  The node reference taken by
    of_parse_phandle_with_args stays in [args.np]; the pinctrl handle is
    asked for, and managed by, the input port's own device. *)
Definition probe_in_port (i : nat) (lms : lms2012_compat)
  : M lms2012_compat :=
  emit (EvQuery "in-in-ports") ;;
  match of_parse_phandle_with_args (k_in_in_ports K) i with
  | KErr e => return_ (-E e)
  | KOk np =>
      emit (EvAcquire (RNode np)) ;;
      match k_find_device_by_node K np with
      | None => return_ (-E ENODEV)
      | Some in_port =>
          emit (EvAcquire (RPortDev in_port)) ;;
          p <- devm_pinctrl_get_select_default in_port ;;
          let lms := set_pinctrl (<[i := p]> (pinctrl lms)) lms in
          platform_device_put in_port ;;
          match p with
          | ErrPtr e => return_ (-E e)
          | _ =>
              let lms :=
                set_pinctrl_default
                  (<[i := k_pinctrl_lookup_state K p "default"]>
                     (pinctrl_default lms)) lms in
              let lms :=
                set_pinctrl_i2c
                  (<[i := k_pinctrl_lookup_state K p "i2c"]>
                     (pinctrl_i2c lms)) lms in
              ret lms
          end
      end
  end.

(** Lines 123-128. *)
Definition probe_adc_channels (lms : lms2012_compat) : M lms2012_compat :=
  emit (EvQuery "adc-channels") ;;
  match of_property_read_u32_array (k_adc_channels K) INPUTADC with
  | KErr e => return_ (-E e)
  | KOk cells => ret (set_adc_map cells lms)
  end.

(** Lines 130-138. *)
Definition probe_spi_pins (lms : lms2012_compat) : M lms2012_compat :=
  r <- devm_gpiod_get_array pdev "spi" ;;
  match r with
  | KErr e => return_ (-E e)
  | KOk descs =>
      let lms := set_spi_pins (Ptr descs) lms in
      if negb (ndescs descs =? ADC_SPI_PINS)%nat then return_ (-E EINVAL)
      else ret lms
  end.

(** Lines 140-161, one iteration. *)
Definition probe_in_pins (i : nat) (lms : lms2012_compat)
  : M lms2012_compat :=
  let name := snprintf10 ("in" ++ fmt_d (i + 1) ++ "-pin2")%string in
  p <- devm_gpiod_get_optional pdev name ;;
  let lms := set_in_pin2 (<[i := p]> (in_pin2 lms)) lms in
  match p with
  | ErrPtr e => return_ (-E e)
  | _ =>
      let name := snprintf10 ("in" ++ fmt_d (i + 1))%string in
      r <- devm_gpiod_get_array pdev name ;;
      match r with
      | KErr e => return_ (-E e)
      | KOk descs =>
          let lms := set_in_pins (<[i := Ptr descs]> (in_pins lms)) lms in
          if negb (ndescs descs =? INPUT_PORT_PINS)%nat
          then return_ (-E EINVAL)
          else ret lms
      end
  end.

(** Lines 163-177: the adapter numbers, read into the local array. *)
Definition probe_read_i2cs : M (list Z) :=
  emit (EvQuery "in-i2cs") ;;
  let ret_ := of_property_count_u32_elems (k_in_i2cs K) in
  if negb (ret_ =? Z.of_nat INPUTS) then
    if ret_ <? 0 then return_ ret_ else return_ (-E EINVAL)
  else
    emit (EvQuery "in-i2cs") ;;
    match of_property_read_u32_array (k_in_i2cs K) INPUTS with
    | KErr e => return_ (-E e)
    | KOk i2c_adapters => ret i2c_adapters
    end.

(** Lines 179-194, one iteration.  The devres payload comes back zeroed
    from devres_alloc and is added as it is: its [adapter] field is never
    assigned. *)
Definition probe_i2c_adapter (i2c_adapters : list Z) (i : nat)
  (lms : lms2012_compat) : M lms2012_compat :=
  a <- i2c_get_adapter (u32_to_int (default 0 (i2c_adapters !! i))) ;;
  let lms := set_i2c_adapter (<[i := a]> (i2c_adapter lms)) lms in
  match a with
  | None => return_ (-E EPROBE_DEFER)
  | Some _ =>
      adapter <- devres_alloc MI2cRes (k_devres_alloc_i2c K i)
                   {| adapter := None |} ;;
      match adapter with
      | None =>
          emits (i2c_put_adapter a) ;;
          return_ (-E ENOMEM)
      | Some adapter =>
          devres_add pdev (DrI2cAdapter adapter) ;;
          ret lms
      end
  end.

(** Lines 196-204. *)
Definition probe_count_uarts : M unit :=
  emit (EvQuery "in-uarts") ;;
  let ret_ := of_count_phandle_with_args (k_in_uarts K) in
  if ret_ <? 0 then return_ ret_
  else if negb (ret_ =? Z.of_nat INPUTS) then return_ (-E EINVAL)
  else ret tt.

(** Lines 205-284, one iteration.

    Line 255 does not test the result of devres_alloc; line 259 calls
    of_clk_get_by_name and then stores through [clk], which is a NULL
    store when the allocation failed.  Lines 263-266 free the payload
    and then read [clk->clk] from it for the return value. *)
Definition probe_uart (i : nat) (lms : lms2012_compat)
  : M lms2012_compat :=
  emit (EvQuery "in-uarts") ;;
  match of_parse_phandle_with_args (k_in_uarts K) i with
  | KErr e => return_ (-E e)
  | KOk np =>
      emit (EvAcquire (RNode np)) ;;
      emit (EvQuery "reg") ;;
      match k_address_to_resource K np with
      | KErr e => of_node_put np ;; return_ (-E e)
      | KOk res =>
          m <- devm_ioremap_resource pdev res ;;
          let lms := set_uart_mem (<[i := m]> (uart_mem lms)) lms in
          match m with
          | ErrPtr e => of_node_put np ;; return_ (-E e)
          | _ =>
              emit (EvQuery "interrupts") ;;
              let irq := k_irq_get K np in
              let lms := set_uart_irq (<[i := irq]> (uart_irq lms)) lms in
              if irq <? 0 then of_node_put np ;; return_ irq
              else
                emit (EvQuery "clock-frequency") ;;
                match of_property_read_u32 (k_clock_frequency K np) with
                | KErr e => of_node_put np ;; return_ (-E e)
                | KOk freq =>
                    let lms :=
                      set_uart_clock_freq
                        (<[i := freq]> (uart_clock_freq lms)) lms in
                    clk_ <- devres_alloc MClkRes (k_devres_alloc_clk K i)
                              {| clk := Null |} ;;
                    c <- of_clk_get_by_name np "fck" ;;
                    match clk_ with
                    | None => fault_ NullDeref
                    | Some _ =>
                        let clk_ := {| clk := c |} in
                        match c with
                        | ErrPtr _ =>
                            devres_free MClkRes ;;
                            of_node_put np ;;
                            fault_ UseAfterFree
                        | _ =>
                            r <- clk_prepare_enable np ;;
                            match r with
                            | KErr e =>
                                emits (clk_put (clk clk_)) ;;
                                devres_free MClkRes ;;
                                of_node_put np ;;
                                return_ (-E e)
                            | KOk _ =>
                                devres_add pdev (DrClk clk_) ;;
                                of_node_put np ;;
                                ret lms
                            end
                        end
                    end
                end
          end
      end
  end.

(** Lines 286-299, one iteration. *)
Definition probe_out_pins (i : nat) (lms : lms2012_compat)
  : M lms2012_compat :=
  let name := snprintf10 ("out" ++ fmt_c (i + char_A))%string in
  r <- devm_gpiod_get_array pdev name ;;
  match r with
  | KErr e => return_ (-E e)
  | KOk descs =>
      let lms := set_out_pins (<[i := Ptr descs]> (out_pins lms)) lms in
      if negb (ndescs descs =? OUTPUT_PORT_PINS)%nat
      then return_ (-E EINVAL)
      else ret lms
  end.

(** Lines 301-310, one iteration. *)
Definition probe_out_pwm (i : nat) (lms : lms2012_compat)
  : M lms2012_compat :=
  let name := snprintf10 ("out" ++ fmt_c (i + char_A))%string in
  p <- devm_pwm_get pdev name ;;
  let lms := set_out_pwms (<[i := p]> (out_pwms lms)) lms in
  match p with
  | ErrPtr e => return_ (-E e)
  | _ => ret lms
  end.

(** Lines 74-310: everything up to, and excluding, publication. *)
Definition lms2012_compat_acquire : M lms2012_compat :=
  g <- gets global_dev ;;
  match g with
  | Some _ => return_ (-E EBUSY)
  | None =>
      lms <- devm_kzalloc pdev ;;
      match lms with
      | None => return_ (-E ENOMEM)
      | Some lms =>
          probe_count_in_ports ;;
          lms <- for_upto INPUTS probe_in_port lms ;;
          lms <- probe_adc_channels lms ;;
          lms <- probe_spi_pins lms ;;
          lms <- for_upto INPUTS probe_in_pins lms ;;
          i2c_adapters <- probe_read_i2cs ;;
          lms <- for_upto INPUTS (probe_i2c_adapter i2c_adapters) lms ;;
          probe_count_uarts ;;
          lms <- for_upto INPUTS probe_uart lms ;;
          lms <- for_upto OUTPUTS probe_out_pins lms ;;
          lms <- for_upto OUTPUTS probe_out_pwm lms ;;
          ret lms
      end
  end.

(** *** Publication, lines 312-322 *)

(** What platform_device_register_simple answers for each name. *)
Variable register_simple : string -> kptr string.

Definition platform_device_register_simple (name : string)
  : M (kptr string) :=
  emit (EvRegister name) ;; ret (register_simple name).

Definition platform_set_drvdata (lms : lms2012_compat) : M unit :=
  modify (fun s => set_drvdata (<[pdev := Some lms]> (drvdata s)) s).

(** An assignment through [lms] once the bundle hangs off the device. *)
Definition lms_assign (f : lms2012_compat -> lms2012_compat) : M unit :=
  modify (fun s =>
    set_drvdata (<[pdev := f <$> drvdata s pdev]> (drvdata s)) s).

Definition store_global_dev (d : option device) : M unit :=
  modify (set_global_dev d) ;; emit (EvSetGlobal d).

Definition lms2012_compat_publish (lms : lms2012_compat) : M Z :=
  platform_set_drvdata lms ;;
  store_global_dev (Some pdev) ;;
  d <- platform_device_register_simple "d_analog" ;;
  lms_assign (set_d_analog d) ;;
  d <- platform_device_register_simple "d_iic" ;;
  lms_assign (set_d_iic d) ;;
  d <- platform_device_register_simple "d_uart" ;;
  lms_assign (set_d_uart d) ;;
  d <- platform_device_register_simple "d_pwm" ;;
  lms_assign (set_d_pwm d) ;;
  ret 0.

Definition lms2012_compat_probe (s : kstate) : exit * kstate * list event :=
  call (lms <- lms2012_compat_acquire ;; lms2012_compat_publish lms) s.

(** *** lms2012_compat_remove, lines 325-338 *)

Definition platform_device_unregister (p : kptr string) : M unit :=
  emit (EvUnregister p).

Definition lms2012_compat_remove (s : kstate) : exit * kstate * list event :=
  call (lms <- gets (fun s => drvdata s pdev) ;;
        match lms with
        | None => fault_ NullDeref
        | Some lms =>
            platform_device_unregister (d_pwm lms) ;;
            platform_device_unregister (d_uart lms) ;;
            platform_device_unregister (d_iic lms) ;;
            platform_device_unregister (d_analog lms) ;;
            store_global_dev None ;;
            ret 0
        end) s.

End Driver.

(** ** lms2012_compat_get, lines 36-39 *)

(** get_device: NULL for NULL, otherwise the device with its use-count
    raised by one. *)
Definition get_device (dev : option device) : M (option device) :=
  match dev with
  | None => ret None
  | Some d =>
      modify (fun s => set_kref (<[d := S (kref s d)]> (kref s)) s) ;;
      ret (Some d)
  end.

Definition lms2012_compat_get : M (option device) :=
  g <- gets global_dev ;; get_device g.

(** ** The driver core around the entry points (drivers/base/dd.c)

    A probe that returns non-zero leaves the device unbound: the core runs
    devres_release_all on it, newest node first, and clears its drvdata.
    Unbinding a bound device calls remove and then does the same. *)

Definition devres_release_all (dev : device) : M unit :=
  nodes <- gets (fun s => devres s dev) ;;
  modify (fun s => set_devres (<[dev := []]> (devres s)) s) ;;
  emits (concat (map devres_release nodes)).

Definition dev_set_drvdata_null (dev : device) : M unit :=
  modify (fun s => set_drvdata (<[dev := None]> (drvdata s)) s).

Definition unwind (dev : device) (r : exit * kstate * list event)
  : exit * kstate * list event :=
  let '(x, s1, t1) := r in
  let '(_, s2, t2) :=
    (devres_release_all dev ;; dev_set_drvdata_null dev) s1 in
  (x, s2, t1 ++ t2).

Definition really_probe `{lms2012_h} (K : kernel) (pdev : device)
  (register_simple : string -> kptr string) (s : kstate)
  : exit * kstate * list event :=
  let r := lms2012_compat_probe K pdev register_simple s in
  match r with
  | (Return code, _, _) => if code =? 0 then r else unwind pdev r
  | (Fault _, _, _) => r
  end.

Definition device_release_driver (pdev : device) (s : kstate)
  : exit * kstate * list event :=
  let r := lms2012_compat_remove pdev s in
  match r with
  | (Return _, _, _) => unwind pdev r
  | (Fault _, _, _) => r
  end.

(** ** Claim/release accounting on a trace *)

Definition count_ev (e : event) (t : list event) : nat :=
  length (filter (fun x => x = e) t).

Definition claimed (r : resource) (t : list event) : nat :=
  count_ev (EvAcquire r) t.

Definition released (r : resource) (t : list event) : nat :=
  count_ev (EvRelease r) t.

Definition acquired (t : list event) : list resource :=
  omap (fun e => match e with EvAcquire r => Some r | _ => None end) t.

(** Resources claimed more often than released. *)
Definition outstanding (t : list event) : list resource :=
  remove_dups
    (filter (fun r => (released r t < claimed r t)%nat) (acquired t)).

(** ** A concrete board *)

(** Modelled from the spec: lms2012.h is not among the sources.  The
    concrete scenario of the specification has four input ports, four
    output ports, an ADC channel map of four entries and an SPI group of
    three lines; the arity of a port's line group is not stated there and
    is taken to be five. *)
#[global] Instance scenario_h : lms2012_h :=
  {| INPUTS := 4; OUTPUTS := 4; INPUTADC := 4; ADC_SPI_PINS := 3;
     INPUT_PORT_PINS := 5; OUTPUT_PORT_PINS := 5 |}.

Definition is_prefix (p s : string) : bool := String.prefix p s.

(** The board of the scenario, with the answers that the examples vary
    left as arguments: input port nodes 10..13 backed by devices 20..23,
    UART nodes 30..33, every other provider ready. *)
Definition board_with
  (adc i2cs : of_property) (i2c_ready : Z -> bool)
  (alloc_clk : nat -> bool) (group_size : string -> nat)
  (pwm : string -> kptr nat) (uarts : phandle_list) : kernel :=
  {| k_kzalloc_lms := true;
     k_in_in_ports := PhEntries [KOk 10; KOk 11; KOk 12; KOk 13]%nat;
     k_find_device_by_node := fun np => Some (np + 10)%nat;
     k_pinctrl_get_select_default := fun d => Ptr d;
     k_pinctrl_lookup_state := fun p _ => p;
     k_adc_channels := adc;
     k_gpiod_get_array := fun con_id => KOk {| ndescs := group_size con_id |};
     k_gpiod_get_optional := fun _ => Null;
     k_in_i2cs := i2cs;
     k_i2c_get_adapter := i2c_ready;
     k_devres_alloc_i2c := fun _ => true;
     k_in_uarts := uarts;
     k_address_to_resource := fun np => KOk np;
     k_ioremap_resource := fun res => Ptr res;
     k_irq_get := fun np => Z.of_nat np;
     k_clock_frequency := fun _ => PropCells [132000000];
     k_devres_alloc_clk := alloc_clk;
     k_clk_get_by_name := fun _ _ => KOk tt;
     k_clk_prepare_enable := fun _ => KOk tt;
     k_pwm_get := pwm |}.

Definition group_size_ok (con_id : string) : nat :=
  if is_prefix "spi" con_id then 3%nat else 5%nat.

Definition board : kernel :=
  board_with (PropCells [0; 1; 2; 3]) (PropCells [1; 2; 3; 4])
    (fun _ => true) (fun _ => true) group_size_ok (fun _ => Ptr 0%nat)
    (PhEntries [KOk 30; KOk 31; KOk 32; KOk 33]%nat).

(** The device being probed, and a fresh kernel state. *)
Definition the_pdev : device := 1%nat.

Definition boot : kstate :=
  {| global_dev := None; kref := fun _ => 1%nat; drvdata := fun _ => None;
     devres := fun _ => [] |}.

Definition register_ok (name : string) : kptr string := Ptr name.


(** Variations of the board, one defect each. *)

Definition uarts_ok : phandle_list :=
  PhEntries [KOk 30; KOk 31; KOk 32; KOk 33]%nat.

(** "in-i2cs" lists five adapters. *)
Definition board_five_i2cs : kernel :=
  board_with (PropCells [0; 1; 2; 3]) (PropCells [1; 2; 3; 4; 5])
    (fun _ => true) (fun _ => true) group_size_ok (fun _ => Ptr 0%nat)
    uarts_ok.

(** "in-uarts" lists three UARTs. *)
Definition board_three_uarts : kernel :=
  board_with (PropCells [0; 1; 2; 3]) (PropCells [1; 2; 3; 4])
    (fun _ => true) (fun _ => true) group_size_ok (fun _ => Ptr 0%nat)
    (PhEntries [KOk 30; KOk 31; KOk 32]%nat).

(** I2C adapter 1 is registered, adapters 2, 3 and 4 are not yet. *)
Definition board_adapter2_missing : kernel :=
  board_with (PropCells [0; 1; 2; 3]) (PropCells [1; 2; 3; 4])
    (fun nr => nr <? 2) (fun _ => true) group_size_ok (fun _ => Ptr 0%nat)
    uarts_ok.

(** No PWM chip has been registered yet. *)
Definition board_pwm_deferred : kernel :=
  board_with (PropCells [0; 1; 2; 3]) (PropCells [1; 2; 3; 4])
    (fun _ => true) (fun _ => true) group_size_ok
    (fun _ => ErrPtr EPROBE_DEFER) uarts_ok.

(** The "outA" group has four lines instead of five. *)
Definition board_outA_four_lines : kernel :=
  board_with (PropCells [0; 1; 2; 3]) (PropCells [1; 2; 3; 4])
    (fun _ => true) (fun _ => true)
    (fun con_id => if String.eqb con_id "outA" then 4%nat
                   else group_size_ok con_id)
    (fun _ => Ptr 0%nat) uarts_ok.

(** The "spi" group has five lines instead of three. *)
Definition board_spi_five_lines : kernel :=
  board_with (PropCells [0; 1; 2; 3]) (PropCells [1; 2; 3; 4])
    (fun _ => true) (fun _ => true) (fun _ => 5%nat)
    (fun _ => Ptr 0%nat) uarts_ok.

(** devres_alloc fails for the first UART's clock payload. *)
Definition board_clk_alloc_fails : kernel :=
  board_with (PropCells [0; 1; 2; 3]) (PropCells [1; 2; 3; 4])
    (fun _ => true) (fun i => negb (i =? 0)%nat) group_size_ok
    (fun _ => Ptr 0%nat) uarts_ok.

(** "adc-channels" holds five cells, one more than INPUTADC. *)
Definition board_five_adc_channels : kernel :=
  board_with (PropCells [0; 1; 2; 3; 4]) (PropCells [1; 2; 3; 4])
    (fun _ => true) (fun _ => true) group_size_ok (fun _ => Ptr 0%nat)
    uarts_ok.

(** "adc-channels" holds three cells, one fewer than INPUTADC. *)
Definition board_three_adc_channels : kernel :=
  board_with (PropCells [0; 1; 2]) (PropCells [1; 2; 3; 4])
    (fun _ => true) (fun _ => true) group_size_ok (fun _ => Ptr 0%nat)
    uarts_ok.

(** A platform bus on which every registration fails. *)
Definition register_fails (name : string) : kptr string := ErrPtr ENOMEM.

(** A state in which device 7 is the active instance. *)
Definition bound_to_7 : kstate := set_global_dev (Some 7%nat) boot.

(** * Reasoning about driver code *)

(** ** The probe step an event belongs to

    [probe_step e] is the first step of the probe sequence at which [e]
    can be emitted: 0 the bundle allocation and the device-tree queries,
    1 the input ports' pin control, 2 the SPI and input-port GPIO groups,
    3 the I2C adapters, 4 the UARTs, 5 the output ports' GPIO groups,
    6 the PWM channels, 7 publication, 8 teardown. *)
Definition probe_step (e : event) : nat :=
  match e with
  | EvQuery _ => 0
  | EvAcquire r | EvRelease r =>
      match r with
      | RMem MBundle => 0
      | RNode _ => match e with EvRelease _ => 4 | _ => 1 end
      | RPortDev _ => 1
      | RPinctrl _ => 1
      | RGpiod con_id => if is_prefix "out" con_id then 5 else 2
      | RI2c _ => 3
      | RMem MI2cRes => 3
      | RIomem _ => 4
      | RMem MClkRes => 4
      | RClk _ => 4
      | RClkEnable _ => 4
      | RPwm _ => 6
      end
  | EvSetGlobal _ => 7
  | EvRegister _ => 7
  | EvUnregister _ => 8
  end%nat.

Definition upto (k : nat) (e : event) : Prop := (probe_step e <= k)%nat.

(** ** A specification of monadic code

    [spec E Q m]: whatever the state, every event [m] emits satisfies [E],
    a normal result satisfies [Q], and a [return] that leaves the function
    early carries a negative code.  With [Q] unsatisfiable, [m] never
    falls through. *)
Definition spec {A} (E : event -> Prop) (Q : A -> Prop) (m : M A) : Prop :=
  forall s,
    Forall E (m s).2 /\
    match (m s).1.1 with
    | inl a => Q a
    | inr (Return code) => code < 0
    | inr (Fault _) => True
    end.

Definition any {A} : A -> Prop := fun _ => True.

(** ** Vocabulary of the statements *)

(** A step that leaves the channel map as it found it. *)
Definition keeps_adc (lms : lms2012_compat) : lms2012_compat -> Prop :=
  fun lms' => adc_map lms' = adc_map lms.

(** A step that cannot fall through. *)
Definition blocked {A} : A -> Prop := fun _ => False.

(** What publication and removal emit. *)
Definition publish_events (pdev : device) : list event :=
  [EvSetGlobal (Some pdev); EvRegister "d_analog"; EvRegister "d_iic";
   EvRegister "d_uart"; EvRegister "d_pwm"].

(** The bundle once the four tokens are stored in it. *)
Definition published (register_simple : string -> kptr string)
  (lms : lms2012_compat) : lms2012_compat :=
  set_d_pwm (register_simple "d_pwm")
    (set_d_uart (register_simple "d_uart")
       (set_d_iic (register_simple "d_iic")
          (set_d_analog (register_simple "d_analog") lms))).

Definition unpublish_events (lms : lms2012_compat) : list event :=
  [EvUnregister (d_pwm lms); EvUnregister (d_uart lms);
   EvUnregister (d_iic lms); EvUnregister (d_analog lms); EvSetGlobal None].

(** ** The three count checks *)

Inductive count_check := InPortCount | I2cCount | UartCount.

(** What the hardware description declares for each counted list. *)
Definition declared_count (K : kernel) (c : count_check) : Z :=
  match c with
  | InPortCount => of_count_phandle_with_args (k_in_in_ports K)
  | I2cCount => of_property_count_u32_elems (k_in_i2cs K)
  | UartCount => of_count_phandle_with_args (k_in_uarts K)
  end.

(** The last probe step whose resources can have been claimed when the
    check runs. *)
Definition check_step (c : count_check) : nat :=
  match c with
  | InPortCount => 0
  | I2cCount => 2
  | UartCount => 3
  end%nat.

(** The code a count check leaves with. *)
Definition count_error (d : Z) : Z := if d <? 0 then d else -E EINVAL.

(** The check itself, wherever it is reached: one query, no state change,
    and an early return with [count_error]. *)
Definition check_rejects `{lms2012_h} (K : kernel) (c : count_check) : Prop :=
  let d := declared_count K c in
  match c with
  | InPortCount =>
      forall s, probe_count_in_ports K s
                = (inr (Return (count_error d)), s, [EvQuery "in-in-ports"])
  | I2cCount =>
      forall s, probe_read_i2cs K s
                = (inr (Return (count_error d)), s, [EvQuery "in-i2cs"])
  | UartCount =>
      forall s, probe_count_uarts K s
                = (inr (Return (count_error d)), s, [EvQuery "in-uarts"])
  end.

(** Claims other than the bundle's own memory. *)
Definition provider_claims (t : list event) : list resource :=
  filter (fun r => r <> RMem MBundle) (acquired t).

(** The property is missing, empty, or shorter than INPUTADC. *)
Definition adc_channels_short `{lms2012_h} (K : kernel) : Prop :=
  match k_adc_channels K with
  | PropCells cells => (length cells < INPUTADC)%nat
  | _ => True
  end.

(** A devres payload of the I2C kind whose [adapter] field is still the
    NULL that devres_alloc put there. *)
Definition payload_unset (n : devres_node) : Prop :=
  match n with
  | DrI2cAdapter res => adapter res = None
  | _ => True
  end.

Definition i2c_payloads_unset (s : kstate) : Prop :=
  forall dev, Forall payload_unset (devres s dev).

(** [preserves Inv m]: running [m] keeps the state invariant [Inv]. *)
Definition preserves {A} (Inv : kstate -> Prop) (m : M A) : Prop :=
  forall s, Inv s -> Inv (m s).1.2.

(** Resources whose release the probe queues on the devres list of the
    device it is probing. *)
Definition managed (r : resource) : bool :=
  match r with
  | RMem _ | RGpiod _ | RIomem _ | RClk _ | RClkEnable _ | RPwm _ => true
  | RNode _ | RPortDev _ | RPinctrl _ | RI2c _ => false
  end.

(** Claims minus releases of [r] in a trace. *)
Definition net (r : resource) (t : list event) : Z :=
  Z.of_nat (claimed r t) - Z.of_nat (released r t).

(** Releases of [r] that a devres list will perform when it is unwound. *)
Definition owed (r : resource) (nodes : list devres_node) : Z :=
  Z.of_nat (released r (concat (map devres_release nodes))).

(** An event that neither claims nor releases a managed resource. *)
Definition unmanaged_event (e : event) : bool :=
  match e with
  | EvAcquire r | EvRelease r => negb (managed r)
  | _ => true
  end.

(** [balanced pdev m]: unless it ends in undefined behaviour, [m] only
    pushes nodes on [pdev]'s devres list, and every managed resource it
    has claimed and not released itself is owed by the nodes it pushed. *)
Definition balanced {A} (pdev : device) (m : M A) : Prop :=
  forall s,
    match m s with
    | (inr (Fault _), _, _) => True
    | (_, s', t) =>
        exists new,
          devres s' pdev = new ++ devres s pdev
          /\ forall r, managed r = true -> net r t = owed r new
    end.

(** A put of an I2C adapter. *)
Definition is_i2c_put (e : event) : bool :=
  match e with
  | EvRelease (RI2c _) => true
  | _ => false
  end.

(** [puts_only_on_enomem m]: if [m] puts an I2C adapter at all, it leaves
    with [-ENOMEM] (line 189 is the only put in the driver's own code). *)
Definition puts_only_on_enomem {A} (m : M A) : Prop :=
  forall s,
    existsb is_i2c_put (m s).2 = true ->
    (m s).1.1 = inr (Return (-E ENOMEM)).

(** ** Vocabulary of the further properties *)

(** What an attempt must leave alone unless it publishes: the global
    pointer, every use-count, every device's drvdata. *)
Definition same_instance (s0 s : kstate) : Prop :=
  global_dev s = global_dev s0
  /\ kref s = kref s0
  /\ drvdata s = drvdata s0.

(** The names the probe formats (lines 141, 149, 287, 302). *)
Definition in_pin2_name (i : nat) : string :=
  snprintf10 ("in" ++ fmt_d (i + 1) ++ "-pin2")%string.
Definition in_name (i : nat) : string :=
  snprintf10 ("in" ++ fmt_d (i + 1))%string.
Definition out_name (i : nat) : string :=
  snprintf10 ("out" ++ fmt_c (i + char_A))%string.

(** What the probe asks of the board, step by step. *)
Definition in_port_ok (K : kernel) (i : nat) : Prop :=
  exists np d,
    of_parse_phandle_with_args (k_in_in_ports K) i = KOk np
    /\ k_find_device_by_node K np = Some d
    /\ IS_ERR (k_pinctrl_get_select_default K d) = false.

Definition adc_ok `{lms2012_h} (K : kernel) : Prop :=
  exists cells,
    k_adc_channels K = PropCells cells /\ (INPUTADC <= length cells)%nat.

Definition spi_ok `{lms2012_h} (K : kernel) : Prop :=
  exists descs,
    k_gpiod_get_array K "spi" = KOk descs /\ ndescs descs = ADC_SPI_PINS.

Definition in_pins_ok `{lms2012_h} (K : kernel) (i : nat) : Prop :=
  IS_ERR (k_gpiod_get_optional K (in_pin2_name i)) = false
  /\ exists descs,
       k_gpiod_get_array K (in_name i) = KOk descs
       /\ ndescs descs = INPUT_PORT_PINS.

Definition i2c_ok (K : kernel) (i2c_adapters : list Z) (i : nat) : Prop :=
  k_i2c_get_adapter K (u32_to_int (default 0 (i2c_adapters !! i))) = true
  /\ k_devres_alloc_i2c K i = true.

Definition i2cs_ok `{lms2012_h} (K : kernel) : Prop :=
  exists cells,
    k_in_i2cs K = PropCells cells
    /\ length cells = INPUTS
    /\ forall i, (i < INPUTS)%nat -> i2c_ok K cells i.

Definition uart_ok (K : kernel) (i : nat) : Prop :=
  exists np res freq,
    of_parse_phandle_with_args (k_in_uarts K) i = KOk np
    /\ k_address_to_resource K np = KOk res
    /\ IS_ERR (k_ioremap_resource K res) = false
    /\ 0 <= k_irq_get K np
    /\ of_property_read_u32 (k_clock_frequency K np) = KOk freq
    /\ k_devres_alloc_clk K i = true
    /\ k_clk_get_by_name K np "fck" = KOk tt
    /\ k_clk_prepare_enable K np = KOk tt.

Definition out_pins_ok `{lms2012_h} (K : kernel) (i : nat) : Prop :=
  exists descs,
    k_gpiod_get_array K (out_name i) = KOk descs
    /\ ndescs descs = OUTPUT_PORT_PINS.

Definition out_pwm_ok (K : kernel) (i : nat) : Prop :=
  IS_ERR (k_pwm_get K (out_name i)) = false.

(** A hardware description, and providers, on which every step of the
    probe goes through. *)
Record board_ok `{lms2012_h} (K : kernel) : Prop := {
  ok_kzalloc : k_kzalloc_lms K = true;
  ok_in_port_count :
    of_count_phandle_with_args (k_in_in_ports K) = Z.of_nat INPUTS;
  ok_in_ports : forall i, (i < INPUTS)%nat -> in_port_ok K i;
  ok_adc : adc_ok K;
  ok_spi : spi_ok K;
  ok_in_pins : forall i, (i < INPUTS)%nat -> in_pins_ok K i;
  ok_i2cs : i2cs_ok K;
  ok_uart_count :
    of_count_phandle_with_args (k_in_uarts K) = Z.of_nat INPUTS;
  ok_uarts : forall i, (i < INPUTS)%nat -> uart_ok K i;
  ok_out_pins : forall i, (i < OUTPUTS)%nat -> out_pins_ok K i;
  ok_out_pwms : forall i, (i < OUTPUTS)%nat -> out_pwm_ok K i;
}.

(** [falls Q m]: [m] runs to its end, with a result satisfying [Q]. *)
Definition falls {A} (Q : A -> Prop) (m : M A) : Prop :=
  forall s, exists a s' t, m s = (inl a, s', t) /\ Q a.

(** [ensures Q m]: if [m] runs to its end, its result satisfies [Q]. *)
Definition ensures {A} (Q : A -> Prop) (m : M A) : Prop :=
  forall s,
    match (m s).1.1 with
    | inl a => Q a
    | inr _ => True
    end.

(** What a complete bundle holds, slot by slot: what the board has
    answered for that very port. *)
Definition in_port_filled (K : kernel) (lms : lms2012_compat) (i : nat)
  : Prop :=
  exists np d,
    of_parse_phandle_with_args (k_in_in_ports K) i = KOk np
    /\ k_find_device_by_node K np = Some d
    /\ pinctrl lms !! i = Some (k_pinctrl_get_select_default K d)
    /\ IS_ERR (k_pinctrl_get_select_default K d) = false
    /\ pinctrl_default lms !! i
       = Some (k_pinctrl_lookup_state K
                 (k_pinctrl_get_select_default K d) "default")
    /\ pinctrl_i2c lms !! i
       = Some (k_pinctrl_lookup_state K
                 (k_pinctrl_get_select_default K d) "i2c").

Definition spi_filled `{lms2012_h} (K : kernel) (lms : lms2012_compat)
  : Prop :=
  exists d,
    k_gpiod_get_array K "spi" = KOk d
    /\ spi_pins lms = Ptr d
    /\ ndescs d = ADC_SPI_PINS.

Definition in_pins_filled `{lms2012_h} (K : kernel) (lms : lms2012_compat)
  (i : nat) : Prop :=
  in_pin2 lms !! i = Some (k_gpiod_get_optional K (in_pin2_name i))
  /\ IS_ERR (k_gpiod_get_optional K (in_pin2_name i)) = false
  /\ exists d,
       k_gpiod_get_array K (in_name i) = KOk d
       /\ in_pins lms !! i = Some (Ptr d)
       /\ ndescs d = INPUT_PORT_PINS.

Definition i2c_filled (K : kernel) (lms : lms2012_compat) (i : nat) : Prop :=
  exists cells,
    k_in_i2cs K = PropCells cells
    /\ i2c_adapter lms !! i
       = Some (Some (u32_to_int (default 0 (cells !! i)))).

Definition uart_filled (K : kernel) (lms : lms2012_compat) (i : nat) : Prop :=
  exists np res freq,
    of_parse_phandle_with_args (k_in_uarts K) i = KOk np
    /\ k_address_to_resource K np = KOk res
    /\ uart_mem lms !! i = Some (k_ioremap_resource K res)
    /\ IS_ERR (k_ioremap_resource K res) = false
    /\ uart_irq lms !! i = Some (k_irq_get K np)
    /\ 0 <= k_irq_get K np
    /\ of_property_read_u32 (k_clock_frequency K np) = KOk freq
    /\ uart_clock_freq lms !! i = Some freq.

Definition out_pins_filled `{lms2012_h} (K : kernel) (lms : lms2012_compat)
  (i : nat) : Prop :=
  exists d,
    k_gpiod_get_array K (out_name i) = KOk d
    /\ out_pins lms !! i = Some (Ptr d)
    /\ ndescs d = OUTPUT_PORT_PINS.

Definition out_pwm_filled (K : kernel) (lms : lms2012_compat) (i : nat)
  : Prop :=
  out_pwms lms !! i = Some (k_pwm_get K (out_name i))
  /\ IS_ERR (k_pwm_get K (out_name i)) = false.

(** The arrays have the sizes lms2012.h gives them. *)
Definition sized `{lms2012_h} (lms : lms2012_compat) : Prop :=
  length (pinctrl lms) = INPUTS
  /\ length (pinctrl_default lms) = INPUTS
  /\ length (pinctrl_i2c lms) = INPUTS
  /\ length (in_pin2 lms) = INPUTS
  /\ length (in_pins lms) = INPUTS
  /\ length (i2c_adapter lms) = INPUTS
  /\ length (uart_mem lms) = INPUTS
  /\ length (uart_irq lms) = INPUTS
  /\ length (uart_clock_freq lms) = INPUTS
  /\ length (out_pins lms) = OUTPUTS
  /\ length (out_pwms lms) = OUTPUTS.

(** How far the bundle has been filled: the first [a] input ports' pin
    control, the SPI group if [spi], the first [b] input GPIO groups, [c]
    I2C adapters, [d] UARTs, [e] output GPIO groups, [f] PWM channels. *)
Definition filled_to `{lms2012_h} (K : kernel) (a : nat) (spi : bool)
  (b c d e f : nat) (lms : lms2012_compat) : Prop :=
  sized lms
  /\ (forall i, (i < a)%nat -> in_port_filled K lms i)
  /\ (spi = true -> spi_filled K lms)
  /\ (forall i, (i < b)%nat -> in_pins_filled K lms i)
  /\ (forall i, (i < c)%nat -> i2c_filled K lms i)
  /\ (forall i, (i < d)%nat -> uart_filled K lms i)
  /\ (forall i, (i < e)%nat -> out_pins_filled K lms i)
  /\ (forall i, (i < f)%nat -> out_pwm_filled K lms i).

(** The bundle a successful probe hangs off the device. *)
Definition complete `{lms2012_h} (K : kernel) (lms : lms2012_compat) : Prop :=
  filled_to K INPUTS true INPUTS INPUTS INPUTS OUTPUTS OUTPUTS lms.

(** [faults R m]: if [m] dies in an undefined access, that access
    satisfies [R]. *)
Definition faults {A} (R : fault -> Prop) (m : M A) : Prop :=
  forall s,
    match (m s).1.1 with
    | inr (Fault f) => R f
    | _ => True
    end.

(** The two undefined accesses of the UART clock code: line 259 stores
    through the payload pointer that devres_alloc returned as NULL; line
    266 reads the payload that line 263 has freed. *)
Definition clk_fault `{lms2012_h} (K : kernel) (f : fault) : Prop :=
  exists i np,
    (i < INPUTS)%nat
    /\ of_parse_phandle_with_args (k_in_uarts K) i = KOk np
    /\ match f with
       | NullDeref => k_devres_alloc_clk K i = false
       | UseAfterFree =>
           k_devres_alloc_clk K i = true
           /\ exists e, k_clk_get_by_name K np "fck" = KErr e
       end.

(** A board on which the clock of the first UART cannot be found. *)
Definition board_clk_missing : kernel :=
  {| k_kzalloc_lms := k_kzalloc_lms board;
     k_in_in_ports := k_in_in_ports board;
     k_find_device_by_node := k_find_device_by_node board;
     k_pinctrl_get_select_default := k_pinctrl_get_select_default board;
     k_pinctrl_lookup_state := k_pinctrl_lookup_state board;
     k_adc_channels := k_adc_channels board;
     k_gpiod_get_array := k_gpiod_get_array board;
     k_gpiod_get_optional := k_gpiod_get_optional board;
     k_in_i2cs := k_in_i2cs board;
     k_i2c_get_adapter := k_i2c_get_adapter board;
     k_devres_alloc_i2c := k_devres_alloc_i2c board;
     k_in_uarts := k_in_uarts board;
     k_address_to_resource := k_address_to_resource board;
     k_ioremap_resource := k_ioremap_resource board;
     k_irq_get := k_irq_get board;
     k_clock_frequency := k_clock_frequency board;
     k_devres_alloc_clk := k_devres_alloc_clk board;
     k_clk_get_by_name := fun np name =>
       if (np =? 30)%nat then KErr Errno.ENOENT
       else k_clk_get_by_name board np name;
     k_clk_prepare_enable := k_clk_prepare_enable board;
     k_pwm_get := k_pwm_get board |}.

(** The states the driver core brings about.  It starts with nothing
    bound; it probes a device only while that device is unbound, and
    releases it only while it is bound; the accessor may be called at any
    time. *)
Inductive reachable `{lms2012_h} : kstate -> Prop :=
| reach_init (s : kstate) :
    global_dev s = None -> (forall d, drvdata s d = None) -> reachable s
| reach_probe (K : kernel) (pdev : device)
    (register_simple : string -> kptr string) (s : kstate) :
    reachable s -> drvdata s pdev = None ->
    reachable (really_probe K pdev register_simple s).1.2
| reach_release (pdev : device) (s : kstate) :
    reachable s -> drvdata s pdev <> None ->
    reachable (device_release_driver pdev s).1.2
| reach_get (s : kstate) :
    reachable s -> reachable (lms2012_compat_get s).1.2.

(** [blind m]: how [m] ends and what it emits do not depend on the state
    it starts in. *)
Definition blind {A} (m : M A) : Prop :=
  forall s1 s2, (m s1).1.1 = (m s2).1.1 /\ (m s1).2 = (m s2).2.

(** The kinds of reference that no devres node of the probed device
    gives back. *)
Definition is_node (r : resource) : bool :=
  match r with RNode _ => true | _ => false end.
Definition is_pinctrl (r : resource) : bool :=
  match r with RPinctrl _ => true | _ => false end.
Definition is_i2c (r : resource) : bool :=
  match r with RI2c _ => true | _ => false end.

(** References of one kind that a trace has taken and not given back. *)
Fixpoint refs (kind : resource -> bool) (t : list event) : Z :=
  match t with
  | [] => 0
  | EvAcquire r :: t => refs kind t + (if kind r then 1 else 0)
  | EvRelease r :: t => refs kind t - (if kind r then 1 else 0)
  | _ :: t => refs kind t
  end.

(** [keeps kind n m]: when [m] runs to its end it has kept exactly [n]
    references of that kind, and when it returns early at most [n]. *)
Definition keeps {A} (kind : resource -> bool) (n : Z) (m : M A) : Prop :=
  forall s,
    let '(r, _, t) := m s in
    match r with
    | inl _ => refs kind t = n
    | inr (Return _) => 0 <= refs kind t <= n
    | inr (Fault _) => True
    end.

(** A devres node whose release gives back neither a pin-control handle
    nor an I2C adapter. *)
Definition quiet (n : devres_node) : Prop :=
  match n with
  | DrPinctrl _ => False
  | DrI2cAdapter res => adapter res = None
  | _ => True
  end.

Definition quiet_list (pdev : device) (s : kstate) : Prop :=
  Forall quiet (devres s pdev).

(** A pin-control handle given back. *)
Definition is_pinctrl_put (e : event) : bool :=
  match e with
  | EvRelease (RPinctrl _) => true
  | _ => false
  end.

(** [never p m]: [m] emits no event that [p] picks out. *)
Definition never {A} (p : event -> bool) (m : M A) : Prop :=
  forall s, existsb p (m s).2 = false.

(** ** The two halves of publication, and the tails of acquisition *)



(** Lines 196-310, 163-310 and 123-310: acquisition from the UART count
    on, from the I2C count on, and from the channel map on. *)
Definition lms2012_compat_acquire_from_uarts `{lms2012_h} (K : kernel)
  (pdev : device) (lms : lms2012_compat) : M lms2012_compat :=
  probe_count_uarts K ;;
  lms <- for_upto INPUTS (probe_uart K pdev) lms ;;
  lms <- for_upto OUTPUTS (probe_out_pins K pdev) lms ;;
  lms <- for_upto OUTPUTS (probe_out_pwm K pdev) lms ;;
  ret lms.

Definition lms2012_compat_acquire_from_i2cs `{lms2012_h} (K : kernel)
  (pdev : device) (lms : lms2012_compat) : M lms2012_compat :=
  i2c_adapters <- probe_read_i2cs K ;;
  lms <- for_upto INPUTS (probe_i2c_adapter K pdev i2c_adapters) lms ;;
  lms2012_compat_acquire_from_uarts K pdev lms.

Definition lms2012_compat_acquire_from_adc `{lms2012_h} (K : kernel)
  (pdev : device) (lms : lms2012_compat) : M lms2012_compat :=
  lms <- probe_adc_channels K lms ;;
  lms <- probe_spi_pins K pdev lms ;;
  lms <- for_upto INPUTS (probe_in_pins K pdev) lms ;;
  lms2012_compat_acquire_from_i2cs K pdev lms.

(** ** Where each check sits in the sequence *)

(** What has gone through when the channel map is read (lines 77-121),
    when the I2C count is looked at (lines 77-161), and when the UART
    count is (lines 77-194). *)
Definition reaches_adc_read `{lms2012_h} (K : kernel) : Prop :=
  k_kzalloc_lms K = true
  /\ of_count_phandle_with_args (k_in_in_ports K) = Z.of_nat INPUTS
  /\ forall i, (i < INPUTS)%nat -> in_port_ok K i.

Definition reaches_i2c_check `{lms2012_h} (K : kernel) : Prop :=
  reaches_adc_read K
  /\ adc_ok K
  /\ spi_ok K
  /\ forall i, (i < INPUTS)%nat -> in_pins_ok K i.

Definition reaches_uart_check `{lms2012_h} (K : kernel) : Prop :=
  reaches_i2c_check K /\ i2cs_ok K.

Definition reaches_check `{lms2012_h} (K : kernel) (c : count_check) : Prop :=
  match c with
  | InPortCount => k_kzalloc_lms K = true
  | I2cCount => reaches_i2c_check K
  | UartCount => reaches_uart_check K
  end.

(** The events of lines 77-171, up to and including the I2C count: the
    bundle, the input ports' nodes, devices and pin control, the channel
    map, the SPI and input-port GPIO groups, and the queries behind
    them.  No node is put, and nothing of the I2C adapters, the UARTs,
    the output ports or the PWM channels appears. *)
Definition before_i2c_adapters (e : event) : bool :=
  match e with
  | EvQuery q =>
      String.eqb q "in-in-ports" || String.eqb q "adc-channels"
      || String.eqb q "in-i2cs"
  | EvAcquire (RMem MBundle) => true
  | EvAcquire (RNode _) => true
  | EvAcquire (RPortDev _) => true
  | EvAcquire (RPinctrl _) => true
  | EvAcquire (RGpiod con_id) => negb (is_prefix "out" con_id)
  | EvRelease (RPortDev _) => true
  | _ => false
  end.

(** The events of lines 77-204, up to and including the UART count: the
    above, the I2C adapters with their payloads, and the count query
    itself.  Nothing of a UART's register window or clock, of the output
    ports or of the PWM channels appears. *)
Definition before_uart_windows (e : event) : bool :=
  before_i2c_adapters e
  || match e with
     | EvQuery q => String.eqb q "in-uarts"
     | EvAcquire (RI2c _) => true
     | EvAcquire (RMem MI2cRes) => true
     | _ => false
     end.

(** What the board makes the probe claim for input port [i]: in the
    first loop its node and, unless the provider answers NULL, its
    pin-control handle; in the second loop its GPIO group and, if it is
    there, its optional line; in the third loop its I2C adapter. *)
Definition claimed_for_in_port (K : kernel) (i : nat) (e : event) : Prop :=
  exists np d,
    of_parse_phandle_with_args (k_in_in_ports K) i = KOk np
    /\ k_find_device_by_node K np = Some d
    /\ (e = EvAcquire (RNode np)
        \/ (exists h, k_pinctrl_get_select_default K d = Ptr h)
           /\ e = EvAcquire (RPinctrl d)).

Definition claimed_for_in_pins (K : kernel) (i : nat) (e : event) : Prop :=
  e = EvAcquire (RGpiod (in_name i))
  \/ (exists h, k_gpiod_get_optional K (in_pin2_name i) = Ptr h)
     /\ e = EvAcquire (RGpiod (in_pin2_name i)).

Definition claimed_for_i2c (K : kernel) (i : nat) (e : event) : Prop :=
  exists cells,
    k_in_i2cs K = PropCells cells
    /\ e = EvAcquire (RI2c (u32_to_int (default 0 (cells !! i)))).

(** What the probe has done when a count check turns it away. *)
Definition claims_at_check `{lms2012_h} (K : kernel) (c : count_check)
  (t : list event) : Prop :=
  match c with
  | InPortCount => t = [EvAcquire (RMem MBundle); EvQuery "in-in-ports"]
  | I2cCount =>
      (exists t0, t = t0 ++ [EvQuery "in-i2cs"])
      /\ forallb before_i2c_adapters t = true
      /\ refs is_node t = Z.of_nat INPUTS
      /\ In (EvAcquire (RGpiod "spi")) t
      /\ forall i e, (i < INPUTS)%nat ->
           claimed_for_in_port K i e \/ claimed_for_in_pins K i e ->
           In e t
  | UartCount =>
      (exists t0, t = t0 ++ [EvQuery "in-uarts"])
      /\ forallb before_uart_windows t = true
      /\ refs is_node t = Z.of_nat INPUTS
      /\ In (EvAcquire (RGpiod "spi")) t
      /\ forall i e, (i < INPUTS)%nat ->
           claimed_for_in_port K i e \/ claimed_for_in_pins K i e
           \/ claimed_for_i2c K i e ->
           In e t
  end.

(** The code the channel-map read leaves with (lines 123-128). *)
Definition adc_error (K : kernel) : Z :=
  match k_adc_channels K with
  | PropMissing => -E EINVAL
  | PropNoValue => -E ENODATA
  | PropCells _ => -E EOVERFLOW
  end.

(** [passes E n need Q m]: [m] runs to its end with a result satisfying
    [Q]; every event it emits is one that [E] allows, it keeps [n] node
    references, and every event of [need] has been emitted. *)
Definition passes {A} (E : event -> bool) (n : Z) (need : event -> Prop)
  (Q : A -> Prop) (m : M A) : Prop :=
  forall s,
    exists a s' t,
      m s = (inl a, s', t)
      /\ Q a
      /\ forallb E t = true
      /\ refs is_node t = n
      /\ forall e, need e -> In e t.

(** ** Rules *)

Section SpecRules.

Context {A B : Type} (E : event -> Prop).

Lemma spec_ret (Q : A -> Prop) (a : A) : Q a -> spec E Q (ret a).
Proof. intros Ha s; split; [constructor | exact Ha]. Qed.

Lemma spec_return (Q : A -> Prop) (code : Z) :
  code < 0 -> spec E Q (return_ code).
Proof. intros Hc s; split; [constructor | exact Hc]. Qed.

Lemma spec_fault (Q : A -> Prop) (f : fault) : spec E Q (fault_ f).
Proof. intros s; split; [constructor | exact I]. Qed.

Lemma spec_emit (e : event) : E e -> spec E any (emit e).
Proof. intros He s; split; [repeat constructor; exact He | exact I]. Qed.

Lemma spec_emits (t : list event) : Forall E t -> spec E any (emits t).
Proof. intros Ht s; split; [exact Ht | exact I]. Qed.

Lemma spec_gets (f : kstate -> A) : spec E any (gets f).
Proof. intros s; split; [constructor | exact I]. Qed.

Lemma spec_modify (f : kstate -> kstate) : spec E any (modify f).
Proof. intros s; split; [constructor | exact I]. Qed.

Lemma spec_bind (Q : A -> Prop) (R : B -> Prop) (m : M A) (f : A -> M B) :
  spec E Q m -> (forall a, Q a -> spec E R (f a)) -> spec E R (bind m f).
Proof.
  intros Hm Hf s. unfold bind.
  specialize (Hm s). destruct (m s) as [[[a | x] s1] t1]; simpl in *.
  - destruct Hm as [Ht Ha]. specialize (Hf a Ha s1).
    destruct (f a s1) as [[r2 s2] t2]; simpl in *.
    destruct Hf as [Ht2 Hr]. split; [apply Forall_app; split | ]; assumption.
  - exact Hm.
Qed.

Lemma spec_weaken (E' : event -> Prop) (Q Q' : A -> Prop) (m : M A) :
  (forall e, E' e -> E e) -> (forall a, Q' a -> Q a) ->
  spec E' Q' m -> spec E Q m.
Proof.
  intros HE HQ Hm s. specialize (Hm s).
  destruct (m s) as [[[a | [code | f]] s1] t1]; simpl in *;
    destruct Hm as [Ht Hr]; (split; [eapply Forall_impl; eauto | auto]).
Qed.

End SpecRules.

Lemma spec_for_each {A} (E : event -> Prop) (Inv : A -> Prop)
  (idx : list nat) (body : nat -> A -> M A) (a : A) :
  Inv a -> (forall i a', Inv a' -> spec E Inv (body i a')) ->
  spec E Inv (for_each idx body a).
Proof.
  intros Ha Hbody. revert a Ha.
  induction idx as [| i idx IH]; intros a Ha; simpl.
  - apply spec_ret; exact Ha.
  - eapply spec_bind; [apply Hbody; exact Ha | exact IH].
Qed.

(** ** Specifications of the kernel services *)

Section ServiceSpecs.

Context `{lms2012_h} (K : kernel) (E : event -> Prop).

Lemma devres_add_spec dev n : spec E any (devres_add dev n).
Proof. apply spec_modify. Qed.

Lemma devres_alloc_spec {A} m ok (zero : A) :
  E (EvAcquire (RMem m)) -> spec E any (devres_alloc m ok zero).
Proof.
  intros He. unfold devres_alloc. destruct ok.
  - eapply spec_bind; [apply spec_emit, He | intros; by apply spec_ret].
  - by apply spec_ret.
Qed.

Lemma devres_free_spec m : E (EvRelease (RMem m)) -> spec E any (devres_free m).
Proof. apply spec_emit. Qed.

Lemma of_node_put_spec np :
  E (EvRelease (RNode np)) -> spec E any (of_node_put np).
Proof. apply spec_emit. Qed.

Lemma platform_device_put_spec d :
  E (EvRelease (RPortDev d)) -> spec E any (platform_device_put d).
Proof. apply spec_emit. Qed.

(** A getter that emits one claim and queues one devres node. *)
Lemma claim_spec {A} e dev n (a : A) :
  E e -> spec E any (emit e ;; devres_add dev n ;; ret a).
Proof.
  intros He. eapply spec_bind; [apply spec_emit, He | intros _ _].
  eapply spec_bind; [apply devres_add_spec | intros _ _]. by apply spec_ret.
Qed.

Lemma devm_kzalloc_spec dev :
  E (EvAcquire (RMem MBundle)) -> spec E any (devm_kzalloc K dev).
Proof.
  intros He. unfold devm_kzalloc. destruct (k_kzalloc_lms K).
  - by apply claim_spec.
  - by apply spec_ret.
Qed.

Lemma devm_pinctrl_get_select_default_spec dev :
  E (EvAcquire (RPinctrl dev)) ->
  spec E any (devm_pinctrl_get_select_default K dev).
Proof.
  intros He. unfold devm_pinctrl_get_select_default.
  destruct (k_pinctrl_get_select_default K dev);
    (by apply claim_spec) || (by apply spec_ret).
Qed.

Lemma devm_gpiod_get_array_spec dev con_id :
  E (EvAcquire (RGpiod con_id)) ->
  spec E any (devm_gpiod_get_array K dev con_id).
Proof.
  intros He. unfold devm_gpiod_get_array.
  destruct (k_gpiod_get_array K con_id);
    (by apply claim_spec) || (by apply spec_ret).
Qed.

Lemma devm_gpiod_get_optional_spec dev con_id :
  E (EvAcquire (RGpiod con_id)) ->
  spec E any (devm_gpiod_get_optional K dev con_id).
Proof.
  intros He. unfold devm_gpiod_get_optional.
  destruct (k_gpiod_get_optional K con_id);
    (by apply claim_spec) || (by apply spec_ret).
Qed.

Lemma devm_ioremap_resource_spec dev res :
  E (EvAcquire (RIomem res)) -> spec E any (devm_ioremap_resource K dev res).
Proof.
  intros He. unfold devm_ioremap_resource.
  destruct (k_ioremap_resource K res);
    (by apply claim_spec) || (by apply spec_ret).
Qed.

Lemma devm_pwm_get_spec dev con_id :
  E (EvAcquire (RPwm con_id)) -> spec E any (devm_pwm_get K dev con_id).
Proof.
  intros He. unfold devm_pwm_get.
  destruct (k_pwm_get K con_id);
    (by apply claim_spec) || (by apply spec_ret).
Qed.

Lemma i2c_get_adapter_spec nr :
  E (EvAcquire (RI2c nr)) -> spec E any (i2c_get_adapter K nr).
Proof.
  intros He. unfold i2c_get_adapter. destruct (k_i2c_get_adapter K nr).
  - eapply spec_bind; [apply spec_emit, He | intros; by apply spec_ret].
  - by apply spec_ret.
Qed.

Lemma of_clk_get_by_name_spec np name :
  E (EvAcquire (RClk np)) -> spec E any (of_clk_get_by_name K np name).
Proof.
  intros He. unfold of_clk_get_by_name.
  destruct (k_clk_get_by_name K np name).
  - eapply spec_bind; [apply spec_emit, He | intros; by apply spec_ret].
  - by apply spec_ret.
Qed.

Lemma clk_prepare_enable_spec np :
  E (EvAcquire (RClkEnable np)) -> spec E any (clk_prepare_enable K np).
Proof.
  intros He. unfold clk_prepare_enable. destruct (k_clk_prepare_enable K np).
  - eapply spec_bind; [apply spec_emit, He | intros; by apply spec_ret].
  - by apply spec_ret.
Qed.

End ServiceSpecs.

(** The names the driver formats for input ports never start with "out";
    those it formats for output ports always do. *)
Lemma in_name_not_out (i : nat) (sfx : string) :
  is_prefix "out" (snprintf10 ("in" ++ fmt_d i ++ sfx)%string) = false.
Proof. reflexivity. Qed.

Lemma in_name_not_out_bare (i : nat) :
  is_prefix "out" (snprintf10 ("in" ++ fmt_d i)%string) = false.
Proof. reflexivity. Qed.

Lemma out_name_is_out (i : nat) :
  is_prefix "out" (snprintf10 ("out" ++ fmt_c i)%string) = true.
Proof. reflexivity. Qed.

(** ** Proof automation for step specifications *)

Ltac spec_service :=
  first
    [ apply spec_gets | apply spec_modify | apply spec_emit | apply spec_emits
    | apply devres_add_spec | apply devres_alloc_spec | apply devres_free_spec
    | apply of_node_put_spec | apply platform_device_put_spec
    | apply devm_kzalloc_spec | apply devm_pinctrl_get_select_default_spec
    | apply devm_gpiod_get_array_spec | apply devm_gpiod_get_optional_spec
    | apply devm_ioremap_resource_spec | apply devm_pwm_get_spec
    | apply i2c_get_adapter_spec | apply of_clk_get_by_name_spec
    | apply clk_prepare_enable_spec ].

Ltac spec_step :=
  lazymatch goal with
  | |- spec _ _ (ret _) => apply spec_ret
  | |- spec _ _ (return_ _) => apply spec_return
  | |- spec _ _ (fault_ _) => apply spec_fault
  | |- spec _ _ (bind _ _) => eapply spec_bind; [spec_service | intros ? _]
  | |- spec _ _ (match ?x with _ => _ end) => destruct x eqn:?
  | |- spec _ _ (if ?b then _ else _) => destruct b eqn:?
  end.

Ltac ev_side :=
  lazymatch goal with
  | |- upto _ _ =>
      unfold upto; cbn [probe_step];
      rewrite ?in_name_not_out, ?in_name_not_out_bare, ?out_name_is_out;
      first [lia | (simpl; lia)]
  | |- Forall _ _ => repeat constructor
  | |- _ < 0 => first [reflexivity | lia]
  | |- _ => try reflexivity
  end.

Ltac spec_auto := repeat spec_step; ev_side.

(** ** Specifications of the probe steps

    Each step emits only events of its own probe step or earlier, leaves
    early with a negative code only, and does not touch the channel map
    unless it is the step that reads it. *)

Section StepSpecs.

Context `{lms2012_h} (K : kernel) (pdev : device).

Lemma probe_count_in_ports_spec k :
  spec (upto k) any (probe_count_in_ports K).
Proof. unfold probe_count_in_ports. spec_auto. Qed.

Lemma probe_in_port_spec k i lms :
  (1 <= k)%nat -> spec (upto k) (keeps_adc lms) (probe_in_port K i lms).
Proof. intros Hk. unfold probe_in_port, keeps_adc. spec_auto. Qed.

Lemma probe_adc_channels_spec k lms :
  spec (upto k)
    (fun lms' =>
       of_property_read_u32_array (k_adc_channels K) INPUTADC
       = KOk (adc_map lms'))
    (probe_adc_channels K lms).
Proof. unfold probe_adc_channels. spec_auto. Qed.

Lemma probe_spi_pins_spec k lms :
  (2 <= k)%nat -> spec (upto k) (keeps_adc lms) (probe_spi_pins K pdev lms).
Proof. intros Hk. unfold probe_spi_pins, keeps_adc. spec_auto. Qed.

Lemma probe_in_pins_spec k i lms :
  (2 <= k)%nat -> spec (upto k) (keeps_adc lms) (probe_in_pins K pdev i lms).
Proof. intros Hk. unfold probe_in_pins, keeps_adc. spec_auto. Qed.

Lemma probe_read_i2cs_spec k : spec (upto k) any (probe_read_i2cs K).
Proof. unfold probe_read_i2cs. spec_auto. Qed.

Lemma probe_i2c_adapter_spec k i2c_adapters i lms :
  (3 <= k)%nat ->
  spec (upto k) (keeps_adc lms) (probe_i2c_adapter K pdev i2c_adapters i lms).
Proof. intros Hk. unfold probe_i2c_adapter, keeps_adc. spec_auto. Qed.

Lemma probe_count_uarts_spec k : spec (upto k) any (probe_count_uarts K).
Proof. unfold probe_count_uarts. spec_auto. Qed.

Lemma probe_uart_spec k i lms :
  (4 <= k)%nat -> spec (upto k) (keeps_adc lms) (probe_uart K pdev i lms).
Proof. intros Hk. unfold probe_uart, keeps_adc. spec_auto. Qed.

Lemma probe_out_pins_spec k i lms :
  (5 <= k)%nat -> spec (upto k) (keeps_adc lms) (probe_out_pins K pdev i lms).
Proof. intros Hk. unfold probe_out_pins, keeps_adc. spec_auto. Qed.

Lemma probe_out_pwm_spec k i lms :
  (6 <= k)%nat -> spec (upto k) (keeps_adc lms) (probe_out_pwm K pdev i lms).
Proof. intros Hk. unfold probe_out_pwm, keeps_adc. spec_auto. Qed.

End StepSpecs.

(** ** Specifications of the acquisition sequence *)

Lemma keeps_adc_loop (E : event -> Prop) (n : nat)
  (body : nat -> lms2012_compat -> M lms2012_compat) (lms : lms2012_compat) :
  (forall i a, spec E (keeps_adc a) (body i a)) ->
  spec E (keeps_adc lms) (for_upto n body lms).
Proof.
  intros Hbody. apply spec_for_each; [reflexivity |].
  intros i a Ha. eapply spec_weaken; [ | | apply Hbody]; [auto |].
  unfold keeps_adc in *. congruence.
Qed.

Section AcquireSpecs.

Context `{lms2012_h} (K : kernel) (pdev : device).

Ltac acq_step :=
  eapply spec_bind;
  [ first
      [ apply spec_gets
      | apply devm_kzalloc_spec; ev_side
      | apply probe_count_in_ports_spec
      | apply probe_adc_channels_spec
      | apply probe_spi_pins_spec; lia
      | apply probe_read_i2cs_spec
      | apply probe_count_uarts_spec
      | apply keeps_adc_loop; intros;
        first [ apply probe_in_port_spec | apply probe_in_pins_spec
              | apply probe_i2c_adapter_spec | apply probe_uart_spec
              | apply probe_out_pins_spec | apply probe_out_pwm_spec ]; lia ]
  | intros ? ? ].

Ltac acq_enter :=
  unfold lms2012_compat_acquire;
  eapply spec_bind; [apply spec_gets | intros [d |] _];
  [apply spec_return; reflexivity |];
  eapply spec_bind; [apply devm_kzalloc_spec; ev_side | intros [lms |] _];
  [| apply spec_return; reflexivity].

(** The whole sequence: acquisition events only, negative codes only, and
    on success the channel map is what the array read delivered. *)
Lemma lms2012_compat_acquire_spec :
  spec (upto 6)
    (fun lms =>
       of_property_read_u32_array (k_adc_channels K) INPUTADC
       = KOk (adc_map lms))
    (lms2012_compat_acquire K pdev).
Proof.
  acq_enter. do 11 acq_step.
  apply spec_ret. unfold keeps_adc in *. congruence.
Qed.

Lemma probe_count_in_ports_blocked k :
  of_count_phandle_with_args (k_in_in_ports K) <> Z.of_nat INPUTS ->
  spec (upto k) blocked (probe_count_in_ports K).
Proof. intros Hne. unfold probe_count_in_ports, blocked. spec_auto. lia. Qed.

Lemma probe_read_i2cs_blocked k :
  of_property_count_u32_elems (k_in_i2cs K) <> Z.of_nat INPUTS ->
  spec (upto k) blocked (probe_read_i2cs K).
Proof.
  intros Hne. unfold probe_read_i2cs, blocked. spec_step; [ev_side |].
  cbv zeta. spec_step; [spec_auto | lia].
Qed.

Lemma probe_count_uarts_blocked k :
  of_count_phandle_with_args (k_in_uarts K) <> Z.of_nat INPUTS ->
  spec (upto k) blocked (probe_count_uarts K).
Proof. intros Hne. unfold probe_count_uarts, blocked. spec_auto. lia. Qed.

Lemma probe_adc_channels_blocked k lms e :
  of_property_read_u32_array (k_adc_channels K) INPUTADC = KErr e ->
  spec (upto k) blocked (probe_adc_channels K lms).
Proof.
  intros He. unfold probe_adc_channels, blocked. rewrite He. spec_auto.
Qed.

Lemma acquire_blocked_in_ports :
  of_count_phandle_with_args (k_in_in_ports K) <> Z.of_nat INPUTS ->
  spec (upto 0) blocked (lms2012_compat_acquire K pdev).
Proof.
  intros Hne. acq_enter.
  eapply spec_bind; [by apply probe_count_in_ports_blocked | intros ? []].
Qed.

Lemma acquire_blocked_adc e :
  of_property_read_u32_array (k_adc_channels K) INPUTADC = KErr e ->
  spec (upto 1) blocked (lms2012_compat_acquire K pdev).
Proof.
  intros He. acq_enter. do 2 acq_step.
  eapply spec_bind; [by eapply probe_adc_channels_blocked | intros ? []].
Qed.

Lemma acquire_blocked_i2cs :
  of_property_count_u32_elems (k_in_i2cs K) <> Z.of_nat INPUTS ->
  spec (upto 2) blocked (lms2012_compat_acquire K pdev).
Proof.
  intros Hne. acq_enter. do 5 acq_step.
  eapply spec_bind; [by apply probe_read_i2cs_blocked | intros ? []].
Qed.

Lemma acquire_blocked_uarts :
  of_count_phandle_with_args (k_in_uarts K) <> Z.of_nat INPUTS ->
  spec (upto 3) blocked (lms2012_compat_acquire K pdev).
Proof.
  intros Hne. acq_enter. do 7 acq_step.
  eapply spec_bind; [by apply probe_count_uarts_blocked | intros ? []].
Qed.

End AcquireSpecs.

(** ** Running publication, removal and the probe as a whole *)

Section Runs.

Context `{lms2012_h} (K : kernel) (pdev : device).
Variable register_simple : string -> kptr string.

Lemma lms2012_compat_publish_run lms s :
  exists s',
    lms2012_compat_publish pdev register_simple lms s
    = (inl 0, s', publish_events pdev)
    /\ global_dev s' = Some pdev
    /\ drvdata s' pdev = Some (published register_simple lms)
    /\ devres s' = devres s
    /\ kref s' = kref s.
Proof.
  eexists. split; [reflexivity |]. simpl.
  rewrite !fn_lookup_insert. simpl. auto.
Qed.

Lemma lms2012_compat_remove_run lms s :
  drvdata s pdev = Some lms ->
  lms2012_compat_remove pdev s
  = (Return 0, set_global_dev None s, unpublish_events lms).
Proof.
  intros Hd. unfold lms2012_compat_remove, call, bind, gets.
  rewrite Hd. reflexivity.
Qed.

Lemma probe_of_acquire s lms s1 t1 :
  lms2012_compat_acquire K pdev s = (inl lms, s1, t1) ->
  exists s',
    lms2012_compat_probe K pdev register_simple s
    = (Return 0, s', t1 ++ publish_events pdev)
    /\ global_dev s' = Some pdev
    /\ drvdata s' pdev = Some (published register_simple lms)
    /\ devres s' = devres s1.
Proof.
  intros Hacq.
  destruct (lms2012_compat_publish_run lms s1)
    as (s' & Hpub & Hg & Hd & Hr & _).
  exists s'. unfold lms2012_compat_probe, call, bind.
  rewrite Hacq, Hpub. auto.
Qed.

Lemma probe_success_inv s s' t :
  lms2012_compat_probe K pdev register_simple s = (Return 0, s', t) ->
  exists lms s1 t1,
    lms2012_compat_acquire K pdev s = (inl lms, s1, t1)
    /\ Forall (upto 6) t1
    /\ of_property_read_u32_array (k_adc_channels K) INPUTADC
       = KOk (adc_map lms)
    /\ t = t1 ++ publish_events pdev
    /\ global_dev s' = Some pdev
    /\ drvdata s' pdev = Some (published register_simple lms).
Proof.
  intros Hp. pose proof (lms2012_compat_acquire_spec K pdev s) as Hs.
  destruct (lms2012_compat_acquire K pdev s) as [[[lms | x] s1] t1] eqn:Hacq.
  - destruct (probe_of_acquire s lms s1 t1 Hacq) as (s2 & Hp2 & Hg & Hd & _).
    rewrite Hp in Hp2. injection Hp2 as -> ->.
    simpl in Hs. destruct Hs as [Ht Hadc].
    exists lms, s1, t1. repeat split; assumption || reflexivity.
  - exfalso. unfold lms2012_compat_probe, call, bind in Hp.
    rewrite Hacq in Hp. simpl in Hs. destruct Hs as [_ Hx].
    destruct x as [code | f]; [| discriminate].
    injection Hp as -> _ _. lia.
Qed.

(** When acquisition cannot fall through, the probe fails. *)
Lemma probe_blocked (E : event -> Prop) s :
  spec E blocked (lms2012_compat_acquire K pdev) ->
  (lms2012_compat_probe K pdev register_simple s).1.1 <> Return 0
  /\ Forall E (lms2012_compat_probe K pdev register_simple s).2.
Proof.
  intros Hs. specialize (Hs s).
  unfold lms2012_compat_probe, call, bind.
  destruct (lms2012_compat_acquire K pdev s) as [[[lms | x] s1] t1];
    simpl in *; destruct Hs as [Ht Hx].
  - destruct Hx.
  - split; [| exact Ht].
    destruct x as [code | f]; [intros [= ->]; lia | discriminate].
Qed.

End Runs.

(** ** The I2C payloads are never filled in *)

Section Preservation.

Context {A B : Type} (Inv : kstate -> Prop).

Lemma preserves_same (m : M A) :
  (forall s, (m s).1.2 = s) -> preserves Inv m.
Proof. intros Hm s Hs. by rewrite Hm. Qed.

Lemma preserves_bind (m : M A) (f : A -> M B) :
  preserves Inv m -> (forall a, preserves Inv (f a)) ->
  preserves Inv (bind m f).
Proof.
  intros Hm Hf s Hs. unfold bind. specialize (Hm s Hs).
  destruct (m s) as [[[a | x] s1] t1]; simpl in *; [| exact Hm].
  specialize (Hf a s1 Hm). by destruct (f a s1) as [[r2 s2] t2].
Qed.

End Preservation.

Lemma preserves_for_each {A} (Inv : kstate -> Prop) (idx : list nat)
  (body : nat -> A -> M A) (a : A) :
  (forall i a', preserves Inv (body i a')) ->
  preserves Inv (for_each idx body a).
Proof.
  intros Hbody. revert a. induction idx as [| i idx IH]; intros a; simpl.
  - by apply preserves_same.
  - apply preserves_bind; [apply Hbody | exact IH].
Qed.

Lemma preserves_devres_add (dev : device) (n : devres_node) :
  payload_unset n -> preserves i2c_payloads_unset (devres_add dev n).
Proof.
  intros Hn s Hs dev'. simpl.
  destruct (decide (dev = dev')) as [<- | Hne].
  - rewrite fn_lookup_insert. constructor; [exact Hn | apply Hs].
  - rewrite fn_lookup_insert_ne by exact Hne. apply Hs.
Qed.

Lemma preserves_modify (f : kstate -> kstate) :
  (forall s, devres (f s) = devres s) ->
  preserves i2c_payloads_unset (modify f).
Proof. intros Hf s Hs dev. simpl. rewrite Hf. apply Hs. Qed.

(** Lines 186-193: the payload that reaches devres_add is the zeroed one. *)
Lemma probe_i2c_adapter_preserves `{lms2012_h} (K : kernel) (pdev : device)
  (i2c_adapters : list Z) (i : nat) (lms : lms2012_compat) :
  preserves i2c_payloads_unset (probe_i2c_adapter K pdev i2c_adapters i lms).
Proof.
  intros s Hs.
  unfold probe_i2c_adapter, i2c_get_adapter, devres_alloc, bind.
  destruct (k_i2c_get_adapter K _); simpl; [| exact Hs].
  destruct (k_devres_alloc_i2c K i); simpl; [| exact Hs].
  exact (preserves_devres_add pdev (DrI2cAdapter {| adapter := None |})
           eq_refl s Hs).
Qed.

Ltac pres_step :=
  lazymatch goal with
  | |- preserves _ (bind _ _) => apply preserves_bind; [| intros ?]
  | |- preserves _ (for_upto _ _ _) => apply preserves_for_each; intros ? ?
  | |- preserves _ (devres_add _ _) =>
      apply preserves_devres_add; first [exact I | reflexivity]
  | |- preserves _ (modify _) => apply preserves_modify; reflexivity
  | |- preserves _ (match ?x with _ => _ end) => destruct x
  | |- preserves _ (if ?b then _ else _) => destruct b
  | |- preserves _ _ =>
      first [ apply probe_i2c_adapter_preserves
            | apply preserves_same; reflexivity ]
  end.

Ltac pres_auto :=
  repeat first
    [ progress
        unfold devm_kzalloc, devm_pinctrl_get_select_default,
          devm_gpiod_get_array, devm_gpiod_get_optional,
          devm_ioremap_resource, devm_pwm_get, i2c_get_adapter,
          of_clk_get_by_name, clk_prepare_enable, devres_alloc, devres_free,
          of_node_put, platform_device_put, platform_device_register_simple,
          platform_set_drvdata, lms_assign, store_global_dev
    | progress cbv zeta
    | pres_step ].

Section ProbePreserves.

Context `{lms2012_h} (K : kernel) (pdev : device).

Lemma lms2012_compat_acquire_preserves :
  preserves i2c_payloads_unset (lms2012_compat_acquire K pdev).
Proof.
  unfold lms2012_compat_acquire, probe_count_in_ports, probe_in_port,
    probe_adc_channels, probe_spi_pins, probe_in_pins, probe_read_i2cs,
    probe_count_uarts, probe_uart, probe_out_pins, probe_out_pwm.
  pres_auto.
Qed.

Lemma lms2012_compat_publish_preserves register_simple lms :
  preserves i2c_payloads_unset
    (lms2012_compat_publish pdev register_simple lms).
Proof. unfold lms2012_compat_publish. pres_auto. Qed.

Lemma lms2012_compat_probe_preserves register_simple s :
  i2c_payloads_unset s ->
  i2c_payloads_unset (lms2012_compat_probe K pdev register_simple s).1.2.
Proof.
  intros Hs.
  assert (Hp : preserves i2c_payloads_unset
                 (lms <- lms2012_compat_acquire K pdev ;;
                  lms2012_compat_publish pdev register_simple lms)).
  { apply preserves_bind;
      [apply lms2012_compat_acquire_preserves
      | intros; apply lms2012_compat_publish_preserves]. }
  specialize (Hp s Hs). unfold lms2012_compat_probe, call.
  by destruct ((_ <- _ ;; _) s) as [[[code | x] s1] t1].
Qed.

End ProbePreserves.

Lemma devres_release_puts_no_adapter (n : devres_node) (nr : Z) :
  payload_unset n -> ~ In (EvRelease (RI2c nr)) (devres_release n).
Proof.
  destruct n as [| d | con_id | res | con_id | [a] | [[| np |]]]; simpl;
    intros Hn; try subst a; simpl; intuition discriminate.
Qed.

Lemma count_ev_absent (e : event) (t : list event) :
  ~ In e t -> count_ev e t = 0%nat.
Proof.
  unfold count_ev. induction t as [| e' t IH]; intros Hno; [reflexivity |].
  rewrite filter_cons_False; [apply IH | ]; intros Heq; apply Hno; simpl; auto.
Qed.

Lemma count_ev_app (e : event) (t1 t2 : list event) :
  count_ev e (t1 ++ t2) = (count_ev e t1 + count_ev e t2)%nat.
Proof. unfold count_ev. by rewrite list.filter_app, List.length_app. Qed.

(** Whatever the board, and whether the probe succeeded or failed: when the
    devres list of any device is released afterwards, no I2C adapter is
    put. *)
Lemma unwinding_puts_no_i2c_adapter `{lms2012_h} (K : kernel)
  (pdev : device) (register_simple : string -> kptr string) (s : kstate) :
  i2c_payloads_unset s ->
  forall dev nr,
    released (RI2c nr)
      (devres_release_all dev
         (lms2012_compat_probe K pdev register_simple s).1.2).2 = 0%nat.
Proof.
  intros Hs dev nr.
  pose proof (lms2012_compat_probe_preserves K pdev register_simple s Hs dev)
    as Hd.
  set (s1 := (lms2012_compat_probe K pdev register_simple s).1.2) in *.
  unfold devres_release_all, bind, gets, modify, emits, released. simpl.
  induction Hd as [| n nodes Hn Hd IH]; [reflexivity |].
  simpl. rewrite count_ev_app, IH, Nat.add_0_r.
  by apply count_ev_absent, devres_release_puts_no_adapter.
Qed.

(** ** Managed resources are balanced by the devres list *)

Lemma count_ev_nil (e : event) : count_ev e [] = 0%nat.
Proof. reflexivity. Qed.

Lemma count_ev_cons (e x : event) (t : list event) :
  count_ev e (x :: t)
  = ((if decide (x = e) then 1 else 0) + count_ev e t)%nat.
Proof.
  unfold count_ev. rewrite filter_cons. by destruct (decide (x = e)).
Qed.

Lemma net_app (r : resource) (t1 t2 : list event) :
  net r (t1 ++ t2) = net r t1 + net r t2.
Proof. unfold net, claimed, released. rewrite !count_ev_app. lia. Qed.

Lemma owed_app (r : resource) (n1 n2 : list devres_node) :
  owed r (n1 ++ n2) = owed r n1 + owed r n2.
Proof.
  unfold owed, released. rewrite map_app, concat_app, count_ev_app. lia.
Qed.

Lemma balanced_bind {A B} (pdev : device) (m : M A) (f : A -> M B) :
  balanced pdev m -> (forall a, balanced pdev (f a)) ->
  balanced pdev (bind m f).
Proof.
  intros Hm Hf s. unfold bind. specialize (Hm s).
  destruct (m s) as [[[a | [code | fl]] s1] t1]; try exact Hm.
  destruct Hm as (new1 & Hd1 & Hn1). specialize (Hf a s1).
  destruct (f a s1) as [[r2 s2] t2].
  assert (Hgoal :
    (exists new, devres s2 pdev = new ++ devres s1 pdev
       /\ forall r, managed r = true -> net r t2 = owed r new) ->
    exists new, devres s2 pdev = new ++ devres s pdev
       /\ forall r, managed r = true -> net r (t1 ++ t2) = owed r new).
  { intros (new2 & Hd2 & Hn2). exists (new2 ++ new1). split.
    - by rewrite Hd2, Hd1, app_assoc.
    - intros r Hr. rewrite net_app, owed_app, Hn1, Hn2 by exact Hr. lia. }
  destruct r2 as [b | [code | fl]]; auto.
Qed.

Lemma balanced_ret {A} (pdev : device) (a : A) : balanced pdev (ret a).
Proof. intros s. exists []. split; [reflexivity | reflexivity]. Qed.

Lemma balanced_for_each {A} (pdev : device) (idx : list nat)
  (body : nat -> A -> M A) (a : A) :
  (forall i a', balanced pdev (body i a')) ->
  balanced pdev (for_each idx body a).
Proof.
  intros Hbody. revert a. induction idx as [| i idx IH]; intros a; simpl.
  - apply balanced_ret.
  - apply balanced_bind; [apply Hbody | exact IH].
Qed.

(** The nodes pushed on the devres list, read off the final state. *)
Ltac bal_new :=
  simpl; rewrite ?fn_lookup_insert;
  lazymatch goal with
  | |- exists new, ?a :: ?b :: ?c :: devres ?s ?p = new ++ devres ?s ?p /\ _ =>
      exists [a; b; c]
  | |- exists new, ?a :: ?b :: devres ?s ?p = new ++ devres ?s ?p /\ _ =>
      exists [a; b]
  | |- exists new, ?a :: devres ?s ?p = new ++ devres ?s ?p /\ _ =>
      exists [a]
  | |- exists new, devres ?s ?p = new ++ devres ?s ?p /\ _ =>
      exists []
  | |- True => exact I
  end;
  try (split; [reflexivity |]).

(** Counting claims and releases of one managed resource in an explicit
    trace, one event at a time. *)
Ltac bal_count :=
  repeat
    match goal with
    | |- context [snprintf10 ?x] =>
        let n := fresh "name" in
        set (n := snprintf10 x) in *; clearbody n
    end;
  try (intros r Hr;
       destruct r as [[] | | | | | | | | |]; try discriminate Hr;
       unfold net, owed, claimed, released;
       cbn [concat map app devres_release lms2012_compat_release_i2c_adapter
            i2c_put_adapter lms2012_compat_release_clk clk_disable_unprepare
            clk_put adapter clk];
       rewrite ?count_ev_cons, ?count_ev_nil;
       repeat (case_decide; simplify_eq);
       first [lia | congruence]).

(** Every path through a piece of code that has no loop. *)
Ltac bal_brute :=
  intros s;
  unfold devm_kzalloc, devm_pinctrl_get_select_default,
    devm_gpiod_get_array, devm_gpiod_get_optional, devm_ioremap_resource,
    devm_pwm_get, i2c_get_adapter, of_clk_get_by_name, clk_prepare_enable,
    devres_alloc, devres_free, of_node_put, platform_device_put,
    devres_add, bind, emit, emits, modify, ret, return_, fault_, gets;
  repeat
    (match goal with
     | |- context [match ?x with _ => _ end] =>
         lazymatch x with
         | context [match _ with _ => _ end] => fail
         | _ => destruct x eqn:?
         end
     end;
     simpl);
  try (bal_new; bal_count).

Section BalancedServices.

Context `{lms2012_h} (K : kernel) (pdev : device).

Lemma balanced_return_ {A} (code : Z) : balanced pdev (@return_ A code).
Proof. bal_brute. Qed.

Lemma balanced_fault_ {A} (f : fault) : balanced pdev (@fault_ A f).
Proof. bal_brute. Qed.

Lemma balanced_gets {A} (f : kstate -> A) : balanced pdev (gets f).
Proof. bal_brute. Qed.

Lemma balanced_emit (e : event) :
  unmanaged_event e = true -> balanced pdev (emit e).
Proof.
  intros He s. exists []. split; [reflexivity |]. intros r Hr.
  unfold net, owed, claimed, released. simpl concat.
  rewrite !count_ev_cons, !count_ev_nil.
  repeat (case_decide; simplify_eq); simpl in He; rewrite ?Hr in He;
    first [lia | discriminate].
Qed.

Lemma balanced_devm_kzalloc : balanced pdev (devm_kzalloc K pdev).
Proof. bal_brute. Qed.

Lemma balanced_devm_gpiod_get_array (con_id : string) :
  balanced pdev (devm_gpiod_get_array K pdev con_id).
Proof. bal_brute. Qed.

Lemma balanced_devm_gpiod_get_optional (con_id : string) :
  balanced pdev (devm_gpiod_get_optional K pdev con_id).
Proof. bal_brute. Qed.

Lemma balanced_devm_ioremap_resource (res : nat) :
  balanced pdev (devm_ioremap_resource K pdev res).
Proof. bal_brute. Qed.

Lemma balanced_devm_pwm_get (con_id : string) :
  balanced pdev (devm_pwm_get K pdev con_id).
Proof. bal_brute. Qed.

Lemma balanced_i2c_get_adapter (nr : Z) :
  balanced pdev (i2c_get_adapter K nr).
Proof. bal_brute. Qed.

Lemma balanced_of_node_put (np : node) : balanced pdev (of_node_put np).
Proof. bal_brute. Qed.

Lemma balanced_platform_device_put (d : device) :
  balanced pdev (platform_device_put d).
Proof. bal_brute. Qed.

(** The pin-control handle is queued on the device it was asked for, which
    need not be the one being probed. *)
Lemma balanced_devm_pinctrl (dev : device) :
  balanced pdev (devm_pinctrl_get_select_default K dev).
Proof.
  intros s. unfold devm_pinctrl_get_select_default, devres_add, bind, emit,
    modify, ret.
  destruct (k_pinctrl_get_select_default K dev); simpl;
    try (exists []; split; [reflexivity | bal_count]).
  destruct (decide (dev = pdev)) as [-> | Hne].
  - rewrite fn_lookup_insert. exists [DrPinctrl pdev].
    split; [reflexivity | bal_count].
  - rewrite fn_lookup_insert_ne by exact Hne. exists [].
    split; [reflexivity | bal_count].
Qed.

End BalancedServices.

Ltac bal_service :=
  first
    [ apply balanced_gets
    | apply balanced_emit; reflexivity
    | apply balanced_devm_kzalloc | apply balanced_devm_pinctrl
    | apply balanced_devm_gpiod_get_array
    | apply balanced_devm_gpiod_get_optional
    | apply balanced_devm_ioremap_resource | apply balanced_devm_pwm_get
    | apply balanced_i2c_get_adapter | apply balanced_of_node_put
    | apply balanced_platform_device_put ].

(** A payload allocated by devres_alloc is in flight until devres_add or
    devres_free: from there on the rest of the step is gone through path
    by path. *)
Ltac bal_step :=
  lazymatch goal with
  | |- balanced _ (ret _) => apply balanced_ret
  | |- balanced _ (return_ _) => apply balanced_return_
  | |- balanced _ (fault_ _) => apply balanced_fault_
  | |- balanced _ (bind (devres_alloc _ _ _) _) => bal_brute
  | |- balanced _ (bind (emits _) _) => bal_brute
  | |- balanced _ (bind _ _) => apply balanced_bind; [bal_service | intros ?]
  | |- balanced _ (match ?x with _ => _ end) => destruct x eqn:?
  | |- balanced _ (if ?b then _ else _) => destruct b eqn:?
  end.

Section BalancedSteps.

Context `{lms2012_h} (K : kernel) (pdev : device).

Lemma probe_count_in_ports_balanced : balanced pdev (probe_count_in_ports K).
Proof. unfold probe_count_in_ports. repeat bal_step. Qed.

Lemma probe_in_port_balanced i lms : balanced pdev (probe_in_port K i lms).
Proof. unfold probe_in_port. repeat bal_step. Qed.

Lemma probe_adc_channels_balanced lms :
  balanced pdev (probe_adc_channels K lms).
Proof. unfold probe_adc_channels. repeat bal_step. Qed.

Lemma probe_spi_pins_balanced lms :
  balanced pdev (probe_spi_pins K pdev lms).
Proof. unfold probe_spi_pins. repeat bal_step. Qed.

Lemma probe_in_pins_balanced i lms :
  balanced pdev (probe_in_pins K pdev i lms).
Proof. unfold probe_in_pins. repeat bal_step. Qed.

Lemma probe_read_i2cs_balanced : balanced pdev (probe_read_i2cs K).
Proof. unfold probe_read_i2cs. repeat bal_step. Qed.

Lemma probe_i2c_adapter_balanced i2c_adapters i lms :
  balanced pdev (probe_i2c_adapter K pdev i2c_adapters i lms).
Proof. unfold probe_i2c_adapter. repeat bal_step. Qed.

Lemma probe_count_uarts_balanced : balanced pdev (probe_count_uarts K).
Proof. unfold probe_count_uarts. repeat bal_step. Qed.

Lemma probe_uart_balanced i lms : balanced pdev (probe_uart K pdev i lms).
Proof. unfold probe_uart. repeat bal_step. Qed.

Lemma probe_out_pins_balanced i lms :
  balanced pdev (probe_out_pins K pdev i lms).
Proof. unfold probe_out_pins. repeat bal_step. Qed.

Lemma probe_out_pwm_balanced i lms :
  balanced pdev (probe_out_pwm K pdev i lms).
Proof. unfold probe_out_pwm. repeat bal_step. Qed.

Lemma lms2012_compat_acquire_balanced :
  balanced pdev (lms2012_compat_acquire K pdev).
Proof.
  unfold lms2012_compat_acquire, for_upto.
  apply balanced_bind; [apply balanced_gets | intros [d |]];
    [apply balanced_return_ |].
  apply balanced_bind; [apply balanced_devm_kzalloc | intros [lms |]];
    [| apply balanced_return_].
  repeat first
    [ apply balanced_ret
    | apply balanced_bind;
      [ first
          [ apply probe_count_in_ports_balanced
          | apply probe_adc_channels_balanced
          | apply probe_spi_pins_balanced
          | apply probe_read_i2cs_balanced
          | apply probe_count_uarts_balanced
          | apply balanced_for_each; intros;
            first [ apply probe_in_port_balanced
                  | apply probe_in_pins_balanced
                  | apply probe_i2c_adapter_balanced
                  | apply probe_uart_balanced
                  | apply probe_out_pins_balanced
                  | apply probe_out_pwm_balanced ] ]
      | intros ? ] ].
Qed.

End BalancedSteps.

Lemma devres_release_claims_nothing (r : resource)
  (nodes : list devres_node) :
  claimed r (concat (map devres_release nodes)) = 0%nat.
Proof.
  unfold claimed. apply count_ev_absent.
  induction nodes as [| n nodes IH]; simpl; [tauto |].
  rewrite in_app_iff. intros [Hin | Hin]; [| exact (IH Hin)].
  destruct n as [| d | con_id | res | con_id | [[a |]] | [[| np |]]];
    simpl in Hin; intuition discriminate.
Qed.

Lemma unwind_events (dev : device) (x : exit) (s : kstate) (t : list event) :
  unwind dev (x, s, t)
  = (x,
     set_drvdata (<[dev := None]> (drvdata s))
       (set_devres (<[dev := []]> (devres s)) s),
     t ++ concat (map devres_release (devres s dev))).
Proof.
  unfold unwind, devres_release_all, dev_set_drvdata_null, bind, gets,
    modify, emits. simpl. by rewrite app_nil_r.
Qed.

Lemma balance_after_unwind (r : resource) (t : list event)
  (new : list devres_node) :
  net r t = owed r new ->
  claimed r (t ++ concat (map devres_release new))
  = released r (t ++ concat (map devres_release new)).
Proof.
  unfold net, owed. intros Hnet.
  pose proof (devres_release_claims_nothing r new) as Hc.
  unfold claimed, released in *. rewrite !count_ev_app. lia.
Qed.

(** X4.  Whatever the board: after a probe that returned an error and the
    unwinding that follows it, every managed resource (bundle and payload
    memory, GPIO groups, register windows, clocks and their enable counts,
    PWM channels) has been released exactly as often as it was claimed. *)
Lemma managed_resources_are_balanced `{lms2012_h} (K : kernel)
  (pdev : device) (register_simple : string -> kptr string) (s : kstate) :
  devres s pdev = [] ->
  let '(x, _, t) := really_probe K pdev register_simple s in
  match x with
  | Return code =>
      code <> 0 ->
      forall r, managed r = true -> claimed r t = released r t
  | Fault _ => True
  end.
Proof.
  intros Hd. unfold really_probe, lms2012_compat_probe, call, bind.
  pose proof (lms2012_compat_acquire_balanced K pdev s) as Hb.
  destruct (lms2012_compat_acquire K pdev s) as [[[lms | [code | f]] s1] t1].
  - destruct (lms2012_compat_publish_run pdev register_simple lms s1)
      as (s' & -> & _). simpl. intros Hne. by destruct Hne.
  - destruct (code =? 0) eqn:Hc; [intros Hne; lia |].
    rewrite unwind_events. intros _ r Hr.
    destruct Hb as (new & Hnew & Hnet). rewrite Hd, app_nil_r in Hnew.
    rewrite Hnew. by apply balance_after_unwind, Hnet.
  - exact I.
Qed.

(** X5.  The same after a successful probe, removal and unwinding:
    removal returns 0 and every managed resource is released as often as
    it was claimed. *)
Lemma managed_resources_are_balanced_after_removal `{lms2012_h} (K : kernel)
  (pdev : device) (register_simple : string -> kptr string)
  (s s1 : kstate) (t1 : list event) :
  devres s pdev = [] ->
  lms2012_compat_probe K pdev register_simple s = (Return 0, s1, t1) ->
  let '(x2, _, t2) := device_release_driver pdev s1 in
  x2 = Return 0
  /\ forall r, managed r = true ->
       claimed r (t1 ++ t2) = released r (t1 ++ t2).
Proof.
  intros Hd Hp.
  destruct (probe_success_inv K pdev register_simple s s1 t1 Hp)
    as (lms & s0 & t0 & Hacq & _ & _ & -> & _ & Hdrv).
  destruct (probe_of_acquire K pdev register_simple s lms s0 t0 Hacq)
    as (s1' & Hp' & _ & _ & Hres).
  rewrite Hp in Hp'. injection Hp' as <-.
  pose proof (lms2012_compat_acquire_balanced K pdev s) as Hb.
  rewrite Hacq in Hb. destruct Hb as (new & Hnew & Hnet).
  rewrite Hd, app_nil_r in Hnew.
  unfold device_release_driver.
  rewrite (lms2012_compat_remove_run pdev _ s1 Hdrv), unwind_events.
  split; [reflexivity |]. intros r Hr. simpl devres. rewrite Hres, Hnew.
  specialize (Hnet r Hr). unfold net, owed in Hnet.
  pose proof (devres_release_claims_nothing r new) as Hc.
  unfold claimed, released in *.
  rewrite !count_ev_app. unfold publish_events, unpublish_events.
  rewrite !count_ev_cons, !count_ev_nil.
  repeat (case_decide; simplify_eq). lia.
Qed.

(** ** No I2C adapter is ever put *)

Lemma puts_bind {A B} (m : M A) (f : A -> M B) :
  puts_only_on_enomem m -> (forall a, puts_only_on_enomem (f a)) ->
  puts_only_on_enomem (bind m f).
Proof.
  intros Hm Hf s. unfold bind. specialize (Hm s).
  destruct (m s) as [[[a | x] s1] t1]; simpl in *.
  - specialize (Hf a s1). destruct (f a s1) as [[r2 s2] t2]; simpl in *.
    rewrite existsb_app. intros [Hin | Hin]%orb_true_iff; [| auto].
    specialize (Hm Hin). discriminate.
  - intros Hin. specialize (Hm Hin). by injection Hm as ->.
Qed.

Lemma puts_silent {A} (m : M A) :
  (forall s, existsb is_i2c_put (m s).2 = false) -> puts_only_on_enomem m.
Proof. intros Hm s Hin. rewrite Hm in Hin. discriminate. Qed.

Lemma puts_for_each {A} (idx : list nat) (body : nat -> A -> M A) (a : A) :
  (forall i a', puts_only_on_enomem (body i a')) ->
  puts_only_on_enomem (for_each idx body a).
Proof.
  intros Hbody. revert a. induction idx as [| i idx IH]; intros a; simpl.
  - by apply puts_silent.
  - apply puts_bind; [apply Hbody | exact IH].
Qed.

Ltac puts_step :=
  lazymatch goal with
  | |- puts_only_on_enomem (bind (emits _) _) =>
      intros s; simpl;
      first [discriminate | reflexivity | intros _; reflexivity]
  | |- puts_only_on_enomem (bind _ _) => apply puts_bind; [| intros ?]
  | |- puts_only_on_enomem (for_upto _ _ _) =>
      apply puts_for_each; intros ? ?
  | |- puts_only_on_enomem (match ?x with _ => _ end) => destruct x
  | |- puts_only_on_enomem (if ?b then _ else _) => destruct b
  | |- puts_only_on_enomem _ => apply puts_silent; reflexivity
  end.

Ltac puts_auto :=
  repeat first
    [ progress
        unfold devm_kzalloc, devm_pinctrl_get_select_default,
          devm_gpiod_get_array, devm_gpiod_get_optional,
          devm_ioremap_resource, devm_pwm_get, i2c_get_adapter,
          of_clk_get_by_name, clk_prepare_enable, devres_alloc, devres_free,
          of_node_put, platform_device_put, devres_add
    | progress cbv zeta
    | puts_step ].

Lemma lms2012_compat_acquire_puts `{lms2012_h} (K : kernel) (pdev : device) :
  puts_only_on_enomem (lms2012_compat_acquire K pdev).
Proof.
  unfold lms2012_compat_acquire, probe_count_in_ports, probe_in_port,
    probe_adc_channels, probe_spi_pins, probe_in_pins, probe_read_i2cs,
    probe_i2c_adapter, probe_count_uarts, probe_uart, probe_out_pins,
    probe_out_pwm.
  puts_auto.
Qed.

Lemma lms2012_compat_publish_puts (pdev : device)
  (register_simple : string -> kptr string) (lms : lms2012_compat) :
  puts_only_on_enomem (lms2012_compat_publish pdev register_simple lms).
Proof. apply puts_silent. reflexivity. Qed.

Lemma unset_payloads_put_nothing (nodes : list devres_node) (nr : Z) :
  Forall payload_unset nodes ->
  released (RI2c nr) (concat (map devres_release nodes)) = 0%nat.
Proof.
  unfold released. induction 1 as [| n nodes Hn Hd IH]; [reflexivity |].
  simpl. rewrite count_ev_app, IH, Nat.add_0_r.
  by apply count_ev_absent, devres_release_puts_no_adapter.
Qed.

Lemma no_put_event (t : list event) (nr : Z) :
  existsb is_i2c_put t = false -> released (RI2c nr) t = 0%nat.
Proof.
  intros Hno. unfold released. apply count_ev_absent. intros Hin.
  assert (existsb is_i2c_put t = true); [| congruence].
  apply existsb_exists. exists (EvRelease (RI2c nr)). auto.
Qed.

(** X6.  Whatever the board: in an attempt that ends in anything but
    [-ENOMEM] no I2C adapter is put, neither by the probe nor by the
    unwinding that follows a failure. *)
Lemma no_i2c_adapter_is_ever_put `{lms2012_h} (K : kernel) (pdev : device)
  (register_simple : string -> kptr string) (s : kstate) :
  i2c_payloads_unset s ->
  let '(x, _, t) := really_probe K pdev register_simple s in
  x <> Return (-E ENOMEM) -> forall nr, released (RI2c nr) t = 0%nat.
Proof.
  intros Hs.
  pose proof (lms2012_compat_probe_preserves K pdev register_simple s Hs pdev)
    as Hd.
  assert (Hp : puts_only_on_enomem
                 (lms <- lms2012_compat_acquire K pdev ;;
                  lms2012_compat_publish pdev register_simple lms)).
  { apply puts_bind;
      [apply lms2012_compat_acquire_puts
      | intros; apply lms2012_compat_publish_puts]. }
  assert (Hq : (lms2012_compat_probe K pdev register_simple s).1.1
               <> Return (-E ENOMEM) ->
               existsb is_i2c_put
                 (lms2012_compat_probe K pdev register_simple s).2 = false).
  { specialize (Hp s). unfold lms2012_compat_probe, call.
    destruct ((_ <- _ ;; _) s) as [[[code | x] s1] t1]; simpl in *;
      intros Hne; destruct (existsb _ t1); try done;
      specialize (Hp eq_refl); congruence. }
  unfold really_probe.
  destruct (lms2012_compat_probe K pdev register_simple s) as [[x s1] t1].
  simpl in Hd, Hq.
  assert (Hgoal : x <> Return (-E ENOMEM) -> forall nr,
            released (RI2c nr)
              (t1 ++ concat (map devres_release (devres s1 pdev))) = 0%nat).
  { intros Hx nr. unfold released. rewrite count_ev_app.
    fold (released (RI2c nr) t1).
    fold (released (RI2c nr) (concat (map devres_release (devres s1 pdev)))).
    rewrite unset_payloads_put_nothing by exact Hd.
    by rewrite no_put_event; [| apply Hq]. }
  destruct x as [code | f].
  - destruct (code =? 0); [| rewrite unwind_events; exact Hgoal].
    intros Hx nr. by apply no_put_event, Hq.
  - intros Hx nr. by apply no_put_event, Hq.
Qed.

(** ** Single steps, on any board *)

Section SingleSteps.

Context `{lms2012_h} (K : kernel) (pdev : device).

(** Lines 179-193 when the adapter is there and the payload is allocated:
    the adapter is claimed, and the node pushed on the devres list holds
    NULL, not the adapter. *)
Lemma probe_i2c_adapter_pushes_unset_payload i2c_adapters i lms s :
  let nr := u32_to_int (default 0 (i2c_adapters !! i)) in
  k_i2c_get_adapter K nr = true ->
  k_devres_alloc_i2c K i = true ->
  probe_i2c_adapter K pdev i2c_adapters i lms s
  = (inl (set_i2c_adapter (<[i := Some nr]> (i2c_adapter lms)) lms),
     set_devres
       (<[pdev := DrI2cAdapter {| adapter := None |} :: devres s pdev]>
          (devres s)) s,
     [EvAcquire (RI2c nr); EvAcquire (RMem MI2cRes)]).
Proof.
  intros nr Hget Halloc.
  unfold probe_i2c_adapter, i2c_get_adapter, devres_alloc, bind.
  fold nr. rewrite Hget. simpl. rewrite Halloc. reflexivity.
Qed.

(** Line 183-184: a missing adapter is reported as [-EPROBE_DEFER]. *)
Lemma probe_i2c_adapter_defers i2c_adapters i lms s :
  k_i2c_get_adapter K (u32_to_int (default 0 (i2c_adapters !! i))) = false ->
  probe_i2c_adapter K pdev i2c_adapters i lms s
  = (inr (Return (-E EPROBE_DEFER)), s, []).
Proof.
  intros Hget. unfold probe_i2c_adapter, i2c_get_adapter, bind.
  rewrite Hget. reflexivity.
Qed.

(** Lines 304-309: the error of devm_pwm_get is returned as it is. *)
Lemma probe_out_pwm_propagates i lms s e :
  k_pwm_get K (snprintf10 ("out" ++ fmt_c (i + char_A))%string) = ErrPtr e ->
  probe_out_pwm K pdev i lms s = (inr (Return (-E e)), s, []).
Proof.
  intros Hpwm. unfold probe_out_pwm, devm_pwm_get, bind.
  rewrite Hpwm. reflexivity.
Qed.

(** Lines 135-138, 156-160, 294-298: a group of the wrong size is claimed,
    queued for release, and then rejected with [-EINVAL]. *)
Lemma probe_spi_pins_rejects lms s descs :
  k_gpiod_get_array K "spi" = KOk descs ->
  ndescs descs <> ADC_SPI_PINS ->
  probe_spi_pins K pdev lms s
  = (inr (Return (-E EINVAL)),
     set_devres (<[pdev := DrGpiod "spi" :: devres s pdev]> (devres s)) s,
     [EvAcquire (RGpiod "spi")]).
Proof.
  intros Hget Hne.
  unfold probe_spi_pins, devm_gpiod_get_array, devres_add, bind.
  rewrite Hget. simpl.
  destruct (Nat.eqb_spec (ndescs descs) ADC_SPI_PINS); [lia | reflexivity].
Qed.

Lemma probe_out_pins_rejects i lms s descs :
  let name := snprintf10 ("out" ++ fmt_c (i + char_A))%string in
  k_gpiod_get_array K name = KOk descs ->
  ndescs descs <> OUTPUT_PORT_PINS ->
  probe_out_pins K pdev i lms s
  = (inr (Return (-E EINVAL)),
     set_devres (<[pdev := DrGpiod name :: devres s pdev]> (devres s)) s,
     [EvAcquire (RGpiod name)]).
Proof.
  intros name Hget Hne.
  unfold probe_out_pins, devm_gpiod_get_array, devres_add, bind.
  fold name. rewrite Hget. simpl.
  destruct (Nat.eqb_spec (ndescs descs) OUTPUT_PORT_PINS);
    [lia | reflexivity].
Qed.

(** Lines 123-128: a property longer than INPUTADC is read without
    complaint. *)
Lemma probe_adc_channels_accepts_longer lms s cells :
  k_adc_channels K = PropCells cells ->
  (INPUTADC < length cells)%nat ->
  probe_adc_channels K lms s
  = (inl (set_adc_map (take INPUTADC cells) lms), s,
     [EvQuery "adc-channels"]).
Proof.
  intros Hc Hlen. unfold probe_adc_channels, of_property_read_u32_array, bind.
  rewrite Hc. simpl.
  destruct (Nat.ltb_spec (length cells) INPUTADC); [lia | reflexivity].
Qed.

(** Lines 255-259 when devres_alloc returns NULL: whatever
    of_clk_get_by_name answers, the store through [clk] comes next. *)
Lemma probe_uart_null_payload i lms s np res freq :
  of_parse_phandle_with_args (k_in_uarts K) i = KOk np ->
  k_address_to_resource K np = KOk res ->
  IS_ERR (k_ioremap_resource K res) = false ->
  0 <= k_irq_get K np ->
  of_property_read_u32 (k_clock_frequency K np) = KOk freq ->
  k_devres_alloc_clk K i = false ->
  (probe_uart K pdev i lms s).1.1 = inr (Fault NullDeref).
Proof.
  intros Hparse Haddr Hmap Hirq Hfreq Halloc.
  unfold probe_uart, devm_ioremap_resource, of_clk_get_by_name, devres_alloc,
    bind.
  rewrite Hparse. simpl. rewrite Haddr. simpl.
  destruct (k_ioremap_resource K res) as [| h | e]; [| | discriminate];
    simpl; (destruct (Z.ltb_spec (k_irq_get K np) 0); [lia |]);
    simpl; rewrite Hfreq; simpl; rewrite Halloc; simpl;
    destruct (k_clk_get_by_name K np "fck"); reflexivity.
Qed.

End SingleSteps.

(** * The driver's properties *)

(** ** C3: the singleton guard *)

(** C3.  While an instance is active ([global_dev] is set), probe returns
    [-EBUSY] at once: the state is unchanged and not a single allocation,
    device-tree query or provider call has been made. *)
Theorem probe_while_active_is_ebusy `{lms2012_h} (K : kernel) (pdev : device)
  (register_simple : string -> kptr string) (s : kstate) (d : device) :
  global_dev s = Some d ->
  lms2012_compat_probe K pdev register_simple s = (Return (-E EBUSY), s, []).
Proof.
  intros Hg.
  unfold lms2012_compat_probe, lms2012_compat_acquire, call, bind, gets.
  rewrite Hg. reflexivity.
Qed.

Lemma probe_while_active_is_ebusy_witness :
  global_dev bound_to_7 = Some 7%nat
  /\ lms2012_compat_probe board the_pdev register_ok bound_to_7
     = (Return (-E EBUSY), bound_to_7, []).
Proof.
  split; [reflexivity |].
  apply (probe_while_active_is_ebusy board the_pdev register_ok bound_to_7
           7%nat).
  reflexivity.
Defined.

(** ** C9: the global accessor *)

(** C9.  [lms2012_compat_get] returns NULL when no instance is published,
    which is also the case once the instance has been removed; when an
    instance is active it returns that device and the device's use-count
    has gone up by exactly one, nothing else having changed. *)
Theorem get_returns_active_instance (s : kstate) :
  (global_dev s = None -> lms2012_compat_get s = (inl None, s, []))
  /\ (forall d, global_dev s = Some d ->
        exists s',
          lms2012_compat_get s = (inl (Some d), s', [])
          /\ kref s' d = S (kref s d)
          /\ (forall d', d' <> d -> kref s' d' = kref s d')
          /\ global_dev s' = global_dev s
          /\ drvdata s' = drvdata s
          /\ devres s' = devres s)
  /\ (forall pdev lms, drvdata s pdev = Some lms ->
        let s' := (lms2012_compat_remove pdev s).1.2 in
        lms2012_compat_get s' = (inl None, s', [])).
Proof.
  unfold lms2012_compat_get, bind, gets. split; [| split].
  - intros ->. reflexivity.
  - intros d Hg. rewrite Hg. eexists. split; [reflexivity |]. simpl.
    rewrite fn_lookup_insert. repeat split; auto.
    intros d' Hd'. by rewrite fn_lookup_insert_ne.
  - intros pdev lms Hd. rewrite (lms2012_compat_remove_run pdev lms s Hd).
    reflexivity.
Qed.

Lemma get_returns_active_instance_witness :
  (global_dev boot = None /\ lms2012_compat_get boot = (inl None, boot, []))
  /\ (global_dev bound_to_7 = Some 7%nat
      /\ exists s',
           lms2012_compat_get bound_to_7 = (inl (Some 7%nat), s', [])
           /\ kref s' 7%nat = S (kref bound_to_7 7%nat)).
Proof.
  split.
  - split; [reflexivity |].
    apply (proj1 (get_returns_active_instance boot)). reflexivity.
  - split; [reflexivity |].
    destruct (proj1 (proj2 (get_returns_active_instance bound_to_7))
                7%nat eq_refl) as (s' & Hget & Hk & _).
    exists s'. split; assumption.
Defined.

(** ** C8: publication order and teardown order *)




(** Removal of a bound device always returns 0, whatever the tokens are. *)
Lemma remove_returns_zero (pdev : device) (s : kstate) (lms : lms2012_compat) :
  drvdata s pdev = Some lms ->
  (lms2012_compat_remove pdev s).1.1 = Return 0.
Proof. intros Hd. by rewrite (lms2012_compat_remove_run pdev lms s Hd). Qed.

(** ** C10: registration results are not looked at *)

(** C10.  Once acquisition has gone through, probe returns 0 and the
    device is the active instance whatever the four registrations answer:
    the emitted events and the return value are the same for every
    registration behaviour. *)
Theorem registration_results_ignored `{lms2012_h} (K : kernel)
  (pdev : device) (s s1 : kstate) (lms : lms2012_compat) (t1 : list event) :
  lms2012_compat_acquire K pdev s = (inl lms, s1, t1) ->
  forall register_simple : string -> kptr string,
  exists s',
    lms2012_compat_probe K pdev register_simple s
    = (Return 0, s', t1 ++ publish_events pdev)
    /\ global_dev s' = Some pdev.
Proof.
  intros Hacq register_simple.
  destruct (probe_of_acquire K pdev register_simple s lms s1 t1 Hacq)
    as (s' & Hp & Hg & _).
  exists s'. split; assumption.
Qed.

Lemma registration_results_ignored_witness :
  exists lms s1 t1,
    lms2012_compat_acquire board the_pdev boot = (inl lms, s1, t1)
    /\ exists s',
         lms2012_compat_probe board the_pdev register_fails boot
         = (Return 0, s', t1 ++ publish_events the_pdev)
         /\ global_dev s' = Some the_pdev.
Proof.
  do 3 eexists. split; [vm_compute; reflexivity |].
  eapply (registration_results_ignored board the_pdev boot).
  vm_compute; reflexivity.
Defined.

(** ** C2: the count checks *)

Lemma check_rejects_holds `{lms2012_h} (K : kernel) (c : count_check) :
  declared_count K c <> Z.of_nat INPUTS -> check_rejects K c.
Proof.
  intros Hne. destruct c; simpl in *; intros s;
    unfold probe_count_in_ports, probe_read_i2cs, probe_count_uarts,
      count_error, bind, emit, return_; simpl.
  - destruct (_ <? 0) eqn:Hneg; [reflexivity |].
    destruct (_ =? _) eqn:Heq; [lia | reflexivity].
  - destruct (_ =? _) eqn:Heq; [lia |]. simpl.
    destruct (_ <? 0); reflexivity.
  - destruct (_ <? 0) eqn:Hneg; [reflexivity |].
    destruct (_ =? _) eqn:Heq; [lia | reflexivity].
Qed.

(** C2 as stated does not hold: with five entries in "in-i2cs" the probe
    fails with [-EINVAL] only after it has claimed the four pin-control
    handles, the SPI group and the four input-port GPIO groups. *)
Lemma count_mismatch_claims_resources_first :
  declared_count board_five_i2cs I2cCount = 5
  /\ Z.of_nat INPUTS = 4
  /\ let r := lms2012_compat_probe board_five_i2cs the_pdev register_ok boot in
     r.1.1 = Return (-E EINVAL)
     /\ provider_claims r.2
        = [RNode 10; RPortDev 20; RPinctrl 20; RNode 11; RPortDev 21;
           RPinctrl 21; RNode 12; RPortDev 22; RPinctrl 22; RNode 13;
           RPortDev 23; RPinctrl 23; RGpiod "spi"; RGpiod "in1";
           RGpiod "in2"; RGpiod "in3"; RGpiod "in4"]%nat.
Proof. vm_compute. repeat split. Qed.

(** ** C7: the ADC channel map *)

Lemma adc_read_error `{lms2012_h} (K : kernel) :
  adc_channels_short K ->
  exists e, of_property_read_u32_array (k_adc_channels K) INPUTADC = KErr e.
Proof.
  unfold adc_channels_short, of_property_read_u32_array.
  destruct (k_adc_channels K) as [| | cells]; intros Hs; eauto.
  destruct (Nat.ltb_spec (length cells) INPUTADC); [eauto | lia].
Qed.

Lemma adc_read_ok `{lms2012_h} (K : kernel) (map : list Z) :
  of_property_read_u32_array (k_adc_channels K) INPUTADC = KOk map ->
  exists cells,
    k_adc_channels K = PropCells cells
    /\ (INPUTADC <= length cells)%nat
    /\ map = take INPUTADC cells.
Proof.
  unfold of_property_read_u32_array.
  destruct (k_adc_channels K) as [| | cells]; try discriminate.
  destruct (Nat.ltb_spec (length cells) INPUTADC); [discriminate |].
  intros [= <-]. eauto.
Qed.

(** C7 as stated does not hold: a property of five cells, one more than
    INPUTADC, is accepted; the probe succeeds and keeps the first four. *)
Lemma adc_channels_longer_is_accepted :
  of_property_count_u32_elems (k_adc_channels board_five_adc_channels) = 5
  /\ Z.of_nat INPUTADC = 4
  /\ let r := lms2012_compat_probe board_five_adc_channels the_pdev
                register_ok boot in
     r.1.1 = Return 0
     /\ adc_map <$> drvdata r.1.2 the_pdev = Some [0; 1; 2; 3].
Proof. vm_compute. repeat split. Qed.

(** ** C1, C4, C5: what stays claimed after a discarded attempt *)

(** C1.  On the board whose second I2C adapter is not registered yet, the
    probe takes adapter 1, fails with [-EPROBE_DEFER] and the driver core
    unwinds the devres list; the release callback then puts a NULL
    adapter, so adapter 1 has been claimed once and released never.  On
    the good board, probe followed by removal and unwinding leaves all
    four adapters claimed in the same way. *)
Theorem i2c_adapters_are_never_put :
  (let '(x, _, t) :=
     really_probe board_adapter2_missing the_pdev register_ok boot in
   x = Return (-E EPROBE_DEFER)
   /\ claimed (RI2c 1) t = 1%nat
   /\ released (RI2c 1) t = 0%nat
   /\ outstanding t
      = [RNode 10; RPinctrl 20; RNode 11; RPinctrl 21; RNode 12;
         RPinctrl 22; RNode 13; RPinctrl 23; RI2c 1]%nat)
  /\ (let '(x1, s1, t1) := really_probe board the_pdev register_ok boot in
      let '(x2, _, t2) := device_release_driver the_pdev s1 in
      x1 = Return 0 /\ x2 = Return 0
      /\ map (fun nr => (claimed (RI2c nr) (t1 ++ t2),
                         released (RI2c nr) (t1 ++ t2))) [1; 2; 3; 4]
         = [(1, 0); (1, 0); (1, 0); (1, 0)]%nat
      /\ outstanding (t1 ++ t2)
         = [RNode 10; RPinctrl 20; RNode 11; RPinctrl 21; RNode 12;
            RPinctrl 22; RNode 13; RPinctrl 23; RI2c 1; RI2c 2; RI2c 3;
            RI2c 4]%nat).
Proof. vm_compute. repeat split. Qed.

(** C4.  A PWM channel that is not ready makes probe return
    [-EPROBE_DEFER] unchanged, and so does an I2C adapter that is not
    registered; but after the unwinding the I2C adapters taken earlier in
    the attempt are still claimed. *)
Theorem deferred_probe_keeps_i2c_adapters :
  (let '(x, _, t) :=
     really_probe board_pwm_deferred the_pdev register_ok boot in
   x = Return (-E EPROBE_DEFER)
   /\ outstanding t
      = [RNode 10; RPinctrl 20; RNode 11; RPinctrl 21; RNode 12;
         RPinctrl 22; RNode 13; RPinctrl 23; RI2c 1; RI2c 2; RI2c 3;
         RI2c 4]%nat)
  /\ (let '(x, _, t) :=
        really_probe board_adapter2_missing the_pdev register_ok boot in
      x = Return (-E EPROBE_DEFER)
      /\ In (RI2c 1) (outstanding t)).
Proof. vm_compute. repeat split. right; auto 20. Qed.

(** C5.  A GPIO group of the wrong size makes probe return [-EINVAL].
    When the group is an output port's, the four I2C adapters taken
    before are still claimed after the unwinding; when it is the SPI
    group, the pin-control handles taken on the input ports' devices and
    the node references of the first loop are. *)
Theorem wrong_arity_keeps_resources :
  (let '(x, _, t) :=
     really_probe board_outA_four_lines the_pdev register_ok boot in
   x = Return (-E EINVAL)
   /\ outstanding t
      = [RNode 10; RPinctrl 20; RNode 11; RPinctrl 21; RNode 12;
         RPinctrl 22; RNode 13; RPinctrl 23; RI2c 1; RI2c 2; RI2c 3;
         RI2c 4]%nat)
  /\ (let '(x, _, t) :=
        really_probe board_spi_five_lines the_pdev register_ok boot in
      x = Return (-E EINVAL)
      /\ outstanding t
         = [RNode 10; RPinctrl 20; RNode 11; RPinctrl 21; RNode 12;
            RPinctrl 22; RNode 13; RPinctrl 23]%nat).
Proof. vm_compute. repeat split. Qed.

(** ** C6: the unchecked devres_alloc *)

(** C6.  When devres_alloc fails for the first UART's clock payload, the
    probe does not return [-ENOMEM]: it calls of_clk_get_by_name and then
    stores the result through the NULL pointer. *)
Theorem clk_payload_allocation_is_not_checked :
  let '(x, _, t) :=
    lms2012_compat_probe board_clk_alloc_fails the_pdev register_ok boot in
  x = Fault NullDeref
  /\ x <> Return (-E ENOMEM)
  /\ drop (length t - 2) t
     = [EvQuery "clock-frequency"; EvAcquire (RClk 30%nat)].
Proof. vm_compute. repeat split. discriminate. Qed.

(** * Further properties of the driver *)

(** ** What a probe attempt leaves behind *)

Lemma same_instance_devres_add (s0 : kstate) (dev : device)
  (n : devres_node) :
  preserves (same_instance s0) (devres_add dev n).
Proof. intros s Hs. exact Hs. Qed.

Ltac frame_step :=
  lazymatch goal with
  | |- preserves _ (bind _ _) => apply preserves_bind; [| intros ?]
  | |- preserves _ (for_upto _ _ _) => apply preserves_for_each; intros ? ?
  | |- preserves _ (devres_add _ _) => apply same_instance_devres_add
  | |- preserves _ (match ?x with _ => _ end) => destruct x
  | |- preserves _ (if ?b then _ else _) => destruct b
  | |- preserves _ _ => apply preserves_same; reflexivity
  end.

Ltac frame_auto :=
  repeat first
    [ progress
        unfold devm_kzalloc, devm_pinctrl_get_select_default,
          devm_gpiod_get_array, devm_gpiod_get_optional,
          devm_ioremap_resource, devm_pwm_get, i2c_get_adapter,
          of_clk_get_by_name, clk_prepare_enable, devres_alloc, devres_free,
          of_node_put, platform_device_put
    | progress cbv zeta
    | frame_step ].

Lemma lms2012_compat_acquire_same_instance `{lms2012_h} (K : kernel)
  (pdev : device) (s0 : kstate) :
  preserves (same_instance s0) (lms2012_compat_acquire K pdev).
Proof.
  unfold lms2012_compat_acquire, probe_count_in_ports, probe_in_port,
    probe_adc_channels, probe_spi_pins, probe_in_pins, probe_read_i2cs,
    probe_i2c_adapter, probe_count_uarts, probe_uart, probe_out_pins,
    probe_out_pwm.
  frame_auto.
Qed.

Lemma acquire_needs_no_instance `{lms2012_h} (K : kernel) (pdev : device)
  (s s1 : kstate) (lms : lms2012_compat) (t : list event) :
  lms2012_compat_acquire K pdev s = (inl lms, s1, t) -> global_dev s = None.
Proof.
  unfold lms2012_compat_acquire, bind, gets.
  destruct (global_dev s); [discriminate | reflexivity].
Qed.

(** X1.  The three ways a probe can end.  It returns 0 only if no instance
    was active, and then the probed device is the active instance.  It
    returns a negative code, never a positive one, and then the global
    pointer, all use-counts and all drvdata are what they were, and no
    publication or registration event has been emitted.  If it dies in an
    undefined access, the same holds. *)
Theorem probe_publishes_or_leaves_no_trace `{lms2012_h} (K : kernel)
  (pdev : device) (register_simple : string -> kptr string) (s : kstate) :
  let '(x, s', t) := lms2012_compat_probe K pdev register_simple s in
  match x with
  | Return code =>
      (code = 0 /\ global_dev s = None /\ global_dev s' = Some pdev)
      \/ (code < 0 /\ same_instance s s' /\ Forall (upto 6) t)
  | Fault _ => same_instance s s' /\ Forall (upto 6) t
  end.
Proof.
  pose proof (lms2012_compat_acquire_spec K pdev s) as Hspec.
  pose proof (lms2012_compat_acquire_same_instance K pdev s s) as Hframe.
  unfold lms2012_compat_probe, call, bind.
  destruct (lms2012_compat_acquire K pdev s) as [[[lms | x] s1] t1] eqn:Hacq.
  - destruct (lms2012_compat_publish_run pdev register_simple lms s1)
      as (s' & -> & Hg & _).
    left. repeat split; [| exact Hg]. by eapply acquire_needs_no_instance.
  - simpl in Hspec, Hframe. destruct Hspec as [Ht Hx].
    assert (Hsame : same_instance s s1) by (apply Hframe; by repeat split).
    destruct x as [code | f]; [right |]; repeat split;
      solve [apply Hsame | exact Ht | exact Hx].
Qed.

(** ** Running to the end, and what that takes *)

Lemma falls_ret {A} (Q : A -> Prop) (a : A) : Q a -> falls Q (ret a).
Proof. intros Ha s. by exists a, s, []. Qed.

Lemma falls_bind {A B} (Q : A -> Prop) (R : B -> Prop) (m : M A)
  (f : A -> M B) :
  falls Q m -> (forall a, Q a -> falls R (f a)) -> falls R (bind m f).
Proof.
  intros Hm Hf s. destruct (Hm s) as (a & s1 & t1 & Hrun & Ha).
  destruct (Hf a Ha s1) as (b & s2 & t2 & Hrun2 & Hb).
  exists b, s2, (t1 ++ t2). unfold bind. by rewrite Hrun, Hrun2.
Qed.

Lemma falls_for_each {A} (idx : list nat) (body : nat -> A -> M A) (a : A) :
  (forall i a', In i idx -> falls any (body i a')) ->
  falls any (for_each idx body a).
Proof.
  revert a. induction idx as [| i idx IH]; intros a Hbody; simpl.
  - by apply falls_ret.
  - eapply falls_bind; [apply Hbody; simpl; auto | intros a' _].
    apply IH. intros j a'' Hj. apply Hbody. simpl. auto.
Qed.

Lemma falls_for_upto {A} (n : nat) (body : nat -> A -> M A) (a : A) :
  (forall i a', (i < n)%nat -> falls any (body i a')) ->
  falls any (for_upto n body a).
Proof.
  intros Hbody. apply falls_for_each. intros i a' Hi. apply Hbody.
  apply in_seq in Hi. lia.
Qed.

Lemma ensures_ret {A} (Q : A -> Prop) (a : A) : Q a -> ensures Q (ret a).
Proof. intros Ha s. exact Ha. Qed.

Lemma ensures_bind {A B} (Q : A -> Prop) (R : B -> Prop) (m : M A)
  (f : A -> M B) :
  ensures Q m -> (forall a, Q a -> ensures R (f a)) -> ensures R (bind m f).
Proof.
  intros Hm Hf s. unfold bind. specialize (Hm s).
  destruct (m s) as [[[a | x] s1] t1]; simpl in *; [| exact I].
  specialize (Hf a Hm s1). by destruct (f a s1) as [[r2 s2] t2].
Qed.

Lemma ensures_weaken {A} (Q Q' : A -> Prop) (m : M A) :
  (forall a, Q a -> Q' a) -> ensures Q m -> ensures Q' m.
Proof.
  intros HQ Hm s. specialize (Hm s).
  destruct ((m s).1.1); [by apply HQ | exact I].
Qed.

(** The loop rule that knows the index: the invariant at [i] holds before
    iteration [i] and the one at [S i] after it. *)
Lemma ensures_for_seq {A} (Inv : nat -> A -> Prop)
  (body : nat -> A -> M A) (n start : nat) (a : A) :
  Inv start a ->
  (forall i a', (start <= i < start + n)%nat -> Inv i a' ->
                ensures (Inv (S i)) (body i a')) ->
  ensures (Inv (start + n)%nat) (for_each (seq start n) body a).
Proof.
  revert start a. induction n as [| n IH]; intros start a Ha Hbody; simpl.
  - rewrite Nat.add_0_r. by apply ensures_ret.
  - eapply ensures_bind; [apply Hbody; [lia | exact Ha] | intros a' Ha'].
    replace (start + S n)%nat with (S start + n)%nat by lia.
    apply IH; [exact Ha' |]. intros i a'' Hi. apply Hbody. lia.
Qed.

Lemma ensures_for_upto {A} (Inv : nat -> A -> Prop)
  (body : nat -> A -> M A) (n : nat) (a : A) :
  Inv 0%nat a ->
  (forall i a', (i < n)%nat -> Inv i a' -> ensures (Inv (S i)) (body i a')) ->
  ensures (Inv n) (for_upto n body a).
Proof.
  intros Ha Hbody. unfold for_upto.
  apply (ensures_for_seq Inv body n 0%nat a Ha).
  intros i a' Hi. apply Hbody. lia.
Qed.

Ltac unfold_services :=
  unfold devm_kzalloc, devm_pinctrl_get_select_default,
    devm_gpiod_get_array, devm_gpiod_get_optional, devm_ioremap_resource,
    devm_pwm_get, i2c_get_adapter, of_clk_get_by_name, clk_prepare_enable,
    devres_alloc, devres_free, of_node_put, platform_device_put,
    devres_add, bind, emit, emits, modify, ret, return_, fault_, gets.

(** Follow the path that the hypotheses about the board select; where
    they say nothing, both ways are taken. *)
Ltac follow :=
  repeat
    (first
       [ match goal with
         | H : ?x = _ |- context [match ?x with _ => _ end] => rewrite H
         | H : ?x = _ |- context [if ?x then _ else _] => rewrite H
         end
       | rewrite Nat.eqb_refl
       | rewrite Z.eqb_refl
       | match goal with
         | |- context [if ?x <? 0 then _ else _] =>
             destruct (Z.ltb_spec x 0); [lia |]
         | |- context [match ?x with _ => _ end] =>
             lazymatch x with
             | context [match _ with _ => _ end] => fail
             | _ => destruct x eqn:?; try discriminate
             end
         end ];
     simpl).

Ltac fell :=
  first
    [ by eexists _, _, _
    | match goal with
      | Hn : ?a = ?b, Hb : negb (?a =? ?b)%nat = true |- _ =>
          rewrite Hn, Nat.eqb_refl in Hb; discriminate
      end
    | exfalso; lia
    | exfalso; congruence ].

Lemma bind_gets {A B} (g : kstate -> A) (f : A -> M B) (s : kstate) :
  bind (gets g) f s = f (g s) s.
Proof. unfold bind, gets. by destruct (f (g s) s) as [[r s2] t2]. Qed.

Section Falls.

Context `{lms2012_h} (K : kernel) (pdev : device).

Lemma devm_kzalloc_falls :
  k_kzalloc_lms K = true ->
  falls (fun o => o = Some zeroed_lms) (devm_kzalloc K pdev).
Proof. intros Hz s. unfold_services. rewrite Hz. by eexists _, _, _. Qed.

Lemma probe_count_in_ports_falls :
  of_count_phandle_with_args (k_in_in_ports K) = Z.of_nat INPUTS ->
  falls any (probe_count_in_ports K).
Proof.
  intros Hc s. unfold probe_count_in_ports. unfold_services. simpl.
  follow. all: fell.
Qed.

Lemma probe_in_port_falls i lms :
  in_port_ok K i -> falls any (probe_in_port K i lms).
Proof.
  intros (np & d & Hp & Hf & Hpin) s. unfold probe_in_port. unfold_services.
  simpl. follow. all: fell.
Qed.

Lemma probe_adc_channels_falls lms :
  adc_ok K -> falls any (probe_adc_channels K lms).
Proof.
  intros (cells & Hc & Hlen) s.
  unfold probe_adc_channels, of_property_read_u32_array. unfold_services.
  rewrite Hc. simpl.
  destruct (Nat.ltb_spec (length cells) INPUTADC); [lia |]. fell.
Qed.

Lemma probe_spi_pins_falls lms :
  spi_ok K -> falls any (probe_spi_pins K pdev lms).
Proof.
  intros (descs & Hg & Hn) s. unfold probe_spi_pins. unfold_services.
  simpl. follow. all: fell.
Qed.

Lemma probe_in_pins_falls i lms :
  in_pins_ok K i -> falls any (probe_in_pins K pdev i lms).
Proof.
  intros (Hopt & descs & Hg & Hn) s. unfold in_pin2_name, in_name in *.
  unfold probe_in_pins. unfold_services. simpl.
  follow. all: fell.
Qed.

Lemma probe_read_i2cs_falls :
  i2cs_ok K ->
  falls (fun i2c_adapters => forall i, (i < INPUTS)%nat ->
                                       i2c_ok K i2c_adapters i)
    (probe_read_i2cs K).
Proof.
  intros (cells & Hc & Hlen & Hok) s.
  unfold probe_read_i2cs, of_property_count_u32_elems,
    of_property_read_u32_array.
  unfold_services. rewrite Hc, Hlen. simpl.
  rewrite Z.eqb_refl, Nat.ltb_irrefl. simpl.
  do 3 eexists. split; [reflexivity |].
  rewrite <- Hlen, firstn_all, Hlen. exact Hok.
Qed.

Lemma probe_i2c_adapter_falls i2c_adapters i lms :
  i2c_ok K i2c_adapters i ->
  falls any (probe_i2c_adapter K pdev i2c_adapters i lms).
Proof.
  intros (Hget & Halloc) s. unfold probe_i2c_adapter. unfold_services.
  simpl. follow. all: fell.
Qed.

Lemma probe_count_uarts_falls :
  of_count_phandle_with_args (k_in_uarts K) = Z.of_nat INPUTS ->
  falls any (probe_count_uarts K).
Proof.
  intros Hc s. unfold probe_count_uarts. unfold_services. simpl.
  follow. all: fell.
Qed.

Lemma probe_uart_falls i lms :
  uart_ok K i -> falls any (probe_uart K pdev i lms).
Proof.
  intros (np & res & freq & Hp & Ha & Hm & Hirq & Hfreq & Hal & Hclk & Hen) s.
  unfold probe_uart. unfold_services.
  simpl. follow. all: fell.
Qed.

Lemma probe_out_pins_falls i lms :
  out_pins_ok K i -> falls any (probe_out_pins K pdev i lms).
Proof.
  intros (descs & Hg & Hn) s. unfold out_name in *.
  unfold probe_out_pins. unfold_services. simpl.
  follow. all: fell.
Qed.

Lemma probe_out_pwm_falls i lms :
  out_pwm_ok K i -> falls any (probe_out_pwm K pdev i lms).
Proof.
  intros Hpwm s. unfold out_pwm_ok, out_name in *.
  unfold probe_out_pwm. unfold_services. simpl.
  follow. all: fell.
Qed.

Lemma lms2012_compat_acquire_falls s :
  global_dev s = None -> board_ok K ->
  exists lms s' t, lms2012_compat_acquire K pdev s = (inl lms, s', t).
Proof.
  intros Hg [Hz Hic Hin Hadc Hspi Hpins Hi2c Huc Hu Hop Hpwm].
  assert (Hrest : falls any
    (lms <- devm_kzalloc K pdev ;;
     match lms with
     | None => return_ (-E ENOMEM)
     | Some lms =>
         probe_count_in_ports K ;;
         lms <- for_upto INPUTS (probe_in_port K) lms ;;
         lms <- probe_adc_channels K lms ;;
         lms <- probe_spi_pins K pdev lms ;;
         lms <- for_upto INPUTS (probe_in_pins K pdev) lms ;;
         i2c_adapters <- probe_read_i2cs K ;;
         lms <- for_upto INPUTS (probe_i2c_adapter K pdev i2c_adapters) lms ;;
         probe_count_uarts K ;;
         lms <- for_upto INPUTS (probe_uart K pdev) lms ;;
         lms <- for_upto OUTPUTS (probe_out_pins K pdev) lms ;;
         lms <- for_upto OUTPUTS (probe_out_pwm K pdev) lms ;;
         ret lms
     end)).
  { eapply falls_bind; [by apply devm_kzalloc_falls | intros o ->].
    eapply falls_bind; [by apply probe_count_in_ports_falls | intros _ _].
    eapply falls_bind;
      [apply falls_for_upto; intros; by apply probe_in_port_falls, Hin
      | intros l1 _].
    eapply falls_bind; [by apply probe_adc_channels_falls | intros l2 _].
    eapply falls_bind; [by apply probe_spi_pins_falls | intros l3 _].
    eapply falls_bind;
      [apply falls_for_upto; intros; by apply probe_in_pins_falls, Hpins
      | intros l4 _].
    eapply falls_bind; [by apply probe_read_i2cs_falls | intros arr Harr].
    eapply falls_bind;
      [apply falls_for_upto; intros; by apply probe_i2c_adapter_falls, Harr
      | intros l5 _].
    eapply falls_bind; [by apply probe_count_uarts_falls | intros _ _].
    eapply falls_bind;
      [apply falls_for_upto; intros; by apply probe_uart_falls, Hu
      | intros l6 _].
    eapply falls_bind;
      [apply falls_for_upto; intros; by apply probe_out_pins_falls, Hop
      | intros l7 _].
    eapply falls_bind;
      [apply falls_for_upto; intros; by apply probe_out_pwm_falls, Hpwm
      | intros l8 _].
    by apply falls_ret. }
  destruct (Hrest s) as (lms & s' & t & Hrun & _).
  exists lms, s', t. unfold lms2012_compat_acquire.
  rewrite bind_gets, Hg. exact Hrun.
Qed.

End Falls.

(** What a step that ran to its end has found on the board. *)
Ltac found :=
  try exact I;
  repeat match goal with u : unit |- _ => destruct u end;
  repeat
    match goal with
    | H : negb (_ =? _)%nat = false |- _ =>
        apply negb_false_iff, Nat.eqb_eq in H
    | H : negb (_ =? _) = false |- _ => apply negb_false_iff, Z.eqb_eq in H
    end;
  repeat (eexists || split); eauto;
  try (repeat match goal with H : _ = _ |- _ => rewrite H end; reflexivity);
  try lia.

Section Needs.

Context `{lms2012_h} (K : kernel) (pdev : device).

Lemma devm_kzalloc_needs :
  ensures (fun o => o <> None -> k_kzalloc_lms K = true) (devm_kzalloc K pdev).
Proof.
  intros s. unfold_services. destruct (k_kzalloc_lms K); simpl; congruence.
Qed.

Lemma probe_count_in_ports_needs :
  ensures
    (fun _ => of_count_phandle_with_args (k_in_in_ports K) = Z.of_nat INPUTS)
    (probe_count_in_ports K).
Proof.
  intros s. unfold probe_count_in_ports. unfold_services. simpl.
  follow; found.
Qed.

Lemma probe_in_port_needs i lms :
  ensures (fun _ => in_port_ok K i) (probe_in_port K i lms).
Proof.
  intros s. unfold probe_in_port, in_port_ok. unfold_services. simpl.
  follow; found.
Qed.

Lemma probe_adc_channels_needs lms :
  ensures (fun _ => adc_ok K) (probe_adc_channels K lms).
Proof.
  intros s. unfold probe_adc_channels, adc_ok, of_property_read_u32_array.
  unfold_services. simpl.
  destruct (k_adc_channels K) as [| | cells]; simpl; try exact I.
  destruct (Nat.ltb_spec (length cells) INPUTADC); simpl; [exact I |].
  eauto.
Qed.

Lemma probe_spi_pins_needs lms :
  ensures (fun _ => spi_ok K) (probe_spi_pins K pdev lms).
Proof.
  intros s. unfold probe_spi_pins, spi_ok. unfold_services. simpl.
  follow; found.
Qed.

Lemma probe_in_pins_needs i lms :
  ensures (fun _ => in_pins_ok K i) (probe_in_pins K pdev i lms).
Proof.
  intros s. unfold probe_in_pins, in_pins_ok, in_pin2_name, in_name.
  unfold_services. simpl. follow; found.
Qed.

Lemma probe_uart_needs i lms :
  ensures (fun _ => uart_ok K i) (probe_uart K pdev i lms).
Proof.
  intros s. unfold probe_uart, uart_ok. unfold_services. simpl.
  follow; found.
Qed.

Lemma probe_read_i2cs_needs :
  ensures
    (fun i2c_adapters =>
       k_in_i2cs K = PropCells i2c_adapters
       /\ length i2c_adapters = INPUTS)
    (probe_read_i2cs K).
Proof.
  intros s.
  unfold probe_read_i2cs, of_property_count_u32_elems,
    of_property_read_u32_array.
  unfold_services. simpl.
  destruct (k_in_i2cs K) as [| | cells]; simpl; [follow; exact I.. |].
  destruct (Z.eqb_spec (Z.of_nat (length cells)) (Z.of_nat INPUTS)) as [He |];
    simpl; [| by destruct (_ <? 0)].
  apply Nat2Z.inj in He. rewrite He, Nat.ltb_irrefl. simpl.
  by rewrite <- He, firstn_all.
Qed.

Lemma probe_i2c_adapter_needs i2c_adapters i lms :
  ensures (fun _ => i2c_ok K i2c_adapters i)
    (probe_i2c_adapter K pdev i2c_adapters i lms).
Proof.
  intros s. unfold probe_i2c_adapter, i2c_ok. unfold_services. simpl.
  follow; found.
Qed.

Lemma probe_count_uarts_needs :
  ensures
    (fun _ => of_count_phandle_with_args (k_in_uarts K) = Z.of_nat INPUTS)
    (probe_count_uarts K).
Proof.
  intros s. unfold probe_count_uarts. unfold_services. simpl.
  follow; found.
Qed.

Lemma probe_out_pins_needs i lms :
  ensures (fun _ => out_pins_ok K i) (probe_out_pins K pdev i lms).
Proof.
  intros s. unfold probe_out_pins, out_pins_ok, out_name.
  unfold_services. simpl. follow; found.
Qed.

Lemma probe_out_pwm_needs i lms :
  ensures (fun _ => out_pwm_ok K i) (probe_out_pwm K pdev i lms).
Proof.
  intros s. unfold probe_out_pwm, out_pwm_ok, out_name.
  unfold_services. simpl. follow; found.
Qed.

End Needs.

(** A loop that ran to its end has found what each iteration needs. *)
Lemma ensures_every {A} (C : nat -> Prop) (body : nat -> A -> M A)
  (n : nat) (a : A) :
  (forall i a', ensures (fun _ => C i) (body i a')) ->
  ensures (fun _ => forall i, (i < n)%nat -> C i) (for_upto n body a).
Proof.
  intros Hbody.
  apply (ensures_for_upto (fun k _ => forall i, (i < k)%nat -> C i)).
  - intros i Hi. lia.
  - intros k a' _ Hk. eapply ensures_weaken; [| apply Hbody].
    intros a0 Hc i Hi. destruct (decide (i = k)) as [-> | Hne];
      [exact Hc | apply Hk; lia].
Qed.

Lemma lms2012_compat_acquire_needs `{lms2012_h} (K : kernel) (pdev : device) :
  ensures (fun _ => board_ok K) (lms2012_compat_acquire K pdev).
Proof.
  unfold lms2012_compat_acquire.
  eapply (ensures_bind any); [intros s; exact I | intros [d |] _];
    [intros s; exact I |].
  eapply ensures_bind; [apply devm_kzalloc_needs | intros [lms |] Hz];
    [| intros s; exact I].
  eapply ensures_bind; [apply probe_count_in_ports_needs | intros u1 Hic].
  eapply ensures_bind;
    [apply ensures_every; intros; apply probe_in_port_needs | intros l1 Hin].
  eapply ensures_bind; [apply probe_adc_channels_needs | intros l2 Hadc].
  eapply ensures_bind; [apply probe_spi_pins_needs | intros l3 Hspi].
  eapply ensures_bind;
    [apply ensures_every; intros; apply probe_in_pins_needs | intros l4 Hpins].
  eapply ensures_bind; [apply probe_read_i2cs_needs | intros arr [Hc Hlen]].
  eapply ensures_bind;
    [apply ensures_every; intros; apply probe_i2c_adapter_needs
    | intros l5 Hi2c].
  eapply ensures_bind; [apply probe_count_uarts_needs | intros u2 Huc].
  eapply ensures_bind;
    [apply ensures_every; intros; apply probe_uart_needs | intros l6 Hu].
  eapply ensures_bind;
    [apply ensures_every; intros; apply probe_out_pins_needs | intros l7 Hop].
  eapply ensures_bind;
    [apply ensures_every; intros; apply probe_out_pwm_needs | intros l8 Hpwm].
  apply ensures_ret. constructor; auto. by exists arr.
Qed.

(** X2.  Probe returns 0 exactly when no instance is active and the board
    is one on which every step goes through: the three lists count
    INPUTS entries, every phandle resolves, every group has its arity, the
    channel map has at least INPUTADC cells, every provider and both kinds
    of devres payload are there. *)
Theorem probe_succeeds_iff_board_ok `{lms2012_h} (K : kernel) (pdev : device)
  (register_simple : string -> kptr string) (s : kstate) :
  (lms2012_compat_probe K pdev register_simple s).1.1 = Return 0
  <-> global_dev s = None /\ board_ok K.
Proof.
  split.
  - intros Hr.
    destruct (lms2012_compat_probe K pdev register_simple s)
      as [[x s'] t] eqn:Hp.
    simpl in Hr. subst x.
    destruct (probe_success_inv K pdev register_simple s s' t Hp)
      as (lms & s1 & t1 & Hacq & _).
    split; [by eapply acquire_needs_no_instance |].
    pose proof (lms2012_compat_acquire_needs K pdev s) as Hn.
    by rewrite Hacq in Hn.
  - intros [Hg Hok].
    destruct (lms2012_compat_acquire_falls K pdev s Hg Hok)
      as (lms & s1 & t1 & Hacq).
    destruct (probe_of_acquire K pdev register_simple s lms s1 t1 Hacq)
      as (s' & Hp & _).
    by rewrite Hp.
Qed.

Ltac each_port :=
  let i := fresh "i" in
  let Hi := fresh "Hi" in
  intros i Hi;
  do 4 (destruct i as [| i];
        [ repeat (eexists || split);
          first [ reflexivity | vm_compute; reflexivity
                | vm_compute; discriminate ] |]);
  exfalso; simpl in Hi; lia.

Lemma board_is_ok : board_ok board.
Proof.
  constructor; try each_port.
  - reflexivity.
  - reflexivity.
  - exists [0; 1; 2; 3]. split; [reflexivity | simpl; lia].
  - eexists. split; reflexivity.
  - exists [1; 2; 3; 4]. split; [reflexivity |]. split; [reflexivity |].
    each_port.
  - reflexivity.
Qed.

Lemma probe_succeeds_iff_board_ok_witness :
  (global_dev boot = None /\ board_ok board)
  /\ (lms2012_compat_probe board the_pdev register_ok boot).1.1 = Return 0.
Proof.
  assert (Hok : global_dev boot = None /\ board_ok board)
    by (split; [reflexivity | exact board_is_ok]).
  split; [exact Hok |].
  exact (proj2 (probe_succeeds_iff_board_ok board the_pdev register_ok boot)
           Hok).
Defined.

(** ** The published bundle is complete *)

(** What the board has said on the path taken settles what the slot
    holds. *)
Ltac board_says :=
  first
    [ eassumption
    | reflexivity
    | lia
    | congruence
    | match goal with
      | H : ?x = _ |- context [?x] =>
          rewrite H; first [reflexivity | lia | congruence]
      end ].

(** One more slot: the arrays keep their sizes, the slots filled before
    are as they were, the new slot holds what the step has just put. *)
Ltac slot i :=
  first
    [ assumption
    | let j := fresh "j" in
      let Hj := fresh "Hj" in
      intros j Hj;
      destruct (decide (j = i)) as [-> | ?];
      [ unfold in_port_filled, in_pins_filled, i2c_filled, uart_filled,
          out_pins_filled, out_pwm_filled, in_pin2_name, in_name, out_name;
        simpl;
        rewrite ?list_lookup_insert_eq by lia;
        repeat (eexists || split); board_says
      | let Hold := fresh "Hold" in
        match goal with
        | H : forall k, (k < i)%nat -> _ |- _ =>
            pose proof (H j ltac:(lia)) as Hold
        end;
        unfold in_port_filled, in_pins_filled, i2c_filled, uart_filled,
          out_pins_filled, out_pwm_filled in *; simpl;
        rewrite ?list_lookup_insert_ne by congruence;
        exact Hold ]
    | intros _; unfold spi_filled; simpl;
      repeat (eexists || split); board_says ].

Ltac refill i :=
  try exact I;
  repeat
    match goal with
    | H : negb (_ =? _)%nat = false |- _ =>
        apply negb_false_iff, Nat.eqb_eq in H
    | H : (_ <? 0) = false |- _ => apply Z.ltb_ge in H
    end;
  lazymatch goal with
  | Hinv : filled_to _ _ _ _ _ _ _ _ _ |- filled_to _ _ _ _ _ _ _ _ _ =>
      let Hsz := fresh "Hsz" in
      destruct Hinv as (Hsz & ? & ? & ? & ? & ? & ? & ?);
      pose proof Hsz as (? & ? & ? & ? & ? & ? & ? & ? & ? & ? & ?);
      unfold filled_to;
      split;
      [ unfold sized; simpl; rewrite ?length_insert;
        repeat split; assumption |];
      do 6 (split; [slot i |]); slot i
  end.

Section Filling.

Context `{lms2012_h} (K : kernel) (pdev : device).

Lemma zeroed_lms_sized : filled_to K 0 false 0 0 0 0 0 zeroed_lms.
Proof.
  unfold filled_to, sized. simpl. rewrite !length_replicate.
  repeat split; try reflexivity; try discriminate; intros; lia.
Qed.

Lemma probe_in_port_fills i spi b c d e f lms :
  (i < INPUTS)%nat ->
  filled_to K i spi b c d e f lms ->
  ensures (filled_to K (S i) spi b c d e f) (probe_in_port K i lms).
Proof.
  intros Hi Hinv s. unfold probe_in_port. unfold_services. simpl.
  follow. all: refill i.
Qed.

Lemma probe_adc_channels_fills a spi b c d e f lms :
  filled_to K a spi b c d e f lms ->
  ensures (filled_to K a spi b c d e f) (probe_adc_channels K lms).
Proof.
  intros Hinv s. unfold probe_adc_channels. unfold_services. simpl.
  follow. all: refill 0%nat.
Qed.

Lemma probe_spi_pins_fills a spi b c d e f lms :
  filled_to K a spi b c d e f lms ->
  ensures (filled_to K a true b c d e f) (probe_spi_pins K pdev lms).
Proof.
  intros Hinv s. unfold probe_spi_pins. unfold_services. simpl.
  follow. all: refill 0%nat.
Qed.

Lemma probe_in_pins_fills i a spi c d e f lms :
  (i < INPUTS)%nat ->
  filled_to K a spi i c d e f lms ->
  ensures (filled_to K a spi (S i) c d e f) (probe_in_pins K pdev i lms).
Proof.
  intros Hi Hinv s. unfold probe_in_pins. unfold_services. simpl.
  follow. all: refill i.
Qed.

Lemma probe_i2c_adapter_fills i2c_adapters i a spi b d e f lms :
  k_in_i2cs K = PropCells i2c_adapters ->
  (i < INPUTS)%nat ->
  filled_to K a spi b i d e f lms ->
  ensures (filled_to K a spi b (S i) d e f)
    (probe_i2c_adapter K pdev i2c_adapters i lms).
Proof.
  intros Hcells Hi Hinv s. unfold probe_i2c_adapter. unfold_services. simpl.
  follow. all: refill i.
Qed.

Lemma probe_uart_fills i a spi b c e f lms :
  (i < INPUTS)%nat ->
  filled_to K a spi b c i e f lms ->
  ensures (filled_to K a spi b c (S i) e f) (probe_uart K pdev i lms).
Proof.
  intros Hi Hinv s. unfold probe_uart. unfold_services. simpl.
  follow. all: refill i.
Qed.

Lemma probe_out_pins_fills i a spi b c d f lms :
  (i < OUTPUTS)%nat ->
  filled_to K a spi b c d i f lms ->
  ensures (filled_to K a spi b c d (S i) f) (probe_out_pins K pdev i lms).
Proof.
  intros Hi Hinv s. unfold probe_out_pins. unfold_services. simpl.
  follow. all: refill i.
Qed.

Lemma probe_out_pwm_fills i a spi b c d e lms :
  (i < OUTPUTS)%nat ->
  filled_to K a spi b c d e i lms ->
  ensures (filled_to K a spi b c d e (S i)) (probe_out_pwm K pdev i lms).
Proof.
  intros Hi Hinv s. unfold probe_out_pwm. unfold_services. simpl.
  follow. all: refill i.
Qed.

End Filling.

Lemma lms2012_compat_acquire_fills `{lms2012_h} (K : kernel) (pdev : device) :
  ensures (complete K) (lms2012_compat_acquire K pdev).
Proof.
  unfold lms2012_compat_acquire, complete.
  eapply (ensures_bind any); [intros s; exact I | intros [g |] _];
    [intros s; exact I |].
  eapply (ensures_bind (fun o => o = None \/ o = Some zeroed_lms)).
  { intros s. unfold_services. destruct (k_kzalloc_lms K); simpl; auto. }
  intros [lms |] [Hz | Hz]; try discriminate; try (intros s; exact I).
  injection Hz as ->.
  eapply (ensures_bind any); [intros s; by destruct (_.1.1) | intros _ _].
  eapply ensures_bind.
  { apply (ensures_for_upto (fun k => filled_to K k false 0 0 0 0 0));
      [apply zeroed_lms_sized | intros; by apply probe_in_port_fills]. }
  intros l1 H1.
  eapply ensures_bind;
    [eapply probe_adc_channels_fills; exact H1 | intros l2 H2].
  eapply ensures_bind;
    [eapply probe_spi_pins_fills; exact H2 | intros l3 H3].
  eapply ensures_bind.
  { apply (ensures_for_upto (fun k => filled_to K INPUTS true k 0 0 0 0));
      [exact H3 | intros; by apply probe_in_pins_fills]. }
  intros l4 H4.
  eapply ensures_bind; [apply probe_read_i2cs_needs | intros arr [Harr _]].
  eapply ensures_bind.
  { apply (ensures_for_upto
             (fun k => filled_to K INPUTS true INPUTS k 0 0 0));
      [exact H4 | intros; by apply probe_i2c_adapter_fills]. }
  intros l5 H5.
  eapply (ensures_bind any); [intros s; by destruct (_.1.1) | intros _ _].
  eapply ensures_bind.
  { apply (ensures_for_upto
             (fun k => filled_to K INPUTS true INPUTS INPUTS k 0 0));
      [exact H5 | intros; by apply probe_uart_fills]. }
  intros l6 H6.
  eapply ensures_bind.
  { apply (ensures_for_upto
             (fun k => filled_to K INPUTS true INPUTS INPUTS INPUTS k 0));
      [exact H6 | intros; by apply probe_out_pins_fills]. }
  intros l7 H7.
  eapply ensures_bind.
  { apply (ensures_for_upto
             (fun k =>
                filled_to K INPUTS true INPUTS INPUTS INPUTS OUTPUTS k));
      [exact H7 | intros; by apply probe_out_pwm_fills]. }
  intros l8 H8. by apply ensures_ret.
Qed.

(** X3.  The bundle that a successful probe hangs off the device holds,
    slot by slot, what the board has answered for that very port.  Every
    array has its size.  Slot [i] of the input side holds the pin-control
    handle of the device behind entry [i] of "in-in-ports" with its
    "default" and "i2c" states, the optional line "in<i+1>-pin2", the
    group "in<i+1>" with exactly INPUT_PORT_PINS lines, the adapter whose
    number is cell [i] of "in-i2cs", and the register window, the
    interrupt number (not negative) and the clock frequency of the node
    behind entry [i] of "in-uarts"; slot [i] of the output side holds the
    group and the PWM channel named "out" followed by the [i]-th letter.
    The handles the probe tests are not error pointers: the pin-control
    handle, the optional line, the GPIO groups, the register window and
    the PWM channel.  The two pin states are what pinctrl_lookup_state
    answered, which lines 117-120 store without a test, and the four
    tokens are what the registrations returned: any of these six can be
    an error pointer.  The channel map is the first INPUTADC cells of
    "adc-channels". *)
Theorem published_bundle_is_complete `{lms2012_h} (K : kernel)
  (pdev : device) (register_simple : string -> kptr string)
  (s s' : kstate) (t : list event) :
  lms2012_compat_probe K pdev register_simple s = (Return 0, s', t) ->
  exists lms,
    drvdata s' pdev = Some lms
    /\ complete K lms
    /\ (exists cells,
          k_adc_channels K = PropCells cells
          /\ adc_map lms = take INPUTADC cells)
    /\ d_analog lms = register_simple "d_analog"
    /\ d_iic lms = register_simple "d_iic"
    /\ d_uart lms = register_simple "d_uart"
    /\ d_pwm lms = register_simple "d_pwm".
Proof.
  intros Hp.
  destruct (probe_success_inv K pdev register_simple s s' t Hp)
    as (lms & s1 & t1 & Hacq & _ & Hadc & _ & _ & Hd).
  pose proof (lms2012_compat_acquire_fills K pdev s) as Hfill.
  rewrite Hacq in Hfill. simpl in Hfill.
  destruct (adc_read_ok K _ Hadc) as (cells & Hc & _ & Hmap).
  exists (published register_simple lms).
  split; [exact Hd |]. split; [exact Hfill |].
  split; [by exists cells |]. by repeat split.
Qed.

Lemma published_bundle_is_complete_witness :
  exists s' t,
    lms2012_compat_probe board the_pdev register_ok boot = (Return 0, s', t)
    /\ exists lms,
         drvdata s' the_pdev = Some lms
         /\ complete board lms
         /\ (exists cells,
               k_adc_channels board = PropCells cells
               /\ adc_map lms = take INPUTADC cells)
         /\ d_analog lms = Ptr "d_analog"
         /\ d_iic lms = Ptr "d_iic"
         /\ d_uart lms = Ptr "d_uart"
         /\ d_pwm lms = Ptr "d_pwm".
Proof.
  do 2 eexists. split; [vm_compute; reflexivity |].
  eapply (published_bundle_is_complete board the_pdev register_ok boot).
  vm_compute; reflexivity.
Defined.

(** ** Witnesses of the accounting theorems *)

Lemma managed_resources_are_balanced_witness :
  devres boot the_pdev = []
  /\ (really_probe board_pwm_deferred the_pdev register_ok boot).1.1
     = Return (-E EPROBE_DEFER)
  /\ let '(x, _, t) :=
       really_probe board_pwm_deferred the_pdev register_ok boot in
     match x with
     | Return code =>
         code <> 0 ->
         forall r, managed r = true -> claimed r t = released r t
     | Fault _ => True
     end.
Proof.
  split; [reflexivity |]. split; [vm_compute; reflexivity |].
  apply (managed_resources_are_balanced board_pwm_deferred the_pdev
           register_ok boot).
  reflexivity.
Defined.

Lemma managed_resources_are_balanced_after_removal_witness :
  devres boot the_pdev = []
  /\ exists s1 t1,
       lms2012_compat_probe board the_pdev register_ok boot
       = (Return 0, s1, t1)
       /\ let '(x2, _, t2) := device_release_driver the_pdev s1 in
          x2 = Return 0
          /\ forall r, managed r = true ->
               claimed r (t1 ++ t2) = released r (t1 ++ t2).
Proof.
  split; [reflexivity |].
  do 2 eexists. split; [vm_compute; reflexivity |].
  apply (managed_resources_are_balanced_after_removal board the_pdev
           register_ok boot);
    [reflexivity | vm_compute; reflexivity].
Defined.

Lemma no_i2c_adapter_is_ever_put_witness :
  i2c_payloads_unset boot
  /\ (really_probe board_adapter2_missing the_pdev register_ok boot).1.1
     = Return (-E EPROBE_DEFER)
  /\ let '(x, _, t) :=
       really_probe board_adapter2_missing the_pdev register_ok boot in
     x <> Return (-E ENOMEM) -> forall nr, released (RI2c nr) t = 0%nat.
Proof.
  split; [intros dev; constructor |].
  split; [vm_compute; reflexivity |].
  apply (no_i2c_adapter_is_ever_put board_adapter2_missing the_pdev
           register_ok boot).
  intros dev; constructor.
Defined.

(** ** Where the probe can die *)

Lemma faults_bind {A B} (R : fault -> Prop) (m : M A) (f : A -> M B) :
  faults R m -> (forall a, faults R (f a)) -> faults R (bind m f).
Proof.
  intros Hm Hf s. unfold bind. specialize (Hm s).
  destruct (m s) as [[[a | x] s1] t1]; simpl in *; [| exact Hm].
  specialize (Hf a s1). by destruct (f a s1) as [[r2 s2] t2].
Qed.

Lemma faults_for_each {A} (R : fault -> Prop) (idx : list nat)
  (body : nat -> A -> M A) (a : A) :
  (forall i a', In i idx -> faults R (body i a')) ->
  faults R (for_each idx body a).
Proof.
  revert a. induction idx as [| i idx IH]; intros a Hbody; simpl.
  - intros s. exact I.
  - apply faults_bind; [apply Hbody; simpl; auto | intros a'].
    apply IH. intros j a'' Hj. apply Hbody. simpl. auto.
Qed.

Lemma faults_for_upto {A} (R : fault -> Prop) (n : nat)
  (body : nat -> A -> M A) (a : A) :
  (forall i a', (i < n)%nat -> faults R (body i a')) ->
  faults R (for_upto n body a).
Proof.
  intros Hbody. apply faults_for_each. intros i a' Hi. apply Hbody.
  apply in_seq in Hi. lia.
Qed.

Ltac sound_step :=
  lazymatch goal with
  | |- faults _ (bind _ _) => apply faults_bind; [| intros ?]
  | |- faults _ (for_upto _ _ _) => apply faults_for_upto; intros ? ? ?
  | |- faults _ (match ?x with _ => _ end) => destruct x
  | |- faults _ (if ?b then _ else _) => destruct b
  | |- faults _ _ => intros ?; exact I
  end.

Ltac sound_auto :=
  repeat first
    [ progress
        unfold devm_kzalloc, devm_pinctrl_get_select_default,
          devm_gpiod_get_array, devm_gpiod_get_optional,
          devm_ioremap_resource, devm_pwm_get, i2c_get_adapter,
          of_clk_get_by_name, clk_prepare_enable, devres_alloc, devres_free,
          of_node_put, platform_device_put, devres_add
    | progress cbv zeta
    | sound_step ].

Section Faults.

Context `{lms2012_h} (K : kernel) (pdev : device).

(** Lines 205-284: the only step with an undefined access. *)
Lemma probe_uart_faults i lms :
  (i < INPUTS)%nat -> faults (clk_fault K) (probe_uart K pdev i lms).
Proof.
  intros Hi s. unfold probe_uart, clk_fault. unfold_services. simpl.
  follow; try exact I; exists i; eexists; repeat split; eauto.
Qed.

Lemma lms2012_compat_acquire_faults :
  faults (clk_fault K) (lms2012_compat_acquire K pdev).
Proof.
  unfold lms2012_compat_acquire.
  apply faults_bind; [intros s; exact I | intros [d |]];
    [intros s; exact I |].
  apply faults_bind; [sound_auto | intros [lms |]]; [| intros s; exact I].
  apply faults_bind;
    [unfold probe_count_in_ports; sound_auto | intros u1].
  apply faults_bind; [unfold probe_in_port; sound_auto | intros l1].
  apply faults_bind; [unfold probe_adc_channels; sound_auto | intros l2].
  apply faults_bind; [unfold probe_spi_pins; sound_auto | intros l3].
  apply faults_bind; [unfold probe_in_pins; sound_auto | intros l4].
  apply faults_bind; [unfold probe_read_i2cs; sound_auto | intros arr].
  apply faults_bind; [unfold probe_i2c_adapter; sound_auto | intros l5].
  apply faults_bind; [unfold probe_count_uarts; sound_auto | intros u2].
  apply faults_bind;
    [apply faults_for_upto; intros; by apply probe_uart_faults | intros l6].
  apply faults_bind; [unfold probe_out_pins; sound_auto | intros l7].
  apply faults_bind; [unfold probe_out_pwm; sound_auto | intros l8].
  intros s. exact I.
Qed.

End Faults.

(** X7.  The probe can die in an undefined access only in the clock code
    of the UART loop, with no instance active: either devres_alloc
    returned NULL for a UART's clock payload, which line 259 stores
    through, or the payload was allocated and of_clk_get_by_name failed,
    and line 266 reads the payload that line 263 has just freed.  On a
    board where every payload allocation and every clock lookup succeeds
    the probe always returns. *)
Theorem probe_dies_only_in_clock_code `{lms2012_h} (K : kernel)
  (pdev : device) (register_simple : string -> kptr string)
  (s s' : kstate) (t : list event) (f : fault) :
  lms2012_compat_probe K pdev register_simple s = (Fault f, s', t) ->
  global_dev s = None /\ clk_fault K f.
Proof.
  intros Hp. pose proof (lms2012_compat_acquire_faults K pdev s) as Hf.
  unfold lms2012_compat_probe, call, bind in Hp.
  destruct (lms2012_compat_acquire K pdev s) as [[[lms | x] s1] t1] eqn:Hacq.
  - destruct (lms2012_compat_publish_run pdev register_simple lms s1)
      as (s2 & Hpub & _).
    rewrite Hpub in Hp. discriminate.
  - destruct x as [code | f']; [discriminate |].
    injection Hp as -> _ _. split; [| exact Hf].
    unfold lms2012_compat_acquire in Hacq. rewrite bind_gets in Hacq.
    destruct (global_dev s); [discriminate | reflexivity].
Qed.

Lemma probe_dies_only_in_clock_code_witness :
  (exists s' t,
     lms2012_compat_probe board_clk_alloc_fails the_pdev register_ok boot
     = (Fault NullDeref, s', t)
     /\ global_dev boot = None
     /\ clk_fault board_clk_alloc_fails NullDeref)
  /\ (exists s' t,
        lms2012_compat_probe board_clk_missing the_pdev register_ok boot
        = (Fault UseAfterFree, s', t)
        /\ global_dev boot = None
        /\ clk_fault board_clk_missing UseAfterFree).
Proof.
  split.
  - do 2 eexists. split; [vm_compute; reflexivity |].
    eapply (probe_dies_only_in_clock_code board_clk_alloc_fails the_pdev
              register_ok boot).
    vm_compute; reflexivity.
  - do 2 eexists. split; [vm_compute; reflexivity |].
    eapply (probe_dies_only_in_clock_code board_clk_missing the_pdev
              register_ok boot).
    vm_compute; reflexivity.
Defined.

(** ** One instance at a time *)

Lemma lms2012_compat_publish_frame `{lms2012_h} (pdev : device)
  (register_simple : string -> kptr string) (lms : lms2012_compat)
  (s : kstate) :
  exists s',
    lms2012_compat_publish pdev register_simple lms s
    = (inl 0, s', publish_events pdev)
    /\ global_dev s' = Some pdev
    /\ drvdata s' pdev = Some (published register_simple lms)
    /\ forall d, d <> pdev -> drvdata s' d = drvdata s d.
Proof.
  eexists. split; [reflexivity |]. simpl.
  rewrite !fn_lookup_insert. simpl. repeat split.
  intros d Hd. by rewrite !fn_lookup_insert_ne.
Qed.

(** What the driver core's probe does to the instance state. *)
Lemma really_probe_instance `{lms2012_h} (K : kernel) (pdev : device)
  (register_simple : string -> kptr string) (s : kstate) :
  let '(x, s', _) := really_probe K pdev register_simple s in
  (x = Return 0
   /\ global_dev s = None
   /\ global_dev s' = Some pdev
   /\ drvdata s' pdev <> None
   /\ forall d, d <> pdev -> drvdata s' d = drvdata s d)
  \/ (x <> Return 0
      /\ global_dev s' = global_dev s
      /\ kref s' = kref s
      /\ forall d, d <> pdev -> drvdata s' d = drvdata s d)
     /\ (drvdata s' pdev = None \/ drvdata s' pdev = drvdata s pdev).
Proof.
  pose proof (lms2012_compat_acquire_spec K pdev s) as Hspec.
  pose proof (lms2012_compat_acquire_same_instance K pdev s s) as Hframe.
  unfold really_probe, lms2012_compat_probe, call, bind.
  destruct (lms2012_compat_acquire K pdev s) as [[[lms | x] s1] t1] eqn:Hacq.
  - assert (Hsame : same_instance s s1) by (apply Hframe; by repeat split).
    destruct Hsame as (_ & _ & Hd).
    destruct (lms2012_compat_publish_frame pdev register_simple lms s1)
      as (s' & -> & Hg & Hd' & Hother).
    simpl. left. repeat split; [| exact Hg | congruence |].
    + by eapply acquire_needs_no_instance.
    + intros d Hne. by rewrite Hother, Hd.
  - simpl in Hspec, Hframe. destruct Hspec as [_ Hx].
    assert (Hsame : same_instance s s1) by (apply Hframe; by repeat split).
    destruct Hsame as (Hg & Hk & Hd).
    destruct x as [code | f].
    + destruct (Z.eqb_spec code 0) as [-> | Hne]; [lia |].
      rewrite unwind_events. simpl. right. split; [| left].
      * repeat split; [congruence | exact Hg | exact Hk |].
        intros d Hd'. by rewrite fn_lookup_insert_ne, Hd.
      * by rewrite fn_lookup_insert.
    + right. split; [| right; by rewrite Hd].
      repeat split; [discriminate | exact Hg | exact Hk |].
      intros d _. by rewrite Hd.
Qed.

(** X8.  One instance at a time.  In every state the driver core can
    bring about by probing unbound devices, releasing bound ones and
    calling the accessor, the global pointer names a device exactly when
    that device carries a bundle; so at most one device is bound, and
    [lms2012_compat_get] hands out that device and no other. *)
Theorem one_instance_at_a_time `{lms2012_h} (s : kstate) :
  reachable s ->
  (forall d, global_dev s = Some d <-> drvdata s d <> None)
  /\ (forall d1 d2,
        drvdata s d1 <> None -> drvdata s d2 <> None -> d1 = d2)
  /\ (lms2012_compat_get s).1.1 = inl (global_dev s).
Proof.
  intros Hr.
  assert (Hinv : forall d, global_dev s = Some d <-> drvdata s d <> None).
  { induction Hr as [s Hg Hd | K pdev register_simple s Hr IH Hun
                     | pdev s Hr IH Hb | s Hr IH].
    - intros d. rewrite Hg, Hd. split; [discriminate | congruence].
    - pose proof (really_probe_instance K pdev register_simple s) as Hp.
      destruct (really_probe K pdev register_simple s) as [[x s'] t].
      simpl. intros d.
      destruct Hp as [(_ & Hg & Hg' & Hd' & Hother)
                     | [(_ & Hg' & _ & Hother) Hd']].
      + rewrite Hg'. destruct (decide (d = pdev)) as [-> | Hne];
          [tauto |].
        rewrite (Hother d Hne). split; [congruence |].
        intros Hd. apply IH in Hd. congruence.
      + rewrite Hg'. destruct (decide (d = pdev)) as [-> | Hne];
          [| by rewrite (Hother d Hne)].
        assert (Hnone : drvdata s' pdev = None)
          by (destruct Hd' as [Hd' | Hd']; congruence).
        rewrite Hnone. split; [| congruence].
        intros Hg. apply IH in Hg. congruence.
    - destruct (drvdata s pdev) as [lms |] eqn:Hd; [| congruence].
      unfold device_release_driver.
      rewrite (lms2012_compat_remove_run pdev lms s Hd), unwind_events.
      simpl. intros d. split; [discriminate |].
      destruct (decide (d = pdev)) as [-> | Hne];
        [by rewrite fn_lookup_insert |].
      rewrite fn_lookup_insert_ne by done. intros Hd'.
      apply IH in Hd'. assert (Hp : global_dev s = Some pdev)
        by (apply IH; congruence).
      congruence.
    - unfold lms2012_compat_get, bind, gets, get_device.
      destruct (global_dev s) as [g |] eqn:Hg; simpl; intros d;
        rewrite <- IH, Hg; tauto. }
  split; [exact Hinv |]. split.
  - intros d1 d2 H1 H2. apply Hinv in H1, H2. congruence.
  - unfold lms2012_compat_get, bind, gets, get_device.
    by destruct (global_dev s).
Qed.

Lemma one_instance_at_a_time_witness :
  reachable (really_probe board the_pdev register_ok boot).1.2
  /\ global_dev (really_probe board the_pdev register_ok boot).1.2
     = Some the_pdev
  /\ (forall d,
        global_dev (really_probe board the_pdev register_ok boot).1.2
        = Some d
        <-> drvdata (really_probe board the_pdev register_ok boot).1.2 d
            <> None).
Proof.
  assert (Hr : reachable (really_probe board the_pdev register_ok boot).1.2).
  { apply reach_probe; [apply reach_init |]; reflexivity. }
  split; [exact Hr |]. split; [vm_compute; reflexivity |].
  apply (one_instance_at_a_time _ Hr).
Defined.

(** ** Probing again *)

Lemma blind_bind {A B} (m : M A) (f : A -> M B) :
  blind m -> (forall a, blind (f a)) -> blind (bind m f).
Proof.
  intros Hm Hf s1 s2. unfold bind. destruct (Hm s1 s2) as [Hx Ht].
  destruct (m s1) as [[[a1 | x1] s1'] t1], (m s2) as [[[a2 | x2] s2'] t2];
    simpl in *; simplify_eq; [| done].
  destruct (Hf a2 s1' s2') as [Hx' Ht'].
  destruct (f a2 s1') as [[r1 u1] v1], (f a2 s2') as [[r2 u2] v2].
  simpl in *. by subst.
Qed.

Lemma blind_for_each {A} (idx : list nat) (body : nat -> A -> M A) (a : A) :
  (forall i a', blind (body i a')) -> blind (for_each idx body a).
Proof.
  intros Hbody. revert a. induction idx as [| i idx IH]; intros a; simpl.
  - by intros s1 s2.
  - apply blind_bind; [apply Hbody | exact IH].
Qed.

Ltac blind_step :=
  lazymatch goal with
  | |- blind (bind _ _) => apply blind_bind; [| intros ?]
  | |- blind (for_upto _ _ _) => apply blind_for_each; intros ? ?
  | |- blind (match ?x with _ => _ end) => destruct x
  | |- blind (if ?b then _ else _) => destruct b
  | |- blind _ => intros ? ?; split; reflexivity
  end.

Ltac blind_auto :=
  repeat first
    [ progress
        unfold devm_kzalloc, devm_pinctrl_get_select_default,
          devm_gpiod_get_array, devm_gpiod_get_optional,
          devm_ioremap_resource, devm_pwm_get, i2c_get_adapter,
          of_clk_get_by_name, clk_prepare_enable, devres_alloc, devres_free,
          of_node_put, platform_device_put, devres_add
    | progress cbv zeta
    | blind_step ].

Section ProbingAgain.

Context `{lms2012_h} (K : kernel) (pdev : device).

(** Of the state, acquisition looks at [global_dev] and nothing else. *)
Lemma lms2012_compat_acquire_blind s1 s2 :
  global_dev s1 = global_dev s2 ->
  (lms2012_compat_acquire K pdev s1).1.1
  = (lms2012_compat_acquire K pdev s2).1.1
  /\ (lms2012_compat_acquire K pdev s1).2
     = (lms2012_compat_acquire K pdev s2).2.
Proof.
  intros Hg. unfold lms2012_compat_acquire. rewrite !bind_gets, Hg.
  destruct (global_dev s2); [done |]. revert s1 s2 Hg. intros s1 s2 _.
  revert s1 s2.
  change (blind
    (lms <- devm_kzalloc K pdev ;;
     match lms with
     | None => return_ (-E ENOMEM)
     | Some lms =>
         probe_count_in_ports K ;;
         lms <- for_upto INPUTS (probe_in_port K) lms ;;
         lms <- probe_adc_channels K lms ;;
         lms <- probe_spi_pins K pdev lms ;;
         lms <- for_upto INPUTS (probe_in_pins K pdev) lms ;;
         i2c_adapters <- probe_read_i2cs K ;;
         lms <- for_upto INPUTS (probe_i2c_adapter K pdev i2c_adapters) lms ;;
         probe_count_uarts K ;;
         lms <- for_upto INPUTS (probe_uart K pdev) lms ;;
         lms <- for_upto OUTPUTS (probe_out_pins K pdev) lms ;;
         lms <- for_upto OUTPUTS (probe_out_pwm K pdev) lms ;;
         ret lms
     end)).
  unfold probe_count_in_ports, probe_in_port, probe_adc_channels,
    probe_spi_pins, probe_in_pins, probe_read_i2cs, probe_i2c_adapter,
    probe_count_uarts, probe_uart, probe_out_pins, probe_out_pwm.
  blind_auto.
Qed.

Lemma lms2012_compat_probe_blind register_simple s1 s2 :
  global_dev s1 = global_dev s2 ->
  (lms2012_compat_probe K pdev register_simple s1).1.1
  = (lms2012_compat_probe K pdev register_simple s2).1.1
  /\ (lms2012_compat_probe K pdev register_simple s1).2
     = (lms2012_compat_probe K pdev register_simple s2).2.
Proof.
  intros Hg. destruct (lms2012_compat_acquire_blind s1 s2 Hg) as [Hx Ht].
  unfold lms2012_compat_probe, call, bind.
  destruct (lms2012_compat_acquire K pdev s1) as [[[l1 | x1] u1] v1],
    (lms2012_compat_acquire K pdev s2) as [[[l2 | x2] u2] v2];
    simpl in Hx, Ht; simplify_eq.
  - destruct (lms2012_compat_publish_run pdev register_simple l2 u1)
      as (w1 & -> & _).
    destruct (lms2012_compat_publish_run pdev register_simple l2 u2)
      as (w2 & -> & _).
    done.
  - by destruct x2.
Qed.

End ProbingAgain.

(** X9.  Bind, unbind, bind again.  Releasing a device whose probe
    returned 0 returns 0 and leaves no instance active, no bundle on the
    device and nothing on its devres list; probing it again on the same
    board returns 0 again, with the very same sequence of events. *)
Theorem probe_again_after_release `{lms2012_h} (K : kernel) (pdev : device)
  (register_simple : string -> kptr string) (s s1 : kstate)
  (t1 : list event) :
  lms2012_compat_probe K pdev register_simple s = (Return 0, s1, t1) ->
  let '(x2, s2, _) := device_release_driver pdev s1 in
  x2 = Return 0
  /\ global_dev s2 = None
  /\ drvdata s2 pdev = None
  /\ devres s2 pdev = []
  /\ exists s3,
       lms2012_compat_probe K pdev register_simple s2 = (Return 0, s3, t1).
Proof.
  intros Hp.
  destruct (probe_success_inv K pdev register_simple s s1 t1 Hp)
    as (lms & s0 & t0 & Hacq & _ & _ & _ & _ & Hdrv).
  pose proof (acquire_needs_no_instance K pdev s s0 lms t0 Hacq) as Hg.
  unfold device_release_driver.
  rewrite (lms2012_compat_remove_run pdev _ s1 Hdrv), unwind_events.
  simpl. rewrite !fn_lookup_insert. repeat split.
  match goal with
  | |- exists s3, lms2012_compat_probe _ _ _ ?s2 = _ =>
      destruct (lms2012_compat_probe_blind K pdev register_simple s2 s)
        as [Hx Ht]; [by rewrite Hg |];
      destruct (lms2012_compat_probe K pdev register_simple s2)
        as [[x3 s3] t3]
  end.
  rewrite Hp in Hx, Ht. simpl in Hx, Ht. subst. by exists s3.
Qed.

Lemma probe_again_after_release_witness :
  exists s1 t1,
    lms2012_compat_probe board the_pdev register_ok boot = (Return 0, s1, t1)
    /\ let '(x2, s2, _) := device_release_driver the_pdev s1 in
       x2 = Return 0
       /\ global_dev s2 = None
       /\ drvdata s2 the_pdev = None
       /\ devres s2 the_pdev = []
       /\ exists s3,
            lms2012_compat_probe board the_pdev register_ok s2
            = (Return 0, s3, t1).
Proof.
  do 2 eexists. split; [vm_compute; reflexivity |].
  apply (probe_again_after_release board the_pdev register_ok boot).
  vm_compute; reflexivity.
Defined.

(** X10.  A failed attempt is invisible to the next one.  After a probe
    that returned an error and the unwinding that follows it, a probe of
    any device on any board ends as it would have ended, and emits what
    it would have emitted, had the failed attempt never been made: a
    deferred probe can be retried as often as it takes. *)
Theorem failed_probe_can_be_retried `{lms2012_h} (K : kernel) (pdev : device)
  (register_simple : string -> kptr string) (s s1 : kstate)
  (t1 : list event) (code : Z) :
  really_probe K pdev register_simple s = (Return code, s1, t1) ->
  code <> 0 ->
  forall (K' : kernel) (pdev' : device)
         (register_simple' : string -> kptr string),
    (lms2012_compat_probe K' pdev' register_simple' s1).1.1
    = (lms2012_compat_probe K' pdev' register_simple' s).1.1
    /\ (lms2012_compat_probe K' pdev' register_simple' s1).2
       = (lms2012_compat_probe K' pdev' register_simple' s).2.
Proof.
  intros Hp Hne K' pdev' register_simple'.
  apply lms2012_compat_probe_blind.
  pose proof (really_probe_instance K pdev register_simple s) as Hi.
  rewrite Hp in Hi.
  destruct Hi as [([= ->] & _) | [(_ & Hg & _) _]]; [done | exact Hg].
Qed.

Lemma failed_probe_can_be_retried_witness :
  exists s1 t1,
    really_probe board_pwm_deferred the_pdev register_ok boot
    = (Return (-E EPROBE_DEFER), s1, t1)
    /\ -E EPROBE_DEFER <> 0
    /\ (lms2012_compat_probe board the_pdev register_ok s1).1.1
       = (lms2012_compat_probe board the_pdev register_ok boot).1.1
    /\ (lms2012_compat_probe board the_pdev register_ok s1).2
       = (lms2012_compat_probe board the_pdev register_ok boot).2.
Proof.
  do 2 eexists. split; [vm_compute; reflexivity |].
  split; [discriminate |].
  eapply (failed_probe_can_be_retried board_pwm_deferred the_pdev register_ok
            boot);
    [vm_compute; reflexivity | discriminate].
Defined.

(** ** The adapter numbers *)

(** X11.  Lines 163-177 read "in-i2cs" twice: once to count its cells,
    once to copy them.  The copy cannot fail once the count has passed:
    whenever this step leaves the probe it is the count check that does
    so, after a single query, with the count's own negative code or with
    [-EINVAL]; and when it goes on, the local array holds the whole
    property, which has exactly INPUTS cells.  The error return of lines
    174-177 is never taken. *)
Theorem i2c_read_cannot_fail_after_count `{lms2012_h} (K : kernel)
  (s : kstate) :
  match probe_read_i2cs K s with
  | (inl i2c_adapters, s', t) =>
      k_in_i2cs K = PropCells i2c_adapters
      /\ length i2c_adapters = INPUTS
      /\ s' = s
      /\ t = [EvQuery "in-i2cs"; EvQuery "in-i2cs"]
  | (inr x, s', t) =>
      declared_count K I2cCount <> Z.of_nat INPUTS
      /\ x = Return (count_error (declared_count K I2cCount))
      /\ s' = s
      /\ t = [EvQuery "in-i2cs"]
  end.
Proof.
  unfold probe_read_i2cs, declared_count, count_error,
    of_property_count_u32_elems, of_property_read_u32_array.
  unfold_services. cbv zeta.
  destruct (k_in_i2cs K) as [| | cells]; cbv iota.
  - destruct (Z.eqb_spec (-E EINVAL) (Z.of_nat INPUTS)) as [He |]; [lia |].
    simpl. by repeat split.
  - destruct (Z.eqb_spec (-E ENODATA) (Z.of_nat INPUTS)) as [He |]; [lia |].
    simpl. by repeat split.
  - destruct (Z.eqb_spec (Z.of_nat (length cells)) (Z.of_nat INPUTS))
      as [He | Hne]; simpl.
    + apply Nat2Z.inj in He. rewrite He, Nat.ltb_irrefl. simpl.
      by rewrite <- He, firstn_all.
    + destruct (Z.ltb_spec (Z.of_nat (length cells)) 0); [lia |].
      by repeat split.
Qed.

(** ** References that no devres node gives back *)

Lemma refs_app (kind : resource -> bool) (t1 t2 : list event) :
  refs kind (t1 ++ t2) = refs kind t1 + refs kind t2.
Proof.
  induction t1 as [| e t1 IH]; simpl; [lia |].
  destruct e as [q | r | r | g | n | p]; lia.
Qed.

Lemma keeps_ret {A} (kind : resource -> bool) (a : A) :
  keeps kind 0 (ret a).
Proof. intros s. reflexivity. Qed.

Lemma keeps_bind {A B} (kind : resource -> bool) (n1 n2 : Z) (m : M A)
  (f : A -> M B) :
  0 <= n1 -> 0 <= n2 ->
  keeps kind n1 m -> (forall a, keeps kind n2 (f a)) ->
  keeps kind (n1 + n2) (bind m f).
Proof.
  intros H1 H2 Hm Hf s. unfold bind. specialize (Hm s).
  destruct (m s) as [[[a | x] s1] t1].
  - specialize (Hf a s1). destruct (f a s1) as [[r2 s2] t2].
    rewrite refs_app.
    destruct r2 as [b | [code | f2]]; [lia | lia | exact I].
  - destruct x as [code | f1]; [lia | exact I].
Qed.

Lemma keeps_for_each {A} (kind : resource -> bool) (n : Z) (idx : list nat)
  (body : nat -> A -> M A) (a : A) :
  0 <= n ->
  (forall i a', keeps kind n (body i a')) ->
  keeps kind (Z.of_nat (length idx) * n) (for_each idx body a).
Proof.
  intros Hn Hbody. revert a. induction idx as [| i idx IH]; intros a.
  - apply keeps_ret.
  - simpl for_each.
    replace (Z.of_nat (length (i :: idx)) * n)
      with (n + Z.of_nat (length idx) * n) by (simpl length; lia).
    apply keeps_bind; [lia | nia | apply Hbody | exact IH].
Qed.

Lemma keeps_for_upto {A} (kind : resource -> bool) (n : Z) (k : nat)
  (body : nat -> A -> M A) (a : A) :
  0 <= n ->
  (forall i a', keeps kind n (body i a')) ->
  keeps kind (Z.of_nat k * n) (for_upto k body a).
Proof.
  intros Hn Hbody. unfold for_upto.
  pose proof (keeps_for_each kind n (seq 0 k) body a Hn Hbody) as Hh.
  by rewrite length_seq in Hh.
Qed.

(** Every path of a step, with what it has taken and given back. *)
Ltac kept :=
  intros ?; unfold_services; simpl;
  repeat
    match goal with
    | |- context [match ?x with _ => _ end] =>
        lazymatch x with
        | context [match _ with _ => _ end] => fail
        | _ => destruct x; simpl
        end
    | |- context [if ?b then _ else _] => destruct b; simpl
    end;
  first [exact I | reflexivity | lia].

(** The whole of acquisition, from what its loops keep per iteration. *)
Lemma keeps_acquire `{lms2012_h} (K : kernel) (pdev : device)
  (kind : resource -> bool) (a b c d e f : Z) :
  0 <= a -> 0 <= b -> 0 <= c -> 0 <= d -> 0 <= e -> 0 <= f ->
  keeps kind 0 (devm_kzalloc K pdev) ->
  keeps kind 0 (probe_count_in_ports K) ->
  (forall i lms, keeps kind a (probe_in_port K i lms)) ->
  (forall lms, keeps kind 0 (probe_adc_channels K lms)) ->
  (forall lms, keeps kind 0 (probe_spi_pins K pdev lms)) ->
  (forall i lms, keeps kind b (probe_in_pins K pdev i lms)) ->
  keeps kind 0 (probe_read_i2cs K) ->
  (forall arr i lms, keeps kind c (probe_i2c_adapter K pdev arr i lms)) ->
  keeps kind 0 (probe_count_uarts K) ->
  (forall i lms, keeps kind d (probe_uart K pdev i lms)) ->
  (forall i lms, keeps kind e (probe_out_pins K pdev i lms)) ->
  (forall i lms, keeps kind f (probe_out_pwm K pdev i lms)) ->
  keeps kind
    (Z.of_nat INPUTS * (a + b + c + d) + Z.of_nat OUTPUTS * (e + f))
    (lms2012_compat_acquire K pdev).
Proof.
  intros Ha Hb Hc Hd He Hf Hz Hic Hin Hadc Hspi Hpins Hrd Hi2c Huc Hu Hop Hpw.
  unfold lms2012_compat_acquire.
  replace (Z.of_nat INPUTS * (a + b + c + d) + Z.of_nat OUTPUTS * (e + f))
    with (0 + (0 + (0 + (Z.of_nat INPUTS * a
          + (0 + (0 + (Z.of_nat INPUTS * b + (0 + (Z.of_nat INPUTS * c
          + (0 + (Z.of_nat INPUTS * d + (Z.of_nat OUTPUTS * e
          + (Z.of_nat OUTPUTS * f + 0))))))))))))) by lia.
  apply keeps_bind; [lia | nia | by intros s | intros [g |]];
    [intros s; simpl; nia |].
  apply keeps_bind; [lia | nia | exact Hz | intros [lms |]];
    [| intros s; simpl; nia].
  apply keeps_bind; [lia | nia | exact Hic | intros u1].
  apply keeps_bind;
    [nia | nia | apply keeps_for_upto; [lia | intros; apply Hin] | intros l1].
  apply keeps_bind; [lia | nia | apply Hadc | intros l2].
  apply keeps_bind; [lia | nia | apply Hspi | intros l3].
  apply keeps_bind;
    [nia | nia | apply keeps_for_upto; [lia | intros; apply Hpins]
    | intros l4].
  apply keeps_bind; [lia | nia | exact Hrd | intros arr].
  apply keeps_bind;
    [nia | nia | apply keeps_for_upto; [lia | intros; apply Hi2c]
    | intros l5].
  apply keeps_bind; [lia | nia | exact Huc | intros u2].
  apply keeps_bind;
    [nia | nia | apply keeps_for_upto; [lia | intros; apply Hu] | intros l6].
  apply keeps_bind;
    [nia | nia | apply keeps_for_upto; [lia | intros; apply Hop]
    | intros l7].
  apply keeps_bind;
    [nia | lia | apply keeps_for_upto; [lia | intros; apply Hpw]
    | intros l8].
  apply keeps_ret.
Qed.

Ltac kept_steps :=
  intros;
  unfold devm_kzalloc, probe_count_in_ports, probe_in_port,
    probe_adc_channels, probe_spi_pins, probe_in_pins, probe_read_i2cs,
    probe_i2c_adapter, i2c_put_adapter, probe_count_uarts, probe_uart,
    clk_put, probe_out_pins, probe_out_pwm;
  kept.

Section References.

Context `{lms2012_h} (K : kernel) (pdev : device).



(** The adapter of line 182 is put on the [-ENOMEM] path only. *)
Lemma lms2012_compat_acquire_keeps_i2c :
  keeps is_i2c (Z.of_nat INPUTS) (lms2012_compat_acquire K pdev).
Proof.
  replace (Z.of_nat INPUTS)
    with (Z.of_nat INPUTS * (0 + 0 + 1 + 0) + Z.of_nat OUTPUTS * (0 + 0))
    by lia.
  apply keeps_acquire; try lia; kept_steps.
Qed.

End References.


(** What the whole of an instance's life keeps of a kind that neither
    publication, nor removal, nor the devres list gives back. *)
Lemma really_probe_keeps `{lms2012_h} (K : kernel) (pdev : device)
  (register_simple : string -> kptr string) (kind : resource -> bool)
  (n : Z) (s : kstate) :
  keeps kind n (lms2012_compat_acquire K pdev) ->
  (forall s1 : kstate,
     (lms2012_compat_acquire K pdev s).1.2 = s1 \/
     (lms2012_compat_probe K pdev register_simple s).1.2 = s1 ->
     refs kind (concat (map devres_release (devres s1 pdev))) = 0) ->
  let '(x, s', t) := really_probe K pdev register_simple s in
  match x with
  | Return code =>
      if code =? 0 then
        refs kind t = n
        /\ let '(_, _, t2) := device_release_driver pdev s' in
           refs kind (t ++ t2) = n
      else 0 <= refs kind t <= n
  | Fault _ => True
  end.
Proof.
  intros Hk Hrel. specialize (Hk s).
  pose proof (lms2012_compat_acquire_spec K pdev s) as Hspec.
  pose proof (Hrel _ (or_introl eq_refl)) as Hrel1.
  pose proof (Hrel _ (or_intror eq_refl)) as Hrel2. clear Hrel.
  revert Hrel2.
  unfold really_probe, lms2012_compat_probe, call, bind.
  destruct (lms2012_compat_acquire K pdev s) as [[[lms | x] s1] t1] eqn:Hacq.
  - destruct (lms2012_compat_publish_run pdev register_simple lms s1)
      as (s' & -> & _ & Hd & _).
    simpl fst. simpl snd. cbv iota beta. intros Hrel2.
    change (0 =? 0) with true. cbv iota.
    assert (Hpub : refs kind (publish_events pdev) = 0) by done.
    rewrite refs_app, Hk, Hpub. split; [lia |].
    unfold device_release_driver.
    rewrite (lms2012_compat_remove_run pdev _ s' Hd), unwind_events.
    rewrite !refs_app, Hk, Hpub. simpl devres. rewrite Hrel2.
    simpl. lia.
  - intros _. simpl in Hspec, Hrel1. destruct Hspec as [_ Hx].
    destruct x as [code | f]; [| exact I].
    destruct (Z.eqb_spec code 0) as [-> | Hne]; [lia |].
    rewrite unwind_events, refs_app, Hrel1.
    rewrite <- Z.eqb_neq in Hne. rewrite Hne. lia.
Qed.


(** ** Pin-control handles and I2C adapters *)

Lemma never_bind {A B} (p : event -> bool) (m : M A) (f : A -> M B) :
  never p m -> (forall a, never p (f a)) -> never p (bind m f).
Proof.
  intros Hm Hf s. unfold bind. specialize (Hm s).
  destruct (m s) as [[[a | x] s1] t1]; simpl in *; [| exact Hm].
  specialize (Hf a s1). destruct (f a s1) as [[r2 s2] t2]; simpl in *.
  by rewrite existsb_app, Hm, Hf.
Qed.

Lemma never_for_each {A} (p : event -> bool) (idx : list nat)
  (body : nat -> A -> M A) (a : A) :
  (forall i a', never p (body i a')) -> never p (for_each idx body a).
Proof.
  intros Hbody. revert a. induction idx as [| i idx IH]; intros a; simpl.
  - by intros s.
  - apply never_bind; [apply Hbody | exact IH].
Qed.

Ltac never_step :=
  lazymatch goal with
  | |- never _ (bind _ _) => apply never_bind; [| intros ?]
  | |- never _ (for_upto _ _ _) => apply never_for_each; intros ? ?
  | |- never _ (match ?x with _ => _ end) => destruct x
  | |- never _ (if ?b then _ else _) => destruct b
  | |- never _ _ => intros ?; reflexivity
  end.

Ltac never_auto :=
  repeat first
    [ progress
        unfold devm_kzalloc, devm_pinctrl_get_select_default,
          devm_gpiod_get_array, devm_gpiod_get_optional,
          devm_ioremap_resource, devm_pwm_get, i2c_get_adapter,
          i2c_put_adapter, of_clk_get_by_name, clk_prepare_enable, clk_put,
          devres_alloc, devres_free, of_node_put, platform_device_put,
          devres_add
    | progress cbv zeta
    | never_step ].

Lemma quiet_devres_add (pdev dev : device) (n : devres_node) :
  dev <> pdev \/ quiet n -> preserves (quiet_list pdev) (devres_add dev n).
Proof.
  intros Hn s Hs. unfold quiet_list in *. simpl.
  destruct (decide (dev = pdev)) as [-> | Hne].
  - rewrite fn_lookup_insert. constructor; [| exact Hs].
    by destruct Hn.
  - by rewrite fn_lookup_insert_ne.
Qed.

Section Outliving.

Context `{lms2012_h} (K : kernel) (pdev : device).

(** The input ports are devices of their own. *)
Hypothesis Hport : forall np, k_find_device_by_node K np <> Some pdev.

Lemma lms2012_compat_acquire_never_puts_pinctrl :
  never is_pinctrl_put (lms2012_compat_acquire K pdev).
Proof.
  unfold lms2012_compat_acquire, probe_count_in_ports, probe_in_port,
    probe_adc_channels, probe_spi_pins, probe_in_pins, probe_read_i2cs,
    probe_i2c_adapter, probe_count_uarts, probe_uart, probe_out_pins,
    probe_out_pwm.
  never_auto.
Qed.

(** Lines 104-110: the handle is managed by the input port's device. *)
Lemma probe_in_port_quiet i lms :
  preserves (quiet_list pdev) (probe_in_port K i lms).
Proof.
  intros s Hs.
  unfold probe_in_port, devm_pinctrl_get_select_default, platform_device_put,
    bind, emit, return_, ret.
  destruct (of_parse_phandle_with_args (k_in_in_ports K) i) as [np | e];
    simpl; [| exact Hs].
  destruct (k_find_device_by_node K np) as [in_port |] eqn:Hf; simpl;
    [| exact Hs].
  assert (Hne : in_port <> pdev) by (intros ->; exact (Hport np Hf)).
  destruct (k_pinctrl_get_select_default K in_port); simpl;
    try exact Hs.
  unfold quiet_list. simpl. by rewrite fn_lookup_insert_ne.
Qed.

(** Lines 186-193: the payload that reaches devres_add is the zeroed
    one. *)
Lemma probe_i2c_adapter_quiet i2c_adapters i lms :
  preserves (quiet_list pdev) (probe_i2c_adapter K pdev i2c_adapters i lms).
Proof.
  intros s Hs.
  unfold probe_i2c_adapter, i2c_get_adapter, devres_alloc, bind.
  destruct (k_i2c_get_adapter K _); simpl; [| exact Hs].
  destruct (k_devres_alloc_i2c K i); simpl; [| exact Hs].
  exact (quiet_devres_add pdev pdev (DrI2cAdapter {| adapter := None |})
           (or_intror eq_refl) s Hs).
Qed.

Ltac quiet_step :=
  lazymatch goal with
  | |- preserves _ (bind _ _) => apply preserves_bind; [| intros ?]
  | |- preserves _ (for_upto _ _ _) => apply preserves_for_each; intros ? ?
  | |- preserves _ (probe_in_port _ _ _) => apply probe_in_port_quiet
  | |- preserves _ (probe_i2c_adapter _ _ _ _ _) =>
      apply probe_i2c_adapter_quiet
  | |- preserves _ (devres_add _ _) =>
      apply quiet_devres_add; right; first [exact I | reflexivity]
  | |- preserves _ (match ?x with _ => _ end) => destruct x
  | |- preserves _ (if ?b then _ else _) => destruct b
  | |- preserves _ _ => apply preserves_same; reflexivity
  end.

Ltac quiet_auto :=
  repeat first
    [ progress
        unfold devm_kzalloc, devm_gpiod_get_array, devm_gpiod_get_optional,
          devm_ioremap_resource, devm_pwm_get, i2c_get_adapter,
          of_clk_get_by_name, clk_prepare_enable, devres_alloc, devres_free,
          of_node_put, platform_device_put
    | progress cbv zeta
    | quiet_step ].

Lemma lms2012_compat_acquire_quiet :
  preserves (quiet_list pdev) (lms2012_compat_acquire K pdev).
Proof.
  unfold lms2012_compat_acquire, probe_count_in_ports,
    probe_adc_channels, probe_spi_pins, probe_in_pins, probe_read_i2cs,
    probe_count_uarts, probe_uart, probe_out_pins, probe_out_pwm.
  quiet_auto.
Qed.

End Outliving.

(** Unwinding a list of quiet nodes gives back no pin-control handle and
    no I2C adapter. *)
Lemma quiet_release (nodes : list devres_node) :
  Forall quiet nodes ->
  existsb is_pinctrl_put (concat (map devres_release nodes)) = false
  /\ refs is_i2c (concat (map devres_release nodes)) = 0.
Proof.
  induction 1 as [| n nodes Hn Hq [IHp IHi]]; simpl; [done |].
  rewrite existsb_app, refs_app, IHp, IHi.
  destruct n as [| d | con_id | res | con_id | [[a |]] | [[| np |]]];
    simpl in *; done.
Qed.

Lemma never_released (t : list event) (d : device) :
  existsb is_pinctrl_put t = false -> released (RPinctrl d) t = 0%nat.
Proof.
  intros Hno. unfold released. apply count_ev_absent. intros Hin.
  assert (existsb is_pinctrl_put t = true); [| congruence].
  apply existsb_exists. exists (EvRelease (RPinctrl d)). auto.
Qed.

(** X13.  Pin-control handles and I2C adapters outlive the instance.
    When the input ports are devices of their own and the probed device
    starts with an empty devres list: a probe that returns 0 holds
    exactly INPUTS I2C adapters, and after removal and unwinding it still
    does; a failed attempt keeps up to INPUTS of them after its
    unwinding; and no pin-control handle is given back in either case,
    by the probe, by removal or by the unwinding. *)
Theorem pinctrl_and_i2c_outlive_the_instance `{lms2012_h} (K : kernel)
  (pdev : device) (register_simple : string -> kptr string) (s : kstate) :
  devres s pdev = [] ->
  (forall np, k_find_device_by_node K np <> Some pdev) ->
  let '(x, s', t) := really_probe K pdev register_simple s in
  match x with
  | Return code =>
      if code =? 0 then
        (refs is_i2c t = Z.of_nat INPUTS
         /\ let '(_, _, t2) := device_release_driver pdev s' in
            refs is_i2c (t ++ t2) = Z.of_nat INPUTS)
        /\ let '(_, _, t2) := device_release_driver pdev s' in
           forall d, released (RPinctrl d) (t ++ t2) = 0%nat
      else 0 <= refs is_i2c t <= Z.of_nat INPUTS
           /\ forall d, released (RPinctrl d) t = 0%nat
  | Fault _ => True
  end.
Proof.
  intros Hd Hport.
  assert (Hq0 : quiet_list pdev s) by (unfold quiet_list; by rewrite Hd).
  pose proof (lms2012_compat_acquire_quiet K pdev Hport s Hq0) as Hq1.
  pose proof (lms2012_compat_acquire_never_puts_pinctrl K pdev s) as Hnv.
  pose proof (lms2012_compat_acquire_spec K pdev s) as Hspec.
  assert (Hq2 : quiet_list pdev
                  (lms2012_compat_probe K pdev register_simple s).1.2).
  { unfold lms2012_compat_probe, call, bind.
    destruct (lms2012_compat_acquire K pdev s) as [[[lms | x] s1] t1].
    - destruct (lms2012_compat_publish_run pdev register_simple lms s1)
        as (s' & -> & _ & _ & Hdev & _).
      simpl in *. unfold quiet_list in *. by rewrite Hdev.
    - by destruct x. }
  pose proof (really_probe_keeps K pdev register_simple is_i2c
                (Z.of_nat INPUTS) s
                (lms2012_compat_acquire_keeps_i2c K pdev)) as Hi.
  assert (Hrel : forall s1 : kstate,
            (lms2012_compat_acquire K pdev s).1.2 = s1 \/
            (lms2012_compat_probe K pdev register_simple s).1.2 = s1 ->
            refs is_i2c (concat (map devres_release (devres s1 pdev))) = 0).
  { intros s1 [<- | <-]; by apply quiet_release. }
  specialize (Hi Hrel). clear Hrel.
  revert Hi Hq2.
  unfold really_probe, lms2012_compat_probe, call, bind.
  destruct (lms2012_compat_acquire K pdev s) as [[[lms | x] s1] t1] eqn:Hacq.
  - destruct (lms2012_compat_publish_run pdev register_simple lms s1)
      as (s' & -> & _ & Hdrv & _).
    simpl fst. simpl snd. cbv iota beta. change (0 =? 0) with true.
    cbv iota. intros Hi Hq2. split; [exact Hi |].
    unfold device_release_driver.
    rewrite (lms2012_compat_remove_run pdev _ s' Hdrv), unwind_events.
    intros d. apply never_released. simpl in Hnv.
    rewrite !existsb_app, Hnv. simpl devres.
    by rewrite (proj1 (quiet_release _ Hq2)).
  - simpl in Hspec, Hq1, Hnv. destruct Hspec as [_ Hx].
    destruct x as [code | f]; [| intros; exact I].
    destruct (Z.eqb_spec code 0) as [-> | Hne]; [lia |].
    rewrite unwind_events. cbv iota beta.
    rewrite (proj2 (Z.eqb_neq code 0) Hne).
    intros Hi _. split; [exact Hi |].
    intros d. apply never_released.
    by rewrite existsb_app, Hnv, (proj1 (quiet_release _ Hq1)).
Qed.

Lemma pinctrl_and_i2c_outlive_the_instance_witness :
  devres boot the_pdev = []
  /\ (forall np, k_find_device_by_node board np <> Some the_pdev)
  /\ (really_probe board the_pdev register_ok boot).1.1 = Return 0
  /\ let '(x, s', t) := really_probe board the_pdev register_ok boot in
     match x with
     | Return code =>
         if code =? 0 then
           (refs is_i2c t = Z.of_nat INPUTS
            /\ let '(_, _, t2) := device_release_driver the_pdev s' in
               refs is_i2c (t ++ t2) = Z.of_nat INPUTS)
           /\ let '(_, _, t2) := device_release_driver the_pdev s' in
              forall d, released (RPinctrl d) (t ++ t2) = 0%nat
         else 0 <= refs is_i2c t <= Z.of_nat INPUTS
              /\ forall d, released (RPinctrl d) t = 0%nat
     | Fault _ => True
     end.
Proof.
  assert (Hport : forall np, k_find_device_by_node board np <> Some the_pdev).
  { intros np. unfold board, board_with, the_pdev. simpl.
    intros [= Hnp]. lia. }
  split; [reflexivity |]. split; [exact Hport |].
  split; [vm_compute; reflexivity |].
  apply (pinctrl_and_i2c_outlive_the_instance board the_pdev register_ok
           boot); [reflexivity | exact Hport].
Defined.

(** * The checks in their places *)

(** ** Running a prefix of the acquisition sequence *)

Lemma passes_step {A B} (E : event -> bool) (n : Z) (need : event -> Prop)
  (Q : A -> Prop) (m : M A) (k : A -> M B) (s : kstate) :
  passes E n need Q m ->
  exists a s1 t1,
    Q a
    /\ forallb E t1 = true
    /\ refs is_node t1 = n
    /\ (forall e, need e -> In e t1)
    /\ bind m k s = (let '(r, s2, t2) := k a s1 in (r, s2, t1 ++ t2)).
Proof.
  intros Hm. destruct (Hm s) as (a & s1 & t1 & Hrun & Ha & HE & Hn & Hneed).
  exists a, s1, t1. repeat split; try assumption.
  unfold bind. by rewrite Hrun.
Qed.

Lemma passes_for_seq {A} (E : event -> bool) (n : Z)
  (need : nat -> event -> Prop) (body : nat -> A -> M A)
  (len start : nat) (a : A) :
  (forall i a', (start <= i < start + len)%nat ->
                passes E n (need i) any (body i a')) ->
  passes E (Z.of_nat len * n)
    (fun e => exists i, (start <= i < start + len)%nat /\ need i e) any
    (for_each (seq start len) body a).
Proof.
  revert start a. induction len as [| len IH]; intros start a Hbody s.
  - exists a, s, []. simpl. repeat split; try done.
    intros e (i & Hi & _). lia.
  - cbn [seq for_each].
    destruct (passes_step E n (need start) any (body start a)
                (fun a' => for_each (seq (S start) len) body a') s
                (Hbody start a ltac:(lia)))
      as (a1 & s1 & t1 & _ & HE1 & Hn1 & Hneed1 & ->).
    destruct (IH (S start) a1 (fun i a' Hi => Hbody i a' ltac:(lia)) s1)
      as (a2 & s2 & t2 & -> & _ & HE2 & Hn2 & Hneed2).
    exists a2, s2, (t1 ++ t2). split; [reflexivity |]. split; [exact I |].
    rewrite forallb_app, refs_app, HE1, HE2, Hn1, Hn2.
    split; [reflexivity |]. split; [lia |].
    intros e (i & Hi & He). apply in_app_iff.
    destruct (decide (i = start)) as [-> | Hne]; [left; by apply Hneed1 |].
    right. apply Hneed2. exists i. split; [lia | exact He].
Qed.

Lemma passes_for_upto {A} (E : event -> bool) (n : Z)
  (need : nat -> event -> Prop) (body : nat -> A -> M A) (k : nat) (a : A) :
  (forall i a', (i < k)%nat -> passes E n (need i) any (body i a')) ->
  passes E (Z.of_nat k * n)
    (fun e => exists i, (i < k)%nat /\ need i e) any (for_upto k body a).
Proof.
  intros Hbody s. unfold for_upto.
  destruct (passes_for_seq E n need body k 0 a
              (fun i a' Hi => Hbody i a' ltac:(lia)) s)
    as (a1 & s1 & t1 & Hrun & _ & HE & Hn & Hneed).
  exists a1, s1, t1. repeat split; try assumption.
  intros e (i & Hi & He). apply Hneed. exists i. split; [lia | exact He].
Qed.

Lemma forallb_before_uart_windows (t : list event) :
  forallb before_i2c_adapters t = true ->
  forallb before_uart_windows t = true.
Proof.
  rewrite !forallb_forall. intros Ht e He. unfold before_uart_windows.
  by rewrite (Ht e He).
Qed.

(** A probe whose acquisition left early leaves as acquisition did. *)
Lemma probe_of_failed_acquire `{lms2012_h} (K : kernel) (pdev : device)
  (register_simple : string -> kptr string) (s s1 : kstate) (x : exit)
  (t : list event) :
  lms2012_compat_acquire K pdev s = (inr x, s1, t) ->
  lms2012_compat_probe K pdev register_simple s = (x, s1, t).
Proof.
  intros Hacq. unfold lms2012_compat_probe, call, bind. by rewrite Hacq.
Qed.

Section Prefixes.

Context `{lms2012_h} (K : kernel) (pdev : device).

Lemma lms2012_compat_acquire_tails :
  lms2012_compat_acquire K pdev
  = (g <- gets global_dev ;;
     match g with
     | Some _ => return_ (-E EBUSY)
     | None =>
         lms <- devm_kzalloc K pdev ;;
         match lms with
         | None => return_ (-E ENOMEM)
         | Some lms =>
             probe_count_in_ports K ;;
             lms <- for_upto INPUTS (probe_in_port K) lms ;;
             lms2012_compat_acquire_from_adc K pdev lms
         end
     end).
Proof. reflexivity. Qed.

Lemma devm_kzalloc_passes :
  k_kzalloc_lms K = true ->
  passes before_i2c_adapters 0 (fun _ => False)
    (fun o => o = Some zeroed_lms) (devm_kzalloc K pdev).
Proof.
  intros Hz s. unfold_services. rewrite Hz. simpl.
  do 3 eexists. split; [reflexivity |]. by repeat split.
Qed.

Lemma probe_count_in_ports_passes :
  of_count_phandle_with_args (k_in_in_ports K) = Z.of_nat INPUTS ->
  passes before_i2c_adapters 0 (fun _ => False) any (probe_count_in_ports K).
Proof.
  intros Hc s. unfold probe_count_in_ports. unfold_services. simpl.
  rewrite Hc, Z.eqb_refl. destruct (Z.ltb_spec (Z.of_nat INPUTS) 0); [lia |].
  simpl. do 3 eexists. split; [reflexivity |]. by repeat split.
Qed.

(** Lines 92-121 on a port that is in order. *)
Lemma probe_in_port_passes i lms :
  in_port_ok K i ->
  passes before_i2c_adapters 1 (claimed_for_in_port K i) any
    (probe_in_port K i lms).
Proof.
  intros (np & d & Hp & Hf & Herr) s. unfold probe_in_port. unfold_services.
  simpl. rewrite Hp, Hf. simpl.
  destruct (k_pinctrl_get_select_default K d) as [| h | e0] eqn:Hpin;
    [| | discriminate]; simpl;
    (do 3 eexists; split; [reflexivity |]; split; [exact I |];
     split; [reflexivity |]; split; [reflexivity |]);
    intros e (np' & d' & Hp' & Hf' & He);
    rewrite Hp in Hp'; injection Hp' as <-;
    rewrite Hf in Hf'; injection Hf' as <-;
    destruct He as [-> | [[h' Hh] ->]]; simpl; auto; congruence.
Qed.

Lemma probe_adc_channels_passes lms :
  adc_ok K ->
  passes before_i2c_adapters 0 (fun _ => False) any
    (probe_adc_channels K lms).
Proof.
  intros (cells & Hc & Hlen) s.
  unfold probe_adc_channels, of_property_read_u32_array. unfold_services.
  rewrite Hc. simpl.
  destruct (Nat.ltb_spec (length cells) INPUTADC); [lia |]. simpl.
  do 3 eexists. split; [reflexivity |]. by repeat split.
Qed.

Lemma probe_spi_pins_passes lms :
  spi_ok K ->
  passes before_i2c_adapters 0 (fun e => e = EvAcquire (RGpiod "spi")) any
    (probe_spi_pins K pdev lms).
Proof.
  intros (descs & Hg & Hn) s. unfold probe_spi_pins. unfold_services.
  simpl. rewrite Hg. simpl. rewrite Hn, Nat.eqb_refl. simpl.
  do 3 eexists. split; [reflexivity |]. repeat split.
  intros e ->. simpl. auto.
Qed.

(** Lines 140-161 on a port that is in order. *)
Lemma probe_in_pins_passes i lms :
  in_pins_ok K i ->
  passes before_i2c_adapters 0 (claimed_for_in_pins K i) any
    (probe_in_pins K pdev i lms).
Proof.
  intros (Hopt & descs & Hg & Hn) s.
  unfold claimed_for_in_pins, in_pin2_name, in_name in *.
  unfold probe_in_pins. unfold_services. simpl.
  destruct (k_gpiod_get_optional K _) as [| h | e0] eqn:Hpin;
    [| | discriminate]; simpl; rewrite Hg; simpl;
    rewrite Hn, Nat.eqb_refl; simpl;
    (do 3 eexists; split; [reflexivity |]; split; [exact I |];
     split; [reflexivity |]; split; [reflexivity |]);
    intros e [-> | [[h' Hh] ->]]; simpl; auto; congruence.
Qed.

Lemma probe_read_i2cs_passes :
  i2cs_ok K ->
  passes before_uart_windows 0 (fun _ => False)
    (fun arr => k_in_i2cs K = PropCells arr
                /\ forall i, (i < INPUTS)%nat -> i2c_ok K arr i)
    (probe_read_i2cs K).
Proof.
  intros (cells & Hc & Hlen & Hok) s.
  unfold probe_read_i2cs, of_property_count_u32_elems,
    of_property_read_u32_array.
  unfold_services. rewrite Hc, Hlen. simpl.
  rewrite Z.eqb_refl, Nat.ltb_irrefl. simpl.
  do 3 eexists. split; [reflexivity |].
  rewrite <- Hlen, firstn_all, Hlen.
  split; [split; [reflexivity | exact Hok] |].
  split; [reflexivity |]. split; [reflexivity |]. intros e [].
Qed.

(** Lines 179-194 on a port whose adapter and payload are there. *)
Lemma probe_i2c_adapter_passes cells i lms :
  k_in_i2cs K = PropCells cells ->
  i2c_ok K cells i ->
  passes before_uart_windows 0 (claimed_for_i2c K i) any
    (probe_i2c_adapter K pdev cells i lms).
Proof.
  intros Hc (Hget & Halloc) s. unfold probe_i2c_adapter. unfold_services.
  simpl. rewrite Hget. simpl. rewrite Halloc. simpl.
  do 3 eexists. split; [reflexivity |]. repeat split.
  intros e (cells' & Hc' & ->). rewrite Hc in Hc'. injection Hc' as <-.
  simpl. auto.
Qed.

(** Lines 74-121. *)
Lemma acquire_runs_to_adc s :
  global_dev s = None ->
  reaches_adc_read K ->
  exists lms s1 t1,
    forallb before_i2c_adapters t1 = true
    /\ refs is_node t1 = Z.of_nat INPUTS
    /\ (forall i e, (i < INPUTS)%nat -> claimed_for_in_port K i e ->
                    In e t1)
    /\ lms2012_compat_acquire K pdev s
       = (let '(r, s2, t2) := lms2012_compat_acquire_from_adc K pdev lms s1 in
          (r, s2, t1 ++ t2)).
Proof.
  intros Hg (Hz & Hic & Hin).
  rewrite lms2012_compat_acquire_tails, bind_gets, Hg.
  match goal with
  | |- context [bind (devm_kzalloc K pdev) ?k s] =>
      destruct (passes_step _ _ _ _ _ k s (devm_kzalloc_passes Hz))
        as (o & s1 & t1 & -> & HE1 & Hn1 & _ & ->)
  end.
  match goal with
  | |- context [bind (probe_count_in_ports K) ?k s1] =>
      destruct (passes_step _ _ _ _ _ k s1 (probe_count_in_ports_passes Hic))
        as (u & s2 & t2 & _ & HE2 & Hn2 & _ & ->)
  end.
  match goal with
  | |- context [bind (for_upto INPUTS (probe_in_port K) ?l) ?k s2] =>
      destruct (passes_step _ _ _ _ _ k s2
                  (passes_for_upto before_i2c_adapters 1
                     (claimed_for_in_port K) (probe_in_port K) INPUTS l
                     (fun i a' Hi => probe_in_port_passes i a' (Hin i Hi))))
        as (l1 & s3 & t3 & _ & HE3 & Hn3 & Hneed3 & ->)
  end.
  exists l1, s3, (t1 ++ t2 ++ t3).
  rewrite !forallb_app, !refs_app, HE1, HE2, HE3, Hn1, Hn2, Hn3.
  split; [reflexivity |]. split; [lia |]. split.
  - intros i e Hi He. rewrite !in_app_iff. right. right.
    apply Hneed3. by exists i.
  - destruct (lms2012_compat_acquire_from_adc K pdev l1 s3) as [[r s4] t4].
    by rewrite <- !app_assoc.
Qed.

(** Lines 74-161. *)
Lemma acquire_runs_to_i2cs s :
  global_dev s = None ->
  reaches_i2c_check K ->
  exists lms s1 t1,
    forallb before_i2c_adapters t1 = true
    /\ refs is_node t1 = Z.of_nat INPUTS
    /\ In (EvAcquire (RGpiod "spi")) t1
    /\ (forall i e, (i < INPUTS)%nat ->
          claimed_for_in_port K i e \/ claimed_for_in_pins K i e ->
          In e t1)
    /\ lms2012_compat_acquire K pdev s
       = (let '(r, s2, t2) := lms2012_compat_acquire_from_i2cs K pdev lms s1 in
          (r, s2, t1 ++ t2)).
Proof.
  intros Hg (Hadc_reach & Hadc & Hspi & Hpins).
  destruct (acquire_runs_to_adc s Hg Hadc_reach)
    as (l0 & s0 & t0 & HE0 & Hn0 & Hneed0 & ->).
  unfold lms2012_compat_acquire_from_adc.
  match goal with
  | |- context [bind (probe_adc_channels K l0) ?k s0] =>
      destruct (passes_step _ _ _ _ _ k s0 (probe_adc_channels_passes l0 Hadc))
        as (l1 & s1 & t1 & _ & HE1 & Hn1 & _ & ->)
  end.
  match goal with
  | |- context [bind (probe_spi_pins K pdev l1) ?k s1] =>
      destruct (passes_step _ _ _ _ _ k s1 (probe_spi_pins_passes l1 Hspi))
        as (l2 & s2 & t2 & _ & HE2 & Hn2 & Hneed2 & ->)
  end.
  match goal with
  | |- context [bind (for_upto INPUTS (probe_in_pins K pdev) l2) ?k s2] =>
      destruct (passes_step _ _ _ _ _ k s2
                  (passes_for_upto before_i2c_adapters 0
                     (claimed_for_in_pins K) (probe_in_pins K pdev) INPUTS l2
                     (fun i a' Hi => probe_in_pins_passes i a' (Hpins i Hi))))
        as (l3 & s3 & t3 & _ & HE3 & Hn3 & Hneed3 & ->)
  end.
  exists l3, s3, (t0 ++ t1 ++ t2 ++ t3).
  rewrite !forallb_app, !refs_app, HE0, HE1, HE2, HE3, Hn0, Hn1, Hn2, Hn3.
  split; [reflexivity |]. split; [lia |]. split; [| split].
  - rewrite !in_app_iff. right. right. left. by apply Hneed2.
  - intros i e Hi [He | He]; rewrite !in_app_iff.
    + left. by apply (Hneed0 i).
    + right. right. right. apply Hneed3. by exists i.
  - destruct (lms2012_compat_acquire_from_i2cs K pdev l3 s3) as [[r s4] t4].
    by rewrite <- !app_assoc.
Qed.

(** Lines 74-194. *)
Lemma acquire_runs_to_uarts s :
  global_dev s = None ->
  reaches_uart_check K ->
  exists lms s1 t1,
    forallb before_uart_windows t1 = true
    /\ refs is_node t1 = Z.of_nat INPUTS
    /\ In (EvAcquire (RGpiod "spi")) t1
    /\ (forall i e, (i < INPUTS)%nat ->
          claimed_for_in_port K i e \/ claimed_for_in_pins K i e
          \/ claimed_for_i2c K i e ->
          In e t1)
    /\ lms2012_compat_acquire K pdev s
       = (let '(r, s2, t2) :=
            lms2012_compat_acquire_from_uarts K pdev lms s1 in
          (r, s2, t1 ++ t2)).
Proof.
  intros Hg (Hreach & Hi2c).
  destruct (acquire_runs_to_i2cs s Hg Hreach)
    as (l0 & s0 & t0 & HE0 & Hn0 & Hspi0 & Hneed0 & ->).
  apply forallb_before_uart_windows in HE0.
  unfold lms2012_compat_acquire_from_i2cs.
  match goal with
  | |- context [bind (probe_read_i2cs K) ?k s0] =>
      destruct (passes_step _ _ _ _ _ k s0 (probe_read_i2cs_passes Hi2c))
        as (arr & s1 & t1 & [Harr Hok] & HE1 & Hn1 & _ & ->)
  end.
  match goal with
  | |- context [bind (for_upto INPUTS (probe_i2c_adapter K pdev arr) l0)
                  ?k s1] =>
      destruct (passes_step _ _ _ _ _ k s1
                  (passes_for_upto before_uart_windows 0
                     (claimed_for_i2c K) (probe_i2c_adapter K pdev arr)
                     INPUTS l0
                     (fun i a' Hi =>
                        probe_i2c_adapter_passes arr i a' Harr (Hok i Hi))))
        as (l2 & s2 & t2 & _ & HE2 & Hn2 & Hneed2 & ->)
  end.
  exists l2, s2, (t0 ++ t1 ++ t2).
  rewrite !forallb_app, !refs_app, HE0, HE1, HE2, Hn0, Hn1, Hn2.
  split; [reflexivity |]. split; [lia |]. split; [| split].
  - rewrite !in_app_iff. by left.
  - intros i e Hi [He | [He | He]]; rewrite !in_app_iff.
    + left. apply (Hneed0 i e Hi). by left.
    + left. apply (Hneed0 i e Hi). by right.
    + right. right. apply Hneed2. by exists i.
  - destruct (lms2012_compat_acquire_from_uarts K pdev l2 s2) as [[r s4] t4].
    by rewrite <- !app_assoc.
Qed.

(** A check that is reached and turns the probe away. *)
Lemma acquire_stops_at_check s c :
  declared_count K c <> Z.of_nat INPUTS ->
  global_dev s = None ->
  reaches_check K c ->
  exists s1 t,
    lms2012_compat_acquire K pdev s
    = (inr (Return (count_error (declared_count K c))), s1, t)
    /\ claims_at_check K c t.
Proof.
  intros Hne Hg Hreach. pose proof (check_rejects_holds K c Hne) as Hrej.
  destruct c; simpl in Hreach, Hrej |- *.
  - assert (Hk : exists s1,
              devm_kzalloc K pdev s
              = (inl (Some zeroed_lms), s1, [EvAcquire (RMem MBundle)])).
    { unfold_services. rewrite Hreach. simpl. eauto. }
    destruct Hk as [s1 Hk].
    rewrite lms2012_compat_acquire_tails, bind_gets, Hg.
    unfold bind at 1. rewrite Hk. unfold bind at 1. rewrite Hrej.
    by exists s1, [EvAcquire (RMem MBundle); EvQuery "in-in-ports"].
  - destruct (acquire_runs_to_i2cs s Hg Hreach)
      as (l0 & s0 & t0 & HE0 & Hn0 & Hspi0 & Hneed0 & ->).
    unfold lms2012_compat_acquire_from_i2cs, bind at 1. rewrite Hrej.
    exists s0, (t0 ++ [EvQuery "in-i2cs"]). split; [reflexivity |].
    split; [by exists t0 |].
    rewrite forallb_app, refs_app, HE0, Hn0. split; [reflexivity |].
    split; [simpl; lia |]. split; [apply in_app_iff; by left |].
    intros i e Hi He. apply in_app_iff. left. by apply (Hneed0 i).
  - destruct (acquire_runs_to_uarts s Hg Hreach)
      as (l0 & s0 & t0 & HE0 & Hn0 & Hspi0 & Hneed0 & ->).
    unfold lms2012_compat_acquire_from_uarts, bind at 1. rewrite Hrej.
    exists s0, (t0 ++ [EvQuery "in-uarts"]). split; [reflexivity |].
    split; [by exists t0 |].
    rewrite forallb_app, refs_app, HE0, Hn0. split; [reflexivity |].
    split; [simpl; lia |]. split; [apply in_app_iff; by left |].
    intros i e Hi He. apply in_app_iff. left. by apply (Hneed0 i).
Qed.

(** Lines 123-128 on a property that is missing, empty or short. *)
Lemma probe_adc_channels_fails lms s :
  adc_channels_short K ->
  probe_adc_channels K lms s
  = (inr (Return (adc_error K)), s, [EvQuery "adc-channels"]).
Proof.
  unfold adc_channels_short, adc_error, probe_adc_channels,
    of_property_read_u32_array.
  unfold_services.
  destruct (k_adc_channels K) as [| | cells]; intros Hs; try reflexivity.
  destruct (Nat.ltb_spec (length cells) INPUTADC); [reflexivity | lia].
Qed.

(** Lines 123-128 on a property of INPUTADC cells or more. *)
Lemma probe_adc_channels_takes lms s cells :
  k_adc_channels K = PropCells cells ->
  (INPUTADC <= length cells)%nat ->
  probe_adc_channels K lms s
  = (inl (set_adc_map (take INPUTADC cells) lms), s,
     [EvQuery "adc-channels"]).
Proof.
  intros Hc Hlen.
  unfold probe_adc_channels, of_property_read_u32_array. unfold_services.
  rewrite Hc. destruct (Nat.ltb_spec (length cells) INPUTADC); [lia |].
  reflexivity.
Qed.

End Prefixes.

(** ** C2: what has been claimed when a count check turns the probe away *)

(** C2, as the code has it.  A declared count that differs from INPUTS
    makes probe fail, and the check that notices it returns [-EINVAL] (or
    the count's own negative code) after a single query.  Where the check
    sits decides what has been claimed by then.  The input-port count is
    the only one checked before acquisition: when the bundle has been
    allocated, the probe's whole trace is that allocation and the one
    query.  The I2C count is checked at lines 163-171: when everything
    before it has gone through, the probe leaves there with the count's
    code, its last event the count query, having claimed the SPI group
    and, for every input port, the node, the pin-control handle (unless
    the provider answered NULL), the GPIO group and the optional line if
    there is one; it holds INPUTS node references, has put none, and has
    touched nothing of the I2C adapters, the UARTs, the output ports or
    the PWM channels.  The UART count is checked at lines 196-204: when
    everything before it has gone through, the probe leaves there having
    claimed, besides all that, the I2C adapter of every input port, and
    nothing of a UART, an output port or a PWM channel. *)
Theorem count_mismatch_fails_at_its_check `{lms2012_h} (K : kernel)
  (pdev : device) (register_simple : string -> kptr string) (s : kstate)
  (c : count_check) :
  declared_count K c <> Z.of_nat INPUTS ->
  let r := lms2012_compat_probe K pdev register_simple s in
  r.1.1 <> Return 0
  /\ Forall (upto (check_step c)) r.2
  /\ check_rejects K c
  /\ (c = InPortCount -> provider_claims r.2 = [])
  /\ (global_dev s = None -> reaches_check K c ->
      r.1.1 = Return (count_error (declared_count K c))
      /\ claims_at_check K c r.2).
Proof.
  intros Hne r.
  assert (Hb : spec (upto (check_step c)) blocked
                 (lms2012_compat_acquire K pdev)).
  { destruct c; simpl in *.
    - by apply acquire_blocked_in_ports.
    - by apply acquire_blocked_i2cs.
    - by apply acquire_blocked_uarts. }
  destruct (probe_blocked K pdev register_simple _ s Hb) as [Hx Ht].
  split; [exact Hx |]. split; [exact Ht |].
  split; [by apply check_rejects_holds |]. split.
  - intros ->. simpl in Ht. fold r in Ht. clear -Ht.
    unfold provider_claims. induction Ht as [| e t He Ht IH]; [reflexivity |].
    destruct e as [q | r0 | r0 | g | n | p]; simpl; try exact IH.
    unfold upto in He. simpl in He.
    destruct r0 as [[] | | | | con_id | | | | |]; simpl in He; try lia.
    + rewrite filter_cons_False; [exact IH | by intros []].
    + destruct (is_prefix "out" con_id); lia.
  - intros Hg Hreach.
    destruct (acquire_stops_at_check K pdev s c Hne Hg Hreach)
      as (s1 & t & Hacq & Hclaims).
    subst r.
    rewrite (probe_of_failed_acquire K pdev register_simple s s1 _ t Hacq).
    by split.
Qed.

Lemma board_five_i2cs_reaches : reaches_i2c_check board_five_i2cs.
Proof.
  split; [split; [reflexivity | split; [reflexivity | each_port]] |].
  split; [exists [0; 1; 2; 3]; split; [reflexivity | simpl; lia] |].
  split; [eexists; split; reflexivity | each_port].
Qed.

Lemma board_three_uarts_reaches : reaches_uart_check board_three_uarts.
Proof.
  split.
  - split; [split; [reflexivity | split; [reflexivity | each_port]] |].
    split; [exists [0; 1; 2; 3]; split; [reflexivity | simpl; lia] |].
    split; [eexists; split; reflexivity | each_port].
  - exists [1; 2; 3; 4]. split; [reflexivity |]. split; [reflexivity |].
    each_port.
Qed.

Lemma count_mismatch_fails_at_its_check_witness :
  (declared_count board_five_i2cs I2cCount <> Z.of_nat INPUTS
   /\ global_dev boot = None
   /\ reaches_check board_five_i2cs I2cCount
   /\ let r :=
        lms2012_compat_probe board_five_i2cs the_pdev register_ok boot in
      r.1.1 = Return (-E EINVAL)
      /\ claims_at_check board_five_i2cs I2cCount r.2)
  /\ (declared_count board_three_uarts UartCount <> Z.of_nat INPUTS
      /\ global_dev boot = None
      /\ reaches_check board_three_uarts UartCount
      /\ let r :=
           lms2012_compat_probe board_three_uarts the_pdev register_ok boot in
         r.1.1 = Return (-E EINVAL)
         /\ claims_at_check board_three_uarts UartCount r.2).
Proof.
  assert (H5 : declared_count board_five_i2cs I2cCount <> Z.of_nat INPUTS)
    by (vm_compute; discriminate).
  assert (H3 : declared_count board_three_uarts UartCount <> Z.of_nat INPUTS)
    by (vm_compute; discriminate).
  split.
  - split; [exact H5 |]. split; [reflexivity |].
    split; [exact board_five_i2cs_reaches |].
    apply (count_mismatch_fails_at_its_check board_five_i2cs the_pdev
             register_ok boot I2cCount H5);
      [reflexivity | exact board_five_i2cs_reaches].
  - split; [exact H3 |]. split; [reflexivity |].
    split; [exact board_three_uarts_reaches |].
    apply (count_mismatch_fails_at_its_check board_three_uarts the_pdev
             register_ok boot UartCount H3);
      [reflexivity | exact board_three_uarts_reaches].
Defined.

(** ** C7: the channel-map read, on short and on long properties *)

(** C7, as the code has it.  A channel-index property that is missing,
    has no value, or holds fewer than INPUTADC cells makes the probe
    fail, with nothing beyond the input ports' pin control claimed; when
    everything before the read has gone through, the probe leaves with
    the read's own code, [-EINVAL], [-ENODATA] or [-EOVERFLOW] in that
    order, its last event the query of the property.  A property of
    INPUTADC cells or more is accepted: the read goes through with the
    first INPUTADC cells, whatever the length, and on a board that is in
    order the probe returns 0.  Whenever probe returns 0 the bundle's
    channel map is the first INPUTADC cells of the property. *)
Theorem adc_channels_need_at_least_inputadc `{lms2012_h} (K : kernel)
  (pdev : device) (register_simple : string -> kptr string) (s : kstate) :
  let r := lms2012_compat_probe K pdev register_simple s in
  (adc_channels_short K ->
   r.1.1 <> Return 0
   /\ Forall (upto 1) r.2
   /\ (global_dev s = None -> reaches_adc_read K ->
       r.1.1 = Return (adc_error K)
       /\ exists t0, r.2 = t0 ++ [EvQuery "adc-channels"]))
  /\ (forall cells,
        k_adc_channels K = PropCells cells ->
        (INPUTADC <= length cells)%nat ->
        (forall lms s0,
           probe_adc_channels K lms s0
           = (inl (set_adc_map (take INPUTADC cells) lms), s0,
              [EvQuery "adc-channels"]))
        /\ (global_dev s = None -> board_ok K -> r.1.1 = Return 0))
  /\ (r.1.1 = Return 0 ->
      exists cells lms,
        k_adc_channels K = PropCells cells
        /\ (INPUTADC <= length cells)%nat
        /\ drvdata r.1.2 pdev = Some lms
        /\ adc_map lms = take INPUTADC cells).
Proof.
  intros r. split; [| split].
  - intros Hs. destruct (adc_read_error K Hs) as [e He].
    destruct (probe_blocked K pdev register_simple (upto 1) s
                (acquire_blocked_adc K pdev e He)) as [Hx Ht].
    split; [exact Hx |]. split; [exact Ht |].
    intros Hg Hreach.
    destruct (acquire_runs_to_adc K pdev s Hg Hreach)
      as (l0 & s0 & t0 & _ & _ & _ & Hacq).
    unfold lms2012_compat_acquire_from_adc, bind at 1 in Hacq.
    rewrite (probe_adc_channels_fails K l0 s0 Hs) in Hacq.
    subst r.
    rewrite (probe_of_failed_acquire K pdev register_simple s s0 _ _ Hacq).
    split; [reflexivity | by exists t0].
  - intros cells Hc Hlen. split.
    + intros lms s0. by apply probe_adc_channels_takes.
    + intros Hg Hok.
      destruct (lms2012_compat_acquire_falls K pdev s Hg Hok)
        as (lms & s1 & t1 & Hacq).
      destruct (probe_of_acquire K pdev register_simple s lms s1 t1 Hacq)
        as (s2 & Hp & _).
      subst r. by rewrite Hp.
  - intros Hr. subst r.
    destruct (lms2012_compat_probe K pdev register_simple s)
      as [[x s'] t] eqn:Hp.
    simpl in Hr. subst x.
    destruct (probe_success_inv K pdev register_simple s s' t Hp)
      as (lms & s1 & t1 & _ & _ & Hadc & _ & _ & Hd).
    destruct (adc_read_ok K _ Hadc) as (cells & Hc & Hlen & Hmap).
    exists cells, (published register_simple lms). simpl.
    repeat split; assumption.
Qed.

Lemma board_three_adc_channels_reaches :
  reaches_adc_read board_three_adc_channels.
Proof. split; [reflexivity | split; [reflexivity | each_port]]. Qed.

Lemma board_five_adc_channels_is_ok : board_ok board_five_adc_channels.
Proof.
  constructor; try each_port.
  - reflexivity.
  - reflexivity.
  - exists [0; 1; 2; 3; 4]. split; [reflexivity | simpl; lia].
  - eexists. split; reflexivity.
  - exists [1; 2; 3; 4]. split; [reflexivity |]. split; [reflexivity |].
    each_port.
  - reflexivity.
Qed.

Lemma adc_channels_need_at_least_inputadc_witness :
  (adc_channels_short board_three_adc_channels
   /\ global_dev boot = None
   /\ reaches_adc_read board_three_adc_channels
   /\ (lms2012_compat_probe board_three_adc_channels the_pdev register_ok
         boot).1.1 = Return (-E EOVERFLOW))
  /\ (k_adc_channels board_five_adc_channels = PropCells [0; 1; 2; 3; 4]
      /\ (INPUTADC <= length [0; 1; 2; 3; 4])%nat
      /\ board_ok board_five_adc_channels
      /\ (lms2012_compat_probe board_five_adc_channels the_pdev register_ok
            boot).1.1 = Return 0
      /\ exists cells lms,
           k_adc_channels board_five_adc_channels = PropCells cells
           /\ (INPUTADC <= length cells)%nat
           /\ drvdata (lms2012_compat_probe board_five_adc_channels the_pdev
                         register_ok boot).1.2 the_pdev = Some lms
           /\ adc_map lms = take INPUTADC cells).
Proof.
  split.
  - assert (Hs : adc_channels_short board_three_adc_channels)
      by (vm_compute; lia).
    split; [exact Hs |]. split; [reflexivity |].
    split; [exact board_three_adc_channels_reaches |].
    exact (proj1 (proj2 (proj2 (proj1 (adc_channels_need_at_least_inputadc
                                         board_three_adc_channels the_pdev
                                         register_ok boot)
                                  Hs))
                    eq_refl board_three_adc_channels_reaches)).
  - assert (Hlen : (INPUTADC <= length [0; 1; 2; 3; 4])%nat)
      by (simpl; lia).
    assert (Hr : (lms2012_compat_probe board_five_adc_channels the_pdev
                    register_ok boot).1.1 = Return 0).
    { exact (proj2 (proj1 (proj2 (adc_channels_need_at_least_inputadc
                                    board_five_adc_channels the_pdev
                                    register_ok boot))
                      [0; 1; 2; 3; 4] eq_refl Hlen)
               eq_refl board_five_adc_channels_is_ok). }
    split; [reflexivity |]. split; [exact Hlen |].
    split; [exact board_five_adc_channels_is_ok |]. split; [exact Hr |].
    exact (proj2 (proj2 (adc_channels_need_at_least_inputadc
                           board_five_adc_channels the_pdev register_ok boot))
             Hr).
Defined.
